(** * Point cloud viewer: camera, point store and label thinning

    A shallow embedding of [point_cloud_renderer.h], of the renderer
    sources ([Camera], [PointCloudRenderer]) and of the main loop of
    [lidar_example.cpp].  C++ [float] is IEEE 754
    binary32, modelled with the parameterised operations of [SpecFloat]
    at precision 24 and maximal exponent 128, so that rounding, signed
    zeros, infinities and NaN behave as on the machine (every [float]
    expression is evaluated in binary32, round to nearest even). *)

From Stdlib Require Import ZArith List Bool Lia Permutation.
From Stdlib Require Import Floats.SpecFloat.
Import ListNotations.
Local Open Scope Z_scope.

(** ** binary32 arithmetic *)

Module F32.

Definition prec : Z := 24.
Definition emax : Z := 128.

Definition float : Type := spec_float.

Definition add : float -> float -> float := SFadd prec emax.
Definition sub : float -> float -> float := SFsub prec emax.
Definition mul : float -> float -> float := SFmul prec emax.
Definition div : float -> float -> float := SFdiv prec emax.
Definition neg : float -> float := SFopp.
Definition fabs : float -> float := SFabs.

(** [a < b], [a <= b], [a == b], [a > b] of C++; all false on NaN. *)
Definition ltb : float -> float -> bool := SFltb.
Definition leb : float -> float -> bool := SFleb.
Definition eqb : float -> float -> bool := SFeqb.
Definition gtb (a b : float) : bool := ltb b a.

(** Conversion of an integer to [float] (round to nearest even). *)
Definition of_Z (z : Z) : float := binary_normalize prec emax z 0 false.

(** A decimal literal [n/d] with [n] and [d] exactly representable: the
    correctly rounded quotient is the binary32 value nearest to the
    decimal, which is what the compiler stores for the literal. *)
Definition lit (n d : Z) : float := div (of_Z n) (of_Z d).

Definition is_nan (x : float) : bool :=
  match x with S754_nan => true | _ => false end.

Definition is_zero (x : float) : bool :=
  match x with S754_zero _ => true | _ => false end.

Definition is_inf (v : float) : bool :=
  match v with S754_infinity _ => true | _ => false end.

(** Neither NaN nor infinite, and a well-formed binary32 datum. *)
Definition is_finite (x : float) : bool :=
  match x with
  | S754_zero _ => true
  | S754_finite _ m e => bounded prec emax m e
  | _ => false
  end.

(** [std::numeric_limits<float>::max()] and [lowest()]. *)
Definition FLT_MAX : float := SFmax_float prec emax.
Definition FLT_LOWEST : float := neg FLT_MAX.

(** [std::min(a, b)] is [(b < a) ? b : a]; [std::max(a, b)] is
    [(a < b) ? b : a]. *)
Definition std_min (a b : float) : float := if ltb b a then b else a.
Definition std_max (a b : float) : float := if ltb a b then b else a.

(** [std::max({a, b, c})]: the first greatest element, found with [<]. *)
Definition std_max3 (a b c : float) : float :=
  let m := if ltb a b then b else a in
  if ltb m c then c else m.

(** [std::min({a, b, c})]: the first smallest element. *)
Definition std_min3 (a b c : float) : float :=
  let m := if ltb b a then b else a in
  if ltb c m then c else m.

Definition INT_MAX : Z := 2147483647.
Definition INT_MIN : Z := -2147483648.

(** [(int)x]: truncation toward zero; undefined ([None]) when [x] is NaN,
    infinite or outside the range of [int]. *)
Definition to_int (x : float) : option Z :=
  match x with
  | S754_zero _ => Some 0
  | S754_finite s m e =>
      let z := cond_Zopp s (Z.shiftl (Zpos m) e) in
      if (INT_MIN <=? z) && (z <=? INT_MAX) then Some z else None
  | _ => None
  end.

End F32.

Import F32.

Declare Scope f32_scope.
Delimit Scope f32_scope with f32.
Notation "a + b" := (add a b) : f32_scope.
Notation "a - b" := (sub a b) : f32_scope.
Notation "a * b" := (mul a b) : f32_scope.
Notation "a / b" := (div a b) : f32_scope.
Notation "- a" := (neg a) : f32_scope.
Notation "a <? b" := (ltb a b) : f32_scope.
Notation "a >? b" := (gtb a b) : f32_scope.
Notation "a <=? b" := (leb a b) : f32_scope.
Notation "a =? b" := (eqb a b) : f32_scope.

(** The literals of the sources. *)
Definition f0 : float := of_Z 0.
Definition f1 : float := of_Z 1.
Definition f2 : float := of_Z 2.
Definition f5 : float := of_Z 5.
Definition f10 : float := of_Z 10.
Definition f20 : float := of_Z 20.
Definition f30 : float := of_Z 30.
Definition f45 : float := of_Z 45.
Definition f89 : float := of_Z 89.
Definition f90 : float := of_Z 90.
Definition f1000 : float := of_Z 1000.
Definition f0_1 : float := lit 1 10.
Definition f0_5 : float := lit 1 2.
Definition f35_26 : float := lit 3526 100.

(** ** Data model *)

(** [struct Point3D]. *)
Record Point3D : Type := mkPoint3D {
  x : float; y : float; z : float;
  r : float; g : float; b : float;
  intensity : float
}.

(** [class Camera]. *)
Record Camera : Type := mkCamera {
  distance : float;
  yaw : float;
  pitch : float;
  targetX : float;
  targetY : float;
  targetZ : float;
  fov : float
}.

(** [enum ColorMode]; the field [colorMode] itself is an [int]. *)
Definition COLOR_RGB : Z := 0.
Definition COLOR_HEIGHT : Z := 1.
Definition COLOR_INTENSITY : Z := 2.
Definition COLOR_UNIFORM : Z := 3.

(** [class PointCloudRenderer]. *)
Record PointCloudRenderer : Type := mkRenderer {
  pointCount : nat;
  pointSize : float;
  colorMode : Z;
  showGrid : bool;
  gridSpacing : float;
  gridSize : Z;
  showAxisLabels : bool;
  camera : Camera;
  points : list Point3D;
  minX : float; maxX : float;
  minY : float; maxY : float;
  minZ : float; maxZ : float
}.

(** ** Camera operations

    [Camera::pan] and [Camera::applyTransform] take [cos] and [sin] of the
    angles and are given further down, with the OpenGL calls of a frame
    and the example's main loop; [getProjectionMatrices] reads the
    matrices back from OpenGL and is left out. *)

(** [Camera::reset]: every field is overwritten. *)
Definition reset (c : Camera) : Camera :=
  {| distance := f10; yaw := f45; pitch := f30;
     targetX := f0; targetY := f0; targetZ := f0;
     fov := f45 |}.

(** [Camera::Camera()] calls [reset()] on the fresh object. *)
Definition Camera_new : Camera :=
  reset (mkCamera f0 f0 f0 f0 f0 f0 f0).

(** [Camera::orbit]. *)
Definition orbit (c : Camera) (deltaYaw deltaPitch : float) : Camera :=
  let yaw1 := (yaw c + deltaYaw)%f32 in
  let pitch1 := (pitch c + deltaPitch)%f32 in
  let pitch2 := if (pitch1 >? f89)%f32 then f89 else pitch1 in
  let pitch3 := if (pitch2 <? - f89)%f32 then (- f89)%f32 else pitch2 in
  {| distance := distance c; yaw := yaw1; pitch := pitch3;
     targetX := targetX c; targetY := targetY c; targetZ := targetZ c;
     fov := fov c |}.

(** [Camera::zoom]. *)
Definition zoom (c : Camera) (delta : float) : Camera :=
  let d1 := (distance c * (f1 - delta * f0_1))%f32 in
  let d2 := if (d1 <? f0_1)%f32 then f0_1 else d1 in
  let d3 := if (d2 >? f1000)%f32 then f1000 else d2 in
  {| distance := d3; yaw := yaw c; pitch := pitch c;
     targetX := targetX c; targetY := targetY c; targetZ := targetZ c;
     fov := fov c |}.

(** The view presets. *)
Definition set_yaw_pitch (c : Camera) (yw pt : float) : Camera :=
  {| distance := distance c; yaw := yw; pitch := pt;
     targetX := targetX c; targetY := targetY c; targetZ := targetZ c;
     fov := fov c |}.

Definition setTopView (c : Camera) : Camera := set_yaw_pitch c f0 f89.
Definition setFrontView (c : Camera) : Camera := set_yaw_pitch c f0 f0.
Definition setSideView (c : Camera) : Camera := set_yaw_pitch c f90 f0.
Definition setIsometricView (c : Camera) : Camera := set_yaw_pitch c f45 f35_26.

(** Repeating an operation. *)
Fixpoint iterate {A : Type} (n : nat) (f : A -> A) (a : A) : A :=
  match n with
  | O => a
  | S k => iterate k f (f a)
  end.

(** A run of [zoom] calls, one per delta, in order. *)
Definition zooms (c : Camera) (deltas : list float) : Camera :=
  fold_left zoom deltas c.

(** A run of [orbit] calls, one per pair of deltas, in order. *)
Definition orbits (c : Camera) (deltas : list (float * float)) : Camera :=
  fold_left (fun c d => orbit c (fst d) (snd d)) deltas c.

(** ** The point store *)

(** Writing the six bounds of the renderer. *)
Definition set_bounds (rd : PointCloudRenderer)
    (mnX mxX mnY mxY mnZ mxZ : float) : PointCloudRenderer :=
  {| pointCount := pointCount rd; pointSize := pointSize rd;
     colorMode := colorMode rd; showGrid := showGrid rd;
     gridSpacing := gridSpacing rd; gridSize := gridSize rd;
     showAxisLabels := showAxisLabels rd; camera := camera rd;
     points := points rd;
     minX := mnX; maxX := mxX; minY := mnY; maxY := mxY;
     minZ := mnZ; maxZ := mxZ |}.

(** Writing the sample sequence and its count. *)
Definition set_points (rd : PointCloudRenderer)
    (ps : list Point3D) (n : nat) : PointCloudRenderer :=
  {| pointCount := n; pointSize := pointSize rd;
     colorMode := colorMode rd; showGrid := showGrid rd;
     gridSpacing := gridSpacing rd; gridSize := gridSize rd;
     showAxisLabels := showAxisLabels rd; camera := camera rd;
     points := ps;
     minX := minX rd; maxX := maxX rd; minY := minY rd; maxY := maxY rd;
     minZ := minZ rd; maxZ := maxZ rd |}.

(** Writing the camera. *)
Definition set_camera (rd : PointCloudRenderer) (c : Camera)
    : PointCloudRenderer :=
  {| pointCount := pointCount rd; pointSize := pointSize rd;
     colorMode := colorMode rd; showGrid := showGrid rd;
     gridSpacing := gridSpacing rd; gridSize := gridSize rd;
     showAxisLabels := showAxisLabels rd; camera := c;
     points := points rd;
     minX := minX rd; maxX := maxX rd; minY := minY rd; maxY := maxY rd;
     minZ := minZ rd; maxZ := maxZ rd |}.

(** [PointCloudRenderer::PointCloudRenderer()]. *)
Definition PointCloudRenderer_new : PointCloudRenderer :=
  {| pointCount := 0%nat; pointSize := f2; colorMode := COLOR_RGB;
     showGrid := true; gridSpacing := f1; gridSize := 10;
     showAxisLabels := true; camera := Camera_new; points := [];
     minX := f0; maxX := f0; minY := f0; maxY := f0;
     minZ := f0; maxZ := f0 |}.

(** The inline setters of the header. *)
Definition setGridSpacing (rd : PointCloudRenderer) (spacing : float)
    : PointCloudRenderer :=
  {| pointCount := pointCount rd; pointSize := pointSize rd;
     colorMode := colorMode rd; showGrid := showGrid rd;
     gridSpacing := spacing; gridSize := gridSize rd;
     showAxisLabels := showAxisLabels rd; camera := camera rd;
     points := points rd;
     minX := minX rd; maxX := maxX rd; minY := minY rd; maxY := maxY rd;
     minZ := minZ rd; maxZ := maxZ rd |}.

Definition setColorMode (rd : PointCloudRenderer) (mode : Z)
    : PointCloudRenderer :=
  {| pointCount := pointCount rd; pointSize := pointSize rd;
     colorMode := mode; showGrid := showGrid rd;
     gridSpacing := gridSpacing rd; gridSize := gridSize rd;
     showAxisLabels := showAxisLabels rd; camera := camera rd;
     points := points rd;
     minX := minX rd; maxX := maxX rd; minY := minY rd; maxY := maxY rd;
     minZ := minZ rd; maxZ := maxZ rd |}.

(** One round of the loop of [calculateBounds]. *)
Definition bounds_step (rd : PointCloudRenderer) (p : Point3D)
    : PointCloudRenderer :=
  set_bounds rd
    (std_min (minX rd) (x p)) (std_max (maxX rd) (x p))
    (std_min (minY rd) (y p)) (std_max (maxY rd) (y p))
    (std_min (minZ rd) (z p)) (std_max (maxZ rd) (z p)).

(** [PointCloudRenderer::calculateBounds]. *)
Definition calculateBounds (rd : PointCloudRenderer) : PointCloudRenderer :=
  match points rd with
  | [] => set_bounds rd f0 f0 f0 f0 f0 f0
  | _ :: _ =>
      fold_left bounds_step (points rd)
        (set_bounds rd FLT_MAX FLT_LOWEST FLT_MAX FLT_LOWEST FLT_MAX FLT_LOWEST)
  end.

(** [PointCloudRenderer::setPointCloud]. *)
Definition setPointCloud (rd : PointCloudRenderer) (newPoints : list Point3D)
    : PointCloudRenderer :=
  let rd1 := calculateBounds (set_points rd newPoints (length newPoints)) in
  let c := camera rd1 in
  let sizeX := (maxX rd1 - minX rd1)%f32 in
  let sizeY := (maxY rd1 - minY rd1)%f32 in
  let sizeZ := (maxZ rd1 - minZ rd1)%f32 in
  let maxSize := std_max3 sizeX sizeY sizeZ in
  set_camera rd1
    {| distance := (maxSize * f2)%f32; yaw := yaw c; pitch := pitch c;
       targetX := ((minX rd1 + maxX rd1) * f0_5)%f32;
       targetY := ((minY rd1 + maxY rd1) * f0_5)%f32;
       targetZ := ((minZ rd1 + maxZ rd1) * f0_5)%f32;
       fov := fov c |}.

(** [PointCloudRenderer::clearPointCloud]. *)
Definition clearPointCloud (rd : PointCloudRenderer) : PointCloudRenderer :=
  set_points rd [] 0%nat.

(** The six stored bounds, as one value. *)
Definition bounds (rd : PointCloudRenderer)
    : float * float * float * float * float * float :=
  (minX rd, maxX rd, minY rd, maxY rd, minZ rd, maxZ rd).

(** The stored bounds are those of the stored sequence: recomputing them
    changes nothing. *)
Definition bounds_fresh (rd : PointCloudRenderer) : Prop :=
  bounds (calculateBounds rd) = bounds rd.

(** The bounding box of a sequence, axis by axis: the running [std::min]
    from [max()] and the running [std::max] from [lowest()] over the
    coordinates, and the degenerate zero box for the empty sequence. *)
Definition seq_min (vs : list float) : float := fold_left std_min vs FLT_MAX.
Definition seq_max (vs : list float) : float := fold_left std_max vs FLT_LOWEST.

Definition bbox (ps : list Point3D)
    : float * float * float * float * float * float :=
  match ps with
  | [] => (f0, f0, f0, f0, f0, f0)
  | _ :: _ =>
      (seq_min (map x ps), seq_max (map x ps),
       seq_min (map y ps), seq_max (map y ps),
       seq_min (map z ps), seq_max (map z ps))
  end.

(** The interval [[0.1, 1000]] of camera distances and [[-89, 89]] of
    pitches. *)
Definition distance_in_range (d : float) : Prop :=
  (f0_1 <=? d)%f32 = true /\ (d <=? f1000)%f32 = true.

Definition pitch_in_range (p : float) : Prop :=
  (- f89 <=? p)%f32 = true /\ (p <=? f89)%f32 = true.

(** Clamping [v] into [[lo, hi]]. *)
Definition clamp (lo hi v : float) : float :=
  if (v <? lo)%f32 then lo else if (v >? hi)%f32 then hi else v.

(** Two floats that denote the same value: the same datum, or two zeros
    ([-0.0f] and [0.0f] compare equal). *)
Definition same_value (a c : float) : Prop :=
  a = c \/ (is_zero a = true /\ is_zero c = true).

(** ** Drawing the points *)

(** The OpenGL calls issued by the point stage of [render]. *)
Inductive GLcall : Type :=
  | glEnable_DEPTH_TEST
  | glEnable_POINT_SMOOTH
  | glPointSize (size : float)
  | glBegin_POINTS
  | glColor3f (cr cg cb : float)
  | glVertex3f (vx vy vz : float)
  | glEnd
  | glDisable_POINT_SMOOTH.

(** The normalised height of the [COLOR_HEIGHT] case. *)
Definition height_t (py mnY mxY : float) : float :=
  ((py - mnY) / (mxY - mnY))%f32.

(** The body of the [switch] on [colorMode]: the colour call, when the mode
    is one of the four cases (there is no [default]).  Should [fabs]
    resolve to its [double] overload, the green channel is computed in
    binary64 and rounded on conversion to [GLfloat]; with 53 bits against
    24 that second rounding gives the binary32 result computed here. *)
Definition color_call (rd : PointCloudRenderer) (p : Point3D) : list GLcall :=
  if colorMode rd =? COLOR_RGB then [glColor3f (r p) (g p) (b p)]
  else if colorMode rd =? COLOR_HEIGHT then
    let t := height_t (y p) (minY rd) (maxY rd) in
    [glColor3f t (f1 - fabs (t - f0_5) * f2)%f32 (f1 - t)%f32]
  else if colorMode rd =? COLOR_INTENSITY then
    [glColor3f (intensity p) (intensity p) (intensity p)]
  else if colorMode rd =? COLOR_UNIFORM then [glColor3f f1 f1 f1]
  else [].

(** [PointCloudRenderer::render], from the test on [pointCount] on (after
    the camera transform and the grid). *)
Definition render_points (rd : PointCloudRenderer) : list GLcall :=
  if Nat.eqb (pointCount rd) 0 then []
  else
    [glEnable_DEPTH_TEST; glEnable_POINT_SMOOTH; glPointSize (pointSize rd);
     glBegin_POINTS]
    ++ flat_map (fun p => color_call rd p ++ [glVertex3f (x p) (y p) (z p)])
         (points rd)
    ++ [glEnd; glDisable_POINT_SMOOTH].

(** The colour the formula of the height mode gives a sample. *)
Definition height_color (py mnY mxY : float) : float * float * float :=
  let t := height_t py mnY mxY in
  (t, (f1 - fabs (t - f0_5) * f2)%f32, (f1 - t)%f32).

(** ** Grid lines and axis labels *)

(** [(int)(size / gridSpacing) + 1], the line count along one axis;
    [None] where the conversion or the addition is undefined. *)
Definition numLines (size spacing : float) : option Z :=
  match to_int (size / spacing)%f32 with
  | Some n => if n + 1 <=? INT_MAX then Some (n + 1) else None
  | None => None
  end.

(** [for (int i = 0; i <= n; i += skip)], collecting the indices visited;
    [fuel] bounds the number of rounds.  The counter cannot overflow: a
    line count is at most [2^31 - 127], the greatest [float] below [2^31]
    plus one. *)
Fixpoint label_loop (fuel : nat) (i n skip : Z) : list Z :=
  match fuel with
  | O => []
  | S k => if i <=? n then i :: label_loop k (i + skip) n skip else []
  end.

(** The grid lines that get a label along an axis with [n] lines and a
    given skip; [n + 1] rounds suffice for a positive skip. *)
Definition labelled_lines (n skip : Z) : list Z :=
  label_loop (Z.to_nat (n + 1)) 0 n skip.

(** The three line counts that [renderGrid] and [renderAxisLabels] compute
    from the extents of the bounding box. *)
Definition line_counts (rd : PointCloudRenderer) : option (Z * Z * Z) :=
  match numLines (maxX rd - minX rd)%f32 (gridSpacing rd),
        numLines (maxY rd - minY rd)%f32 (gridSpacing rd),
        numLines (maxZ rd - minZ rd)%f32 (gridSpacing rd) with
  | Some nx, Some ny, Some nz => Some (nx, ny, nz)
  | _, _, _ => None
  end.

(** The two early returns of [renderAxisLabels] do not fire: labels and
    grid are shown and no extent of the box is zero. *)
Definition labels_wanted (rd : PointCloudRenderer) : bool :=
  showAxisLabels rd && showGrid rd
  && negb ((maxX rd =? minX rd)%f32 || (maxY rd =? minY rd)%f32
           || (maxZ rd =? minZ rd)%f32).

(** [renderAxisLabels] as in src/unnamed/part_003: labels projected from
    the grid positions, drawn over a background plate.  The result lists,
    per axis, the grid lines for which a label is requested (it is drawn
    when its projection has a depth in [[0, 1]]); [None] where a line count
    is undefined. *)
Module Part003.
Definition skip (numLines : Z) : Z := if numLines >? 10 then 2 else 1.

(** The three loops, over X, Y and Z. *)
Definition label_lines (numLinesX numLinesY numLinesZ : Z)
    : list Z * list Z * list Z :=
  let skipX := skip numLinesX in
  let skipY := skip numLinesY in
  let skipZ := skip numLinesZ in
  (labelled_lines numLinesX skipX, labelled_lines numLinesY skipY,
   labelled_lines numLinesZ skipZ).

Definition renderAxisLabels (rd : PointCloudRenderer)
    : option (list Z * list Z * list Z) :=
  if labels_wanted rd then
    match line_counts rd with
    | Some (nx, ny, nz) => Some (label_lines nx ny nz)
    | None => None
    end
  else Some ([], [], []).
End Part003.

(** [renderAxisLabels] as in src/unnamed/part_002: labels at fixed places
    along the viewport edges; only X and Y get one label per line (the Z
    skip is computed and not used). *)
Module Part002.
Definition skip (numLines : Z) : Z :=
  let s := if numLines >? 15 then 2 else 1 in
  if numLines >? 30 then 4 else s.

(** The two loops, over X and Y. *)
Definition label_lines (numLinesX numLinesY numLinesZ : Z)
    : list Z * list Z :=
  let skipX := skip numLinesX in
  let skipY := skip numLinesY in
  (labelled_lines numLinesX skipX, labelled_lines numLinesY skipY).

Definition renderAxisLabels (rd : PointCloudRenderer)
    : option (list Z * list Z) :=
  if labels_wanted rd then
    match line_counts rd with
    | Some (nx, ny, nz) => Some (label_lines nx ny nz)
    | None => None
    end
  else Some ([], []).
End Part002.

(** [renderAxisLabels] as in src/unnamed/part_001: one [labelSkip] taken
    from the X line count serves X and Z, and is the starting value of the
    Y skip. *)
Module Part001.
Definition labelSkip (numLinesX : Z) : Z :=
  let s := if numLinesX >? 15 then 2 else 1 in
  if numLinesX >? 30 then 4 else s.

Definition yLabelSkip (numLinesX numLinesY : Z) : Z :=
  let s := labelSkip numLinesX in
  let s := if numLinesY >? 15 then 2 else s in
  if numLinesY >? 30 then 4 else s.

(** The three loops, over X, Y and Z. *)
Definition label_lines (numLinesX numLinesY numLinesZ : Z)
    : list Z * list Z * list Z :=
  (labelled_lines numLinesX (labelSkip numLinesX),
   labelled_lines numLinesY (yLabelSkip numLinesX numLinesY),
   labelled_lines numLinesZ (labelSkip numLinesX)).

Definition renderAxisLabels (rd : PointCloudRenderer)
    : option (list Z * list Z * list Z) :=
  if labels_wanted rd then
    match line_counts rd with
    | Some (nx, ny, nz) => Some (label_lines nx ny nz)
    | None => None
    end
  else Some ([], [], []).
End Part001.

(** What "every [k]-th grid line" means for the lines [0..n]. *)
Definition every_kth (k n : Z) (l : list Z) : Prop :=
  forall i, In i l <-> (0 <= i <= n /\ i mod k = 0).

(** ** Vocabulary of the properties *)

(** [v] has the distance, target and field of view of [c]. *)
Definition keeps_distance_target_fov (c v : Camera) : Prop :=
  distance v = distance c
  /\ targetX v = targetX c /\ targetY v = targetY c /\ targetZ v = targetZ c
  /\ fov v = fov c.

(** [v] has the yaw, pitch, target and field of view of [c]. *)
Definition keeps_yaw_pitch_target_fov (c v : Camera) : Prop :=
  yaw v = yaw c /\ pitch v = pitch c
  /\ targetX v = targetX c /\ targetY v = targetY c /\ targetZ v = targetZ c
  /\ fov v = fov c.

(** A sample whose three coordinates are finite numbers. *)
Definition finite_sample (p : Point3D) : Prop :=
  is_finite (x p) = true /\ is_finite (y p) = true /\ is_finite (z p) = true.

(** [mn <= v <= mx], as C++ evaluates it. *)
Definition between (mn v mx : float) : Prop :=
  (mn <=? v)%f32 = true /\ (v <=? mx)%f32 = true.

(** A sample inside the cube [[-5, 5]^3]. *)
Definition in_cube5 (p : Point3D) : Prop :=
  between (- f5)%f32 (x p) f5 /\ between (- f5)%f32 (y p) f5
  /\ between (- f5)%f32 (z p) f5.

(** A sequence that fills the cube [[-5, 5]^3]: every sample lies inside
    and each of the six faces is reached. *)
Definition fills_cube5 (ps : list Point3D) : Prop :=
  Forall in_cube5 ps
  /\ In (- f5)%f32 (map x ps) /\ In f5 (map x ps)
  /\ In (- f5)%f32 (map y ps) /\ In f5 (map y ps)
  /\ In (- f5)%f32 (map z ps) /\ In f5 (map z ps).

(** A sample given by its position, with the default colour and intensity
    of the [Point3D] constructor. *)
Definition Point3D_at (px py pz : float) : Point3D :=
  mkPoint3D px py pz f1 f1 f1 f1.

(** Two opposite corners of the box from the origin to [(ex, ey, ez)]. *)
Definition box_corners (ex ey ez : Z) : list Point3D :=
  [Point3D_at f0 f0 f0; Point3D_at (of_Z ex) (of_Z ey) (of_Z ez)].

(** Two opposite corners of the cube [[-5, 5]^3]. *)
Definition cube5_corners : list Point3D :=
  [Point3D_at (- f5)%f32 (- f5)%f32 (- f5)%f32; Point3D_at f5 f5 f5].

(** ** Further literals of the sources *)

Definition f3 : float := of_Z 3.
Definition f180 : float := of_Z 180.
Definition f360 : float := of_Z 360.
Definition f10000 : float := of_Z 10000.
Definition f0_6 : float := lit 6 10.
Definition f0_7 : float := lit 7 10.
Definition f0_3 : float := lit 3 10.
Definition f0_9 : float := lit 9 10.
Definition f0_15 : float := lit 15 100.
Definition f0_001 : float := lit 1 1000.

(** ** The remaining inline setters of the header *)

Definition setPointSize (rd : PointCloudRenderer) (size : float)
    : PointCloudRenderer :=
  {| pointCount := pointCount rd; pointSize := size;
     colorMode := colorMode rd; showGrid := showGrid rd;
     gridSpacing := gridSpacing rd; gridSize := gridSize rd;
     showAxisLabels := showAxisLabels rd; camera := camera rd;
     points := points rd;
     minX := minX rd; maxX := maxX rd; minY := minY rd; maxY := maxY rd;
     minZ := minZ rd; maxZ := maxZ rd |}.

Definition setShowGrid (rd : PointCloudRenderer) (show : bool)
    : PointCloudRenderer :=
  {| pointCount := pointCount rd; pointSize := pointSize rd;
     colorMode := colorMode rd; showGrid := show;
     gridSpacing := gridSpacing rd; gridSize := gridSize rd;
     showAxisLabels := showAxisLabels rd; camera := camera rd;
     points := points rd;
     minX := minX rd; maxX := maxX rd; minY := minY rd; maxY := maxY rd;
     minZ := minZ rd; maxZ := maxZ rd |}.

Definition setGridSize (rd : PointCloudRenderer) (size : Z)
    : PointCloudRenderer :=
  {| pointCount := pointCount rd; pointSize := pointSize rd;
     colorMode := colorMode rd; showGrid := showGrid rd;
     gridSpacing := gridSpacing rd; gridSize := size;
     showAxisLabels := showAxisLabels rd; camera := camera rd;
     points := points rd;
     minX := minX rd; maxX := maxX rd; minY := minY rd; maxY := maxY rd;
     minZ := minZ rd; maxZ := maxZ rd |}.

Definition setShowAxisLabels (rd : PointCloudRenderer) (show : bool)
    : PointCloudRenderer :=
  {| pointCount := pointCount rd; pointSize := pointSize rd;
     colorMode := colorMode rd; showGrid := showGrid rd;
     gridSpacing := gridSpacing rd; gridSize := gridSize rd;
     showAxisLabels := show; camera := camera rd;
     points := points rd;
     minX := minX rd; maxX := maxX rd; minY := minY rd; maxY := maxY rd;
     minZ := minZ rd; maxZ := maxZ rd |}.

(** What client code can do to a renderer: the public mutators, and any
    change to the camera reached through [getCamera()]. *)
Inductive RendererOp : Type :=
  | OpSetPointCloud (ps : list Point3D)
  | OpClearPointCloud
  | OpSetPointSize (size : float)
  | OpSetColorMode (mode : Z)
  | OpSetShowGrid (show : bool)
  | OpSetGridSpacing (spacing : float)
  | OpSetGridSize (size : Z)
  | OpSetShowAxisLabels (show : bool)
  | OpCamera (change : Camera -> Camera).

Definition apply_op (rd : PointCloudRenderer) (op : RendererOp)
    : PointCloudRenderer :=
  match op with
  | OpSetPointCloud ps => setPointCloud rd ps
  | OpClearPointCloud => clearPointCloud rd
  | OpSetPointSize size => setPointSize rd size
  | OpSetColorMode mode => setColorMode rd mode
  | OpSetShowGrid show => setShowGrid rd show
  | OpSetGridSpacing spacing => setGridSpacing rd spacing
  | OpSetGridSize size => setGridSize rd size
  | OpSetShowAxisLabels show => setShowAxisLabels rd show
  | OpCamera change => set_camera rd (change (camera rd))
  end.

(** The renderer after a sequence of operations on a freshly constructed
    one. *)
Definition run_ops (ops : list RendererOp) : PointCloudRenderer :=
  fold_left apply_op ops PointCloudRenderer_new.

(** ** binary64 arithmetic

    [double] is IEEE 754 binary64: the operations of [SpecFloat] at
    precision 53 and maximal exponent 1024.  It is the type of [M_PI], of
    the cursor positions that GLFW reports, and of the arguments of
    [glFrustum] and [gluLookAt]. *)

Module F64.
Definition prec : Z := 53.
Definition emax : Z := 1024.
Definition double : Type := spec_float.
Definition mul : double -> double -> double := SFmul prec emax.
Definition div : double -> double -> double := SFdiv prec emax.
Definition add : double -> double -> double := SFadd prec emax.
Definition sub : double -> double -> double := SFsub prec emax.

(** A [float] read as a [double]: the same number, in the 53-bit form. *)
Definition of_float (v : float) : double :=
  match v with
  | S754_finite s m e => binary_normalize prec emax (cond_Zopp s (Zpos m)) e s
  | _ => v
  end.

(** A [double] stored in a [float]: rounded to nearest, ties to even. *)
Definition to_float (d : double) : float :=
  match d with
  | S754_finite s m e =>
      binary_normalize F32.prec F32.emax (cond_Zopp s (Zpos m)) e s
  | _ => d
  end.

(** An [int] converted to [double]. *)
Definition of_Z (n : Z) : double := binary_normalize prec emax n 0 false.

(** [M_PI], [0x400921FB54442D18]. *)
Definition M_PI : double := S754_finite false 7074237752028440 (-51).
End F64.

(** ** The OpenGL calls of a frame *)

Module GL.

Inductive cap : Type := DEPTH_TEST | BLEND | POINT_SMOOTH.

Inductive prim : Type := LINES | POINTS.

Inductive matrix : Type := MODELVIEW | PROJECTION.

Definition rgba : Type := (float * float * float * float)%type.

Definition xyz : Type := (float * float * float)%type.

Inductive call : Type :=
  | glMatrixMode (m : matrix)
  | glLoadIdentity
  | glFrustum (left right bottom top zNear zFar : F64.double)
  | gluLookAt (eyeX eyeY eyeZ centerX centerY centerZ upX upY upZ
               : F64.double)
  | glEnable (c : cap)
  | glDisable (c : cap)
  | glBlendFunc_SRC_ALPHA_ONE_MINUS_SRC_ALPHA
  | glLineWidth (width : float)
  | glPointSize (size : float)
  | glBegin (p : prim)
  | glEnd
  | glColor4f (cr cg cb ca : float)
  | glColor3f (cr cg cb : float)
  | glVertex3f (vx vy vz : float).

(** The part of the OpenGL state that is followed here: three
    capabilities, line width, point size, current colour, matrix mode, and
    the primitive of the open [glBegin], if any.  The contents of the
    matrices and the blend function are not represented. *)
Record state : Type := mkState {
  depth_test : bool;
  blend : bool;
  point_smooth : bool;
  line_width : float;
  point_size : float;
  color : rgba;
  matrix_mode : matrix;
  mode : option prim
}.

Definition set_cap (s : state) (c : cap) (v : bool) : state :=
  match c with
  | DEPTH_TEST =>
      mkState v (blend s) (point_smooth s) (line_width s) (point_size s)
        (color s) (matrix_mode s) (mode s)
  | BLEND =>
      mkState (depth_test s) v (point_smooth s) (line_width s) (point_size s)
        (color s) (matrix_mode s) (mode s)
  | POINT_SMOOTH =>
      mkState (depth_test s) (blend s) v (line_width s) (point_size s)
        (color s) (matrix_mode s) (mode s)
  end.

Definition set_color (s : state) (c : rgba) : state :=
  mkState (depth_test s) (blend s) (point_smooth s) (line_width s)
    (point_size s) c (matrix_mode s) (mode s).

Definition set_mode (s : state) (m : option prim) : state :=
  mkState (depth_test s) (blend s) (point_smooth s) (line_width s)
    (point_size s) (color s) (matrix_mode s) m.

(** A call issued outside [glBegin]/[glEnd].  [glLineWidth] and
    [glPointSize] with an argument [<= 0] raise [GL_INVALID_VALUE] and are
    ignored; the calls that load or multiply the current matrix and
    [glBlendFunc] change nothing that [state] represents. *)
Definition step_outside (s : state) (c : call) : state :=
  match c with
  | glMatrixMode m =>
      mkState (depth_test s) (blend s) (point_smooth s) (line_width s)
        (point_size s) (color s) m (mode s)
  | glEnable k => set_cap s k true
  | glDisable k => set_cap s k false
  | glLineWidth w =>
      if (w <=? f0)%f32 then s
      else
        mkState (depth_test s) (blend s) (point_smooth s) w (point_size s)
          (color s) (matrix_mode s) (mode s)
  | glPointSize z =>
      if (z <=? f0)%f32 then s
      else
        mkState (depth_test s) (blend s) (point_smooth s) (line_width s) z
          (color s) (matrix_mode s) (mode s)
  | glBegin p => set_mode s (Some p)
  | _ => s
  end.

(** The effect of one call.  The colour and vertex calls are accepted
    anywhere ([glColor3f] sets the alpha to 1), and [glEnd] closes the
    open [glBegin].  Every other call, [glBegin] included, is accepted
    only outside [glBegin]/[glEnd]: inside it raises
    [GL_INVALID_OPERATION] and is ignored, as is a [glEnd] without
    [glBegin]. *)
Definition step (s : state) (c : call) : state :=
  match c with
  | glColor4f cr cg cb ca => set_color s (cr, cg, cb, ca)
  | glColor3f cr cg cb => set_color s (cr, cg, cb, f1)
  | glVertex3f _ _ _ => s
  | glEnd => set_mode s None
  | _ =>
      match mode s with
      | Some _ => s
      | None => step_outside s c
      end
  end.

Definition exec (s : state) (calls : list call) : state :=
  fold_left step calls s.

(** The vertices submitted, each with the primitive being assembled and
    the colour current at that moment. *)
Fixpoint vertices (s : state) (calls : list call)
    : list (option prim * rgba * xyz) :=
  match calls with
  | [] => []
  | glVertex3f vx vy vz :: rest =>
      (mode s, color s, (vx, vy, vz)) :: vertices s rest
  | c :: rest => vertices (step s c) rest
  end.

Definition is_vertex (c : call) : bool :=
  match c with
  | glVertex3f _ _ _ => true
  | _ => false
  end.

(** The calling discipline of OpenGL, followed through a list of calls:
    vertices only between [glBegin] and [glEnd], no nesting, and nothing
    but colours and vertices in between.  The result tells whether the
    list ends inside a [glBegin]; [None] when the discipline is
    broken. *)
Fixpoint scan (inside : bool) (calls : list call) : option bool :=
  match calls with
  | [] => Some inside
  | glBegin _ :: rest => if inside then None else scan true rest
  | glEnd :: rest => if inside then scan false rest else None
  | glVertex3f _ _ _ :: rest => if inside then scan inside rest else None
  | glColor4f _ _ _ _ :: rest => scan inside rest
  | glColor3f _ _ _ :: rest => scan inside rest
  | _ :: rest => if inside then None else scan inside rest
  end.

(** A list of calls that keeps the discipline and closes what it opens. *)
Definition disciplined (calls : list call) : bool :=
  match scan false calls with
  | Some false => true
  | _ => false
  end.

End GL.

(** The calls of the point stage, in the vocabulary of a whole frame. *)
Definition of_GLcall (c : GLcall) : GL.call :=
  match c with
  | glEnable_DEPTH_TEST => GL.glEnable GL.DEPTH_TEST
  | glEnable_POINT_SMOOTH => GL.glEnable GL.POINT_SMOOTH
  | glPointSize size => GL.glPointSize size
  | glBegin_POINTS => GL.glBegin GL.POINTS
  | glColor3f cr cg cb => GL.glColor3f cr cg cb
  | glVertex3f vx vy vz => GL.glVertex3f vx vy vz
  | glEnd => GL.glEnd
  | glDisable_POINT_SMOOTH => GL.glDisable GL.POINT_SMOOTH
  end.

(** ** Drawing the grid *)

(** The coordinate of grid line [i] along an axis: [min + i * gridSpacing],
    cut at [max]. *)
Definition grid_coord (mn mx spacing : float) (i : Z) : float :=
  let v := (mn + of_Z i * spacing)%f32 in
  if (v >? mx)%f32 then mx else v.

(** [for (int i = 0; i <= n; ++i)]. *)
Definition grid_lines (n : Z) : list Z := labelled_lines n 1.

(** The one pair of [glVertex3f] calls of a line segment. *)
Definition segment (a c : GL.xyz) : list GL.call :=
  let '(ax, ay, az) := a in
  let '(cx, cy, cz) := c in
  [GL.glVertex3f ax ay az; GL.glVertex3f cx cy cz].

(** One [for] loop of [renderGrid]: a segment from [a i] to [c i] for
    each line [i]. *)
Definition grid_loop (a c : Z -> GL.xyz) (n : Z) : list GL.call :=
  flat_map (fun i => segment (a i) (c i)) (grid_lines n).

(** The two early returns of [renderGrid] do not fire: the grid is shown
    and no extent of the box compares equal to zero. *)
Definition grid_shown (rd : PointCloudRenderer) : bool :=
  showGrid rd
  && negb (((maxX rd - minX rd) =? f0)%f32 || ((maxY rd - minY rd) =? f0)%f32
           || ((maxZ rd - minZ rd) =? f0)%f32).

(** The calls of [renderGrid] past its early returns, for given line
    counts. *)
Definition grid_calls (rd : PointCloudRenderer)
    (numLinesX numLinesY numLinesZ : Z) : list GL.call :=
  let sizeX := (maxX rd - minX rd)%f32 in
  let sizeY := (maxY rd - minY rd)%f32 in
  let sizeZ := (maxZ rd - minZ rd)%f32 in
  let gx := grid_coord (minX rd) (maxX rd) (gridSpacing rd) in
  let gy := grid_coord (minY rd) (maxY rd) (gridSpacing rd) in
  let gz := grid_coord (minZ rd) (maxZ rd) (gridSpacing rd) in
  let axisLength := (std_min3 sizeX sizeY sizeZ * f0_15)%f32 in
  [GL.glDisable GL.DEPTH_TEST; GL.glEnable GL.BLEND;
   GL.glBlendFunc_SRC_ALPHA_ONE_MINUS_SRC_ALPHA;
   GL.glLineWidth f1;
   GL.glBegin GL.LINES;
   GL.glColor4f f0_6 f0_6 f0_6 f0_7]
  ++ grid_loop (fun i => (minX rd, minY rd, gz i))
       (fun i => (maxX rd, minY rd, gz i)) numLinesZ
  ++ grid_loop (fun i => (gx i, minY rd, minZ rd))
       (fun i => (gx i, minY rd, maxZ rd)) numLinesX
  ++ [GL.glColor4f f0_5 f0_5 f0_6 f0_5]
  ++ grid_loop (fun i => (minX rd, gy i, minZ rd))
       (fun i => (maxX rd, gy i, minZ rd)) numLinesY
  ++ grid_loop (fun i => (gx i, minY rd, minZ rd))
       (fun i => (gx i, maxY rd, minZ rd)) numLinesX
  ++ [GL.glColor4f f0_6 f0_5 f0_5 f0_5]
  ++ grid_loop (fun i => (minX rd, gy i, minZ rd))
       (fun i => (minX rd, gy i, maxZ rd)) numLinesY
  ++ grid_loop (fun i => (minX rd, minY rd, gz i))
       (fun i => (minX rd, maxY rd, gz i)) numLinesZ
  ++ [GL.glEnd;
      GL.glLineWidth f2; GL.glBegin GL.LINES;
      GL.glColor4f f0_3 f0_3 f0_3 f0_9]
  ++ segment (minX rd, minY rd, minZ rd) (maxX rd, minY rd, minZ rd)
  ++ segment (maxX rd, minY rd, minZ rd) (maxX rd, minY rd, maxZ rd)
  ++ segment (maxX rd, minY rd, maxZ rd) (minX rd, minY rd, maxZ rd)
  ++ segment (minX rd, minY rd, maxZ rd) (minX rd, minY rd, minZ rd)
  ++ segment (minX rd, minY rd, minZ rd) (minX rd, maxY rd, minZ rd)
  ++ segment (maxX rd, minY rd, minZ rd) (maxX rd, maxY rd, minZ rd)
  ++ segment (minX rd, minY rd, maxZ rd) (minX rd, maxY rd, maxZ rd)
  ++ segment (minX rd, maxY rd, minZ rd) (maxX rd, maxY rd, minZ rd)
  ++ segment (minX rd, maxY rd, minZ rd) (minX rd, maxY rd, maxZ rd)
  ++ [GL.glEnd;
      GL.glLineWidth f3; GL.glBegin GL.LINES;
      GL.glColor4f f1 f0 f0 f1]
  ++ segment (minX rd, minY rd, minZ rd)
       ((minX rd + axisLength)%f32, minY rd, minZ rd)
  ++ [GL.glColor4f f0 f1 f0 f1]
  ++ segment (minX rd, minY rd, minZ rd)
       (minX rd, (minY rd + axisLength)%f32, minZ rd)
  ++ [GL.glColor4f f0 f0 f1 f1]
  ++ segment (minX rd, minY rd, minZ rd)
       (minX rd, minY rd, (minZ rd + axisLength)%f32)
  ++ [GL.glEnd;
      GL.glDisable GL.BLEND; GL.glEnable GL.DEPTH_TEST;
      GL.glLineWidth f1].

(** [PointCloudRenderer::renderGrid]; [None] where a line count is
    undefined. *)
Definition renderGrid (rd : PointCloudRenderer) : option (list GL.call) :=
  if grid_shown rd then
    match line_counts rd with
    | Some (numLinesX, numLinesY, numLinesZ) =>
        Some (grid_calls rd numLinesX numLinesY numLinesZ)
    | None => None
    end
  else Some [].

(** The samples a frame draws: the vertices submitted as points, each with
    its colour. *)
Definition drawn_points (s : GL.state) (calls : list GL.call)
    : list (GL.rgba * GL.xyz) :=
  flat_map
    (fun v => match v with
              | (Some GL.POINTS, c, p) => [(c, p)]
              | _ => []
              end)
    (GL.vertices s calls).

(** The positions at which [renderAxisLabels] of src/unnamed/part_003
    calls [drawAt], per axis. *)
Definition label_positions (rd : PointCloudRenderer)
    : option (list GL.xyz * list GL.xyz * list GL.xyz) :=
  if labels_wanted rd then
    match line_counts rd with
    | Some (nx, ny, nz) =>
        Some
          (map (fun i => (grid_coord (minX rd) (maxX rd) (gridSpacing rd) i,
                          minY rd, minZ rd))
             (labelled_lines nx (Part003.skip nx)),
           map (fun i => (minX rd,
                          grid_coord (minY rd) (maxY rd) (gridSpacing rd) i,
                          minZ rd))
             (labelled_lines ny (Part003.skip ny)),
           map (fun i => (minX rd, minY rd,
                          grid_coord (minZ rd) (maxZ rd) (gridSpacing rd) i))
             (labelled_lines nz (Part003.skip nz)))
    | None => None
    end
  else Some ([], [], []).

(** The colour that the [switch] of [render] gives a sample, with the
    alpha of 1 that [glColor3f] sets; [None] when the mode is none of the
    four cases. *)
Definition mode_color (rd : PointCloudRenderer) (p : Point3D)
    : option GL.rgba :=
  if colorMode rd =? COLOR_RGB then Some (r p, g p, b p, f1)
  else if colorMode rd =? COLOR_HEIGHT then
    let '(cr, cg, cb) := height_color (y p) (minY rd) (maxY rd) in
    Some (cr, cg, cb, f1)
  else if colorMode rd =? COLOR_INTENSITY then
    Some (intensity p, intensity p, intensity p, f1)
  else if colorMode rd =? COLOR_UNIFORM then Some (f1, f1, f1, f1)
  else None.

(** The colour a sample is drawn in: the one its mode gives, or the colour
    that is current when the mode gives none. *)
Definition sample_color (rd : PointCloudRenderer) (inherited : GL.rgba)
    (p : Point3D) : GL.rgba :=
  match mode_color rd p with
  | Some c => c
  | None => inherited
  end.

(** The camera that [setPointCloud] fits to a bounding box: target at the
    centre, distance twice the largest extent, orientation kept. *)
Definition fitted_camera (c : Camera)
    (bb : float * float * float * float * float * float) : Camera :=
  let '(a1, a2, a3, a4, a5, a6) := bb in
  {| distance := (std_max3 (a2 - a1) (a4 - a3) (a6 - a5) * f2)%f32;
     yaw := yaw c; pitch := pitch c;
     targetX := ((a1 + a2) * f0_5)%f32;
     targetY := ((a3 + a4) * f0_5)%f32;
     targetZ := ((a5 + a6) * f0_5)%f32;
     fov := fov c |}.

(** The "Reset Camera" button of the example: [getCamera().reset()], then
    [setPointCloud(points)]. *)
Definition reset_camera_button (rd : PointCloudRenderer)
    (ps : list Point3D) : PointCloudRenderer :=
  setPointCloud (set_camera rd (reset (camera rd))) ps.

(** A cloud without extent along some axis: no sample at all, or all
    samples sharing one finite coordinate. *)
Definition flat_cloud (ps : list Point3D) : Prop :=
  ps = []
  \/ exists v : float,
       is_finite v = true
       /\ (Forall (fun p => x p = v) ps \/ Forall (fun p => y p = v) ps
           \/ Forall (fun p => z p = v) ps).

(** The sign bit of a float; NaN is given none. *)
Definition signbit (v : float) : option bool :=
  match v with
  | S754_zero s | S754_infinity s | S754_finite s _ _ => Some s
  | S754_nan => None
  end.

(** ** Panning

    [Camera::pan] computes the yaw in radians in [double] ([M_PI] is a
    [double] constant) and stores it in a [float]. *)

(** [yaw * M_PI / 180.0f], stored in a [float]. *)
Definition yawRad (yw : float) : float :=
  F64.to_float
    (F64.div (F64.mul (F64.of_float yw) F64.M_PI) (F64.of_float f180)).

(** [cos] and [sin] of [<cmath>] as [pan] uses them: from a [float]
    argument to the value stored in a [float]. *)
Record libm : Type := mkLibm {
  cos : float -> float;
  sin : float -> float
}.

(** [Camera::pan]. *)
Definition pan (lm : libm) (c : Camera) (deltaX deltaY : float) : Camera :=
  let right_x := cos lm (yawRad (yaw c)) in
  let right_z := (- sin lm (yawRad (yaw c)))%f32 in
  let up_y := f1 in
  let scale := (distance c * f0_001)%f32 in
  {| distance := distance c; yaw := yaw c; pitch := pitch c;
     targetX :=
       (targetX c + (right_x * deltaX - right_x * deltaY) * scale)%f32;
     targetY := (targetY c + up_y * deltaY * scale)%f32;
     targetZ :=
       (targetZ c + (right_z * deltaX - right_z * deltaY) * scale)%f32;
     fov := fov c |}.

(** ** The camera transform

    [Camera::applyTransform] calls [tan] on a [double], and [cos] and
    [sin] on [float]s.  Which function an unqualified [cos(x)] names when
    [x] is a [float] depends on the headers of the implementation: the
    [float] overload, with the arithmetic around the call in binary32, or
    [double cos(double)], with that arithmetic in binary64.  [cos_of x]
    and [sin_of x] are the values the call returns for a [float] [x], and
    [float_overloads] tells which of the two cases holds. *)
Record cmath : Type := mkCmath {
  tan : F64.double -> F64.double;
  cos_of : float -> F64.double;
  sin_of : float -> F64.double;
  float_overloads : bool
}.

(** [pitch * M_PI / 180.0f], stored in a [float]. *)
Definition pitchRad (pt : float) : float :=
  F64.to_float
    (F64.div (F64.mul (F64.of_float pt) F64.M_PI) (F64.of_float f180)).

(** [camX], [camY], [camZ]: the position of the camera, from the
    spherical coordinates around the target. *)
Definition eye (cm : cmath) (c : Camera) : float * float * float :=
  let yr := yawRad (yaw c) in
  let pr := pitchRad (pitch c) in
  if float_overloads cm then
    let cos_pitch := F64.to_float (cos_of cm pr) in
    let sin_pitch := F64.to_float (sin_of cm pr) in
    let cos_yaw := F64.to_float (cos_of cm yr) in
    let sin_yaw := F64.to_float (sin_of cm yr) in
    ((targetX c + distance c * cos_pitch * sin_yaw)%f32,
     (targetY c + distance c * sin_pitch)%f32,
     (targetZ c + distance c * cos_pitch * cos_yaw)%f32)
  else
    let d := F64.of_float in
    (F64.to_float
       (F64.add (d (targetX c))
          (F64.mul (F64.mul (d (distance c)) (cos_of cm pr))
             (sin_of cm yr))),
     F64.to_float
       (F64.add (d (targetY c)) (F64.mul (d (distance c)) (sin_of cm pr))),
     F64.to_float
       (F64.add (d (targetZ c))
          (F64.mul (F64.mul (d (distance c)) (cos_of cm pr))
             (cos_of cm yr)))).

(** [Camera::applyTransform]: the six calls it issues, for a viewport of
    [width] by [height]; the [float] arguments are converted to
    [GLdouble]. *)
Definition applyTransform (cm : cmath) (c : Camera) (width height : Z)
    : list GL.call :=
  let aspect := (of_Z width / of_Z height)%f32 in
  let fH :=
    F64.to_float
      (F64.mul
         (tan cm
            (F64.div (F64.mul (F64.of_float (fov c)) F64.M_PI)
               (F64.of_float f360)))
         (F64.of_float f0_1)) in
  let fW := (fH * aspect)%f32 in
  let '(camX, camY, camZ) := eye cm c in
  let d := F64.of_float in
  [GL.glMatrixMode GL.PROJECTION;
   GL.glLoadIdentity;
   GL.glFrustum (d (- fW)%f32) (d fW) (d (- fH)%f32) (d fH) (d f0_1)
     (d f10000);
   GL.glMatrixMode GL.MODELVIEW;
   GL.glLoadIdentity;
   GL.gluLookAt (d camX) (d camY) (d camZ)
     (d (targetX c)) (d (targetY c)) (d (targetZ c)) (d f0) (d f1) (d f0)].

(** The state in which [applyTransform] leaves OpenGL when it is called
    outside [glBegin]/[glEnd]: the matrix mode is [GL_MODELVIEW]. *)
Definition after_transform (s : GL.state) : GL.state :=
  GL.mkState (GL.depth_test s) (GL.blend s) (GL.point_smooth s)
    (GL.line_width s) (GL.point_size s) (GL.color s) GL.MODELVIEW None.

(** [PointCloudRenderer::render]: the camera transform, then the grid,
    then the points. *)
Definition render (cm : cmath) (rd : PointCloudRenderer) (width height : Z)
    : option (list GL.call) :=
  match renderGrid rd with
  | None => None
  | Some grid =>
      Some (applyTransform cm (camera rd) width height
            ++ grid ++ map of_GLcall (render_points rd))
  end.

(** ** The main loop of the example (src/lidar_example.cpp) *)

(** [struct MouseState]. *)
Record MouseState : Type := mkMouseState {
  leftPressed : bool;
  rightPressed : bool;
  middlePressed : bool;
  lastX : F64.double;
  lastY : F64.double
}.

Definition MouseState_new : MouseState :=
  mkMouseState false false false (S754_zero false) (S754_zero false).

(** What GLFW and Dear ImGui report in one iteration of the loop: the
    capture flag, the cursor position, the two buttons, the wheel, and
    for each widget of the control panel whether it fired (with the value
    it then holds).  A hidden control panel is the input in which no
    widget fires.  [click_generate] carries the result of
    [generateSampleLidarData(numPoints)]. *)
Record FrameInput : Type := mkFrameInput {
  WantCaptureMouse : bool;
  mouseX : F64.double;
  mouseY : F64.double;
  left_down : bool;
  right_down : bool;
  MouseWheel : float;
  slide_pointSize : option float;
  pick_colorMode : option Z;
  check_showGrid : option bool;
  slide_gridSpacing : option float;
  check_showAxisLabels : option bool;
  click_generate : option (list Point3D);
  click_clear : bool;
  click_reset : bool;
  click_top : bool;
  click_front : bool;
  click_side : bool;
  click_isometric : bool
}.

(** The variables of [main] that the loop changes and that reach the
    renderer. *)
Record App : Type := mkApp {
  renderer : PointCloudRenderer;
  mouse : MouseState;
  app_points : list Point3D
}.

(** [main] up to the loop, for the cloud first generated. *)
Definition App_init (generated : list Point3D) : App :=
  mkApp (setPointCloud PointCloudRenderer_new generated) MouseState_new
    generated.

(** The block under [if (!io.WantCaptureMouse)]. *)
Definition handle_mouse (lm : libm) (inp : FrameInput) (c : Camera)
    (ms : MouseState) : Camera * MouseState :=
  if WantCaptureMouse inp then (c, ms)
  else
    let dx := F64.to_float (F64.sub (mouseX inp) (lastX ms)) in
    let dy := F64.to_float (F64.sub (mouseY inp) (lastY ms)) in
    let c1 :=
      if left_down inp && leftPressed ms
      then orbit c (dx * f0_5)%f32 (- dy * f0_5)%f32
      else c in
    let c2 :=
      if right_down inp && rightPressed ms then pan lm c1 dx dy else c1 in
    (c2,
     mkMouseState (left_down inp) (right_down inp) (middlePressed ms)
       (mouseX inp) (mouseY inp)).

(** [if (!io.WantCaptureMouse && io.MouseWheel != 0)]. *)
Definition handle_wheel (inp : FrameInput) (c : Camera) : Camera :=
  if negb (WantCaptureMouse inp) && negb (MouseWheel inp =? f0)%f32
  then zoom c (MouseWheel inp)
  else c.

Definition when {A : Type} (fired : bool) (f : A -> A) (a : A) : A :=
  if fired then f a else a.

Definition with_value {A V : Type} (fired : option V) (f : A -> V -> A)
    (a : A) : A :=
  match fired with
  | Some v => f a v
  | None => a
  end.

Definition on_camera (f : Camera -> Camera) (rd : PointCloudRenderer)
    : PointCloudRenderer :=
  set_camera rd (f (camera rd)).

(** The widgets of the control panel, in the order of the source. *)
Definition control_panel (inp : FrameInput) (rd : PointCloudRenderer)
    (pts : list Point3D) : PointCloudRenderer * list Point3D :=
  let rd := with_value (slide_pointSize inp) setPointSize rd in
  let rd := with_value (pick_colorMode inp) setColorMode rd in
  let showGrid_local :=
    match check_showGrid inp with
    | Some v => v
    | None => showGrid rd
    end in
  let rd := with_value (check_showGrid inp) setShowGrid rd in
  let rd :=
    if showGrid_local then
      let rd := with_value (slide_gridSpacing inp) setGridSpacing rd in
      with_value (check_showAxisLabels inp) setShowAxisLabels rd
    else rd in
  let pts :=
    match click_generate inp with
    | Some generated => generated
    | None => pts
    end in
  let rd := with_value (click_generate inp) setPointCloud rd in
  let rd := when (click_clear inp) clearPointCloud rd in
  let rd := when (click_reset inp) (fun rd => reset_camera_button rd pts) rd in
  let rd := when (click_top inp) (on_camera setTopView) rd in
  let rd := when (click_front inp) (on_camera setFrontView) rd in
  let rd := when (click_side inp) (on_camera setSideView) rd in
  let rd := when (click_isometric inp) (on_camera setIsometricView) rd in
  (rd, pts).

(** One iteration of the loop, up to the drawing. *)
Definition frame (lm : libm) (st : App) (inp : FrameInput) : App :=
  let '(c, ms) := handle_mouse lm inp (camera (renderer st)) (mouse st) in
  let c := handle_wheel inp c in
  let '(rd, pts) :=
    control_panel inp (set_camera (renderer st) c) (app_points st) in
  mkApp rd ms pts.

(** The application after a run of iterations. *)
Definition run (lm : libm) (generated : list Point3D)
    (inputs : list FrameInput) : App :=
  fold_left (frame lm) inputs (App_init generated).

(** The cursor position reported is a number. *)
Definition cursor_is_number (inp : FrameInput) : Prop :=
  is_nan (mouseX inp) = false /\ is_inf (mouseX inp) = false
  /\ is_nan (mouseY inp) = false /\ is_inf (mouseY inp) = false.

(** The input of an iteration in which nothing happens in the control
    panel. *)
Definition panel_idle (inp : FrameInput) : Prop :=
  slide_pointSize inp = None /\ pick_colorMode inp = None
  /\ check_showGrid inp = None /\ slide_gridSpacing inp = None
  /\ check_showAxisLabels inp = None /\ click_generate inp = None
  /\ click_clear inp = false /\ click_reset inp = false
  /\ click_top inp = false /\ click_front inp = false
  /\ click_side inp = false /\ click_isometric inp = false.

(** Two boxes whose six bounds denote the same values. *)
Definition same_box (b1 b2 : float * float * float * float * float * float)
    : Prop :=
  let '(a1, a2, a3, a4, a5, a6) := b1 in
  let '(c1, c2, c3, c4, c5, c6) := b2 in
  same_value a1 c1 /\ same_value a2 c2 /\ same_value a3 c3
  /\ same_value a4 c4 /\ same_value a5 c5 /\ same_value a6 c6.

(** The coordinates that are numbers. *)
Definition numbers (vs : list float) : list float :=
  filter (fun v => negb (is_nan v)) vs.

(** The value of a finite datum, counted in units of [2^-200]: an
    integer, since no exponent that the arithmetic here meets is below
    -200 (the least is -173, in the product of a subnormal with
    [0.5f]).  Zero for the zeros, and for what is not finite. *)
Definition units (v : float) : Z :=
  match v with
  | S754_finite s m e => cond_Zopp s (Zpos m * 2 ^ (e + 200))
  | _ => 0
  end.

(** A value that a binary32 mantissa can take at some exponent from
    -149 up, in the same units. *)
Definition representable (V : Z) : Prop :=
  exists (s : bool) (mf ef : Z),
    0 <= mf < 2 ^ 24 /\ -149 <= ef
    /\ V = cond_Zopp s (mf * 2 ^ (ef + 200)).

(** ** Sample data *)

(** A renderer holding two opposite corners of a 2 x 1 x 1 box. *)
Definition box_renderer : PointCloudRenderer :=
  setPointCloud PointCloudRenderer_new (box_corners 2 1 1).

(** An OpenGL state at the start of a frame: capabilities off, red
    current. *)
Definition GL_start : GL.state :=
  GL.mkState false false false f1 f1 (f1, f0, f0, f1) GL.MODELVIEW None.

(** A [libm] that answers 0.707, cosine and sine of 45 degrees. *)
Definition libm_sample : libm :=
  mkLibm (fun _ => lit 707 1000) (fun _ => lit 707 1000).

(** A [cmath] whose functions answer 0.707 in [double], with no [float]
    overloads. *)
Definition cmath_sample : cmath :=
  mkCmath (fun _ => F64.of_float (lit 707 1000))
    (fun _ => F64.of_float (lit 707 1000))
    (fun _ => F64.of_float (lit 707 1000)) false.

(** An iteration with the cursor at [(mx, my)], the given buttons and
    wheel, and nothing fired in the panel. *)
Definition mouse_input (captured : bool) (mx my : Z) (left right : bool)
    (wheel : float) : FrameInput :=
  mkFrameInput captured (F64.of_Z mx) (F64.of_Z my) left right wheel
    None None None None None None false false false false false false.

(** An iteration in which only "Clear Point Cloud" is clicked, and one in
    which only "Reset Camera" is. *)
Definition clear_click : FrameInput :=
  mkFrameInput true (F64.of_Z 0) (F64.of_Z 0) false false f0
    None None None None None None true false false false false false.

Definition reset_click : FrameInput :=
  mkFrameInput true (F64.of_Z 0) (F64.of_Z 0) false false f0
    None None None None None None false true false false false false.

(** The literal [0.1f] is the binary32 datum [0x3DCCCCCD]. *)
Example lit_0_1 : f0_1 = S754_finite false 13421773 (-27).
Proof. reflexivity. Qed.

(** ** Order facts for binary32 comparison *)

Lemma compare_cont_Eq (m1 m2 : positive) :
  Pos.compare_cont Eq m1 m2 = Pos.compare m1 m2.
Proof. reflexivity. Qed.

Lemma SFcompare_swap (a c : float) :
  SFcompare c a = option_map CompOpp (SFcompare a c).
Proof.
  destruct a as [sa|sa| |sa ma ea], c as [sc|sc| |sc mc ec];
    try destruct sa; try destruct sc; simpl; try reflexivity;
    rewrite !compare_cont_Eq, (Z.compare_antisym ea ec),
      (Pos.compare_antisym ma mc);
    destruct (ea ?= ec); simpl; try reflexivity;
    destruct (ma ?= mc)%positive; reflexivity.
Qed.

Lemma ltb_false_leb (a c : float) :
  is_nan a = false -> is_nan c = false -> ltb a c = false -> leb c a = true.
Proof.
  unfold ltb, leb, SFltb, SFleb. intros Ha Hc H.
  rewrite (SFcompare_swap a c).
  destruct (SFcompare a c) as [[ | | ]|] eqn:E; simpl; try reflexivity;
    try discriminate.
  destruct a, c; simpl in *; discriminate.
Qed.

Lemma ltb_leb (a c : float) : ltb a c = true -> leb a c = true.
Proof.
  unfold ltb, leb, SFltb, SFleb.
  destruct (SFcompare a c) as [[ | | ]|]; intros; congruence.
Qed.

Lemma ltb_not_nan (a c : float) :
  ltb a c = true -> is_nan a = false /\ is_nan c = false.
Proof.
  unfold ltb, SFltb; destruct a, c; simpl; intros H; split;
    try reflexivity; discriminate H.
Qed.

Lemma leb_not_nan (a c : float) :
  leb a c = true -> is_nan a = false /\ is_nan c = false.
Proof.
  unfold leb, SFleb; destruct a, c; simpl; intros H; split;
    try reflexivity; discriminate H.
Qed.

Lemma leb_refl (a : float) : is_nan a = false -> leb a a = true.
Proof.
  destruct a as [s|s| |s m e]; try destruct s; simpl; try congruence;
    intros _; unfold leb, SFleb; simpl; try reflexivity;
    rewrite Z.compare_refl, compare_cont_Eq, Pos.compare_refl; reflexivity.
Qed.

Ltac order_cases :=
  repeat match goal with
  | H : context [Pos.compare_cont Eq ?m ?n] |- _ =>
      rewrite (compare_cont_Eq m n) in H
  | |- context [Pos.compare_cont Eq ?m ?n] => rewrite (compare_cont_Eq m n)
  end;
  repeat match goal with
  | H : context [Z.compare ?u ?v] |- _ =>
      destruct (Z.compare_spec u v); simpl in H; try discriminate H
  | |- context [Z.compare ?u ?v] =>
      destruct (Z.compare_spec u v); simpl
  | H : context [Pos.compare ?u ?v] |- _ =>
      destruct (Pos.compare_spec u v); simpl in H; try discriminate H
  | |- context [Pos.compare ?u ?v] =>
      destruct (Pos.compare_spec u v); simpl
  end;
  try reflexivity; try lia.

Lemma leb_trans (a c d : float) :
  leb a c = true -> leb c d = true -> leb a d = true.
Proof.
  unfold leb, SFleb.
  destruct a as [sa|sa| |sa ma ea], c as [sc|sc| |sc mc ec],
    d as [sd|sd| |sd md ed];
    try destruct sa; try destruct sc; try destruct sd; simpl;
    try congruence; intros H1 H2; order_cases.
Qed.

Lemma ltb_leb_trans (a c d : float) :
  ltb a c = true -> leb c d = true -> ltb a d = true.
Proof.
  unfold ltb, leb, SFltb, SFleb.
  destruct a as [sa|sa| |sa ma ea], c as [sc|sc| |sc mc ec],
    d as [sd|sd| |sd md ed];
    try destruct sa; try destruct sc; try destruct sd; simpl;
    try congruence; intros H1 H2; order_cases.
Qed.

Lemma leb_ltb_false (a c : float) : leb a c = true -> ltb c a = false.
Proof.
  unfold ltb, leb, SFltb, SFleb. rewrite (SFcompare_swap a c).
  destruct (SFcompare a c) as [[ | | ]|]; simpl; congruence.
Qed.

(** Two floats that compare equal are the same datum or two zeros. *)
Lemma leb_antisym (a c : float) :
  leb a c = true -> leb c a = true -> same_value a c.
Proof.
  unfold leb, SFleb, same_value.
  destruct a as [sa|sa| |sa ma ea], c as [sc|sc| |sc mc ec];
    try destruct sa; try destruct sc; simpl; try congruence;
    intros H1 H2; auto; left; order_cases; subst; try reflexivity; try lia.
Qed.

(** ** Where binary32 arithmetic cannot produce NaN *)

Lemma shr_1_nonneg (mrs : shr_record) :
  0 <= shr_m mrs -> 0 <= shr_m (shr_1 mrs).
Proof.
  destruct mrs as [m rb sb]; simpl.
  destruct m as [|p|p]; simpl; try lia; destruct p; simpl; lia.
Qed.

Lemma iter_pos_invariant {A : Type} (P : A -> Prop) (f : A -> A) :
  (forall a, P a -> P (f a)) ->
  forall n a, P a -> P (iter_pos f n a).
Proof.
  intros Hf. induction n as [n IH|n IH|]; simpl; intros a Ha; auto.
Qed.

Lemma shr_nonneg (mrs : shr_record) (e n : Z) :
  0 <= shr_m mrs -> 0 <= shr_m (fst (shr mrs e n)).
Proof.
  intros H. unfold shr. destruct n as [|p|p]; simpl; auto.
  apply (iter_pos_invariant (fun t => 0 <= shr_m t)); auto.
  apply shr_1_nonneg.
Qed.

Lemma shr_fexp_nonneg (pr em m e : Z) (l : location) :
  0 <= m -> 0 <= shr_m (fst (shr_fexp pr em m e l)).
Proof.
  intros H. unfold shr_fexp. apply shr_nonneg.
  destruct l as [|[ | | ]]; simpl; assumption.
Qed.

Lemma round_nearest_even_nonneg (m : Z) (l : location) :
  0 <= m -> 0 <= round_nearest_even m l.
Proof.
  intros H. destruct l as [|[ | | ]]; simpl; try lia.
  destruct (Z.even m); lia.
Qed.

Lemma binary_round_aux_not_nan (pr em : Z) (sx : bool) (mx ex : Z)
    (lx : location) :
  0 <= mx -> is_nan (binary_round_aux pr em sx mx ex lx) = false.
Proof.
  intros H. unfold binary_round_aux.
  pose proof (shr_fexp_nonneg pr em mx ex lx H) as H1.
  destruct (shr_fexp pr em mx ex lx) as [mrs1 e1]; simpl in H1.
  pose proof (shr_fexp_nonneg pr em
    (round_nearest_even (shr_m mrs1) (loc_of_shr_record mrs1)) e1 loc_Exact
    (round_nearest_even_nonneg _ _ H1)) as H2.
  destruct (shr_fexp pr em _ e1 loc_Exact) as [mrs2 e2]; simpl in H2.
  destruct (shr_m mrs2) as [|p|p]; try reflexivity.
  - destruct (e2 <=? em - pr); reflexivity.
  - lia.
Qed.

Lemma binary_normalize_not_nan (pr em m e : Z) (sz : bool) :
  is_nan (binary_normalize pr em m e sz) = false.
Proof.
  unfold binary_normalize, binary_round.
  destruct m as [|p|p]; try reflexivity;
    destruct (shl_align _ _ _) as [mz ez];
    apply binary_round_aux_not_nan; lia.
Qed.

Lemma mul_not_nan (a c : float) :
  is_nan a = false -> is_nan c = false ->
  is_zero a && is_inf c = false -> is_inf a && is_zero c = false ->
  is_nan (a * c)%f32 = false.
Proof.
  destruct a as [sa|sa| |sa ma ea], c as [sc|sc| |sc mc ec]; simpl;
    try congruence; intros _ _ _ _.
  apply binary_round_aux_not_nan. lia.
Qed.

Lemma add_not_nan (a c : float) :
  is_nan a = false -> is_nan c = false ->
  is_inf a && is_inf c = false ->
  is_nan (a + c)%f32 = false.
Proof.
  destruct a as [sa|sa| |sa ma ea], c as [sc|sc| |sc mc ec]; simpl;
    try congruence; intros _ _ _.
  - destruct sa, sc; reflexivity.
  - apply binary_normalize_not_nan.
Qed.

Lemma sub_not_nan (a c : float) :
  is_nan a = false -> is_nan c = false ->
  is_inf a && is_inf c = false ->
  is_nan (a - c)%f32 = false.
Proof.
  destruct a as [sa|sa| |sa ma ea], c as [sc|sc| |sc mc ec]; simpl;
    try congruence; intros _ _ _.
  - destruct sa, sc; reflexivity.
  - apply binary_normalize_not_nan.
Qed.

(** ** Clamping *)

Lemma clamp_low_high (lo hi v : float) :
  is_nan v = false -> leb lo hi = true ->
  let v2 := if (v <? lo)%f32 then lo else v in
  let v3 := if (v2 >? hi)%f32 then hi else v2 in
  leb lo v3 = true /\ leb v3 hi = true.
Proof.
  intros Hv Hlh. destruct (leb_not_nan _ _ Hlh) as [Hlo Hhi].
  cbv zeta. destruct (v <? lo)%f32 eqn:E1.
  - unfold gtb. rewrite (leb_ltb_false _ _ Hlh).
    split; [apply leb_refl|]; assumption.
  - destruct (v >? hi)%f32 eqn:E2.
    + split; [assumption | apply leb_refl; assumption].
    + split; apply ltb_false_leb; assumption.
Qed.

Lemma clamp_high_low (lo hi v : float) :
  is_nan v = false -> leb lo hi = true ->
  let v2 := if (v >? hi)%f32 then hi else v in
  let v3 := if (v2 <? lo)%f32 then lo else v2 in
  leb lo v3 = true /\ leb v3 hi = true.
Proof.
  intros Hv Hlh. destruct (leb_not_nan _ _ Hlh) as [Hlo Hhi].
  cbv zeta. destruct (v >? hi)%f32 eqn:E1.
  - rewrite (leb_ltb_false _ _ Hlh).
    split; [|apply leb_refl]; assumption.
  - destruct (v <? lo)%f32 eqn:E2.
    + split; [apply leb_refl; assumption | assumption].
    + split; apply ltb_false_leb; assumption.
Qed.

(** ** Camera: zoom *)

Lemma zoom_distance_clamp (c : Camera) (delta : float) :
  distance (zoom c delta)
  = clamp f0_1 f1000 (distance c * (f1 - delta * f0_1))%f32.
Proof.
  unfold zoom, clamp; cbn [distance].
  destruct (_ <? f0_1)%f32; reflexivity.
Qed.

Lemma zoom_in_range_of_number (c : Camera) (delta : float) :
  is_nan (distance c * (f1 - delta * f0_1))%f32 = false ->
  distance_in_range (distance (zoom c delta)).
Proof.
  intros H. unfold zoom, distance_in_range; cbn [distance].
  apply clamp_low_high; [assumption | reflexivity].
Qed.

Lemma distance_in_range_shape (d : float) :
  distance_in_range d ->
  is_nan d = false /\ is_inf d = false /\ is_zero d = false.
Proof.
  intros [H1 H2]. destruct d as [s|s| |s m e]; try destruct s;
    try discriminate H1; try discriminate H2; repeat split.
Qed.

Lemma zoom_scaled_is_number (d delta : float) :
  distance_in_range d -> is_nan delta = false ->
  is_nan (d * (f1 - delta * f0_1))%f32 = false.
Proof.
  intros Hd Hn. destruct (distance_in_range_shape d Hd) as (Dn & Di & Dz).
  apply mul_not_nan; try assumption.
  - apply sub_not_nan; try reflexivity.
    apply mul_not_nan; try assumption; try reflexivity.
    + rewrite andb_false_r; reflexivity.
    + rewrite andb_false_r; reflexivity.
  - rewrite Dz; reflexivity.
  - rewrite Di; reflexivity.
Qed.

Lemma zoom_in_range (c : Camera) (delta : float) :
  distance_in_range (distance c) -> is_nan delta = false ->
  distance_in_range (distance (zoom c delta)).
Proof.
  intros Hd Hn. apply zoom_in_range_of_number, zoom_scaled_is_number; assumption.
Qed.

Lemma zooms_in_range (deltas : list float) :
  forall c : Camera,
  distance_in_range (distance c) ->
  Forall (fun delta => is_nan delta = false) deltas ->
  distance_in_range (distance (zooms c deltas)).
Proof.
  unfold zooms. induction deltas as [|delta rest IH]; simpl; intros c Hd Hall.
  - assumption.
  - inversion Hall as [|? ? Hdelta Hrest]; subst.
    apply IH; [apply zoom_in_range|]; assumption.
Qed.

(** ** Camera: orbit *)

Lemma same_value_refl (a : float) : same_value a a.
Proof. left; reflexivity. Qed.

Lemma same_value_trans (a c d : float) :
  same_value a c -> same_value c d -> same_value a d.
Proof.
  intros [->|[Ha Hc]] [->|[Hc' Hd]]; unfold same_value; auto.
Qed.

Lemma add_zero_same (a : float) : same_value (a + f0)%f32 a.
Proof.
  destruct a as [s|s| |s m e]; try destruct s; simpl;
    try (left; reflexivity).
  right; split; reflexivity.
Qed.

Lemma same_value_pitch_in_range (a c : float) :
  same_value a c -> pitch_in_range c -> pitch_in_range a.
Proof.
  intros [->|[Ha Hc]] H; [assumption|].
  destruct a as [s| | | ]; try discriminate Ha. destruct s; split; reflexivity.
Qed.

Lemma pitch_in_range_shape (p : float) :
  pitch_in_range p -> is_nan p = false /\ is_inf p = false.
Proof.
  intros [H1 H2]. destruct p as [s|s| |s m e]; try destruct s;
    try discriminate H1; try discriminate H2; repeat split.
Qed.

Lemma orbit_zero_same (c : Camera) :
  pitch_in_range (pitch c) ->
  same_value (yaw (orbit c f0 f0)) (yaw c)
  /\ same_value (pitch (orbit c f0 f0)) (pitch c)
  /\ pitch_in_range (pitch (orbit c f0 f0)).
Proof.
  intros Hp. unfold orbit; cbn [yaw pitch].
  pose proof (add_zero_same (pitch c)) as Hs.
  pose proof (same_value_pitch_in_range _ _ Hs Hp) as [Hlo Hhi].
  split; [apply add_zero_same|].
  unfold gtb. rewrite (leb_ltb_false _ _ Hhi), (leb_ltb_false _ _ Hlo).
  split; [assumption | split; assumption].
Qed.

Lemma orbit_zero_iterate (n : nat) :
  forall c : Camera,
  pitch_in_range (pitch c) ->
  same_value (yaw (iterate n (fun k => orbit k f0 f0) c)) (yaw c)
  /\ same_value (pitch (iterate n (fun k => orbit k f0 f0) c)) (pitch c)
  /\ pitch_in_range (pitch (iterate n (fun k => orbit k f0 f0) c)).
Proof.
  induction n as [|n IH]; simpl; intros c Hp.
  - repeat split; try apply same_value_refl; apply Hp.
  - destruct (orbit_zero_same c Hp) as (Hy & Hq & Hr).
    destruct (IH _ Hr) as (IHy & IHq & IHr).
    repeat split; try apply IHr;
      eapply same_value_trans; eassumption.
Qed.

Lemma orbit_pitch_in_range (c : Camera) (deltaYaw deltaPitch : float) :
  pitch_in_range (pitch c) -> is_nan deltaPitch = false ->
  pitch_in_range (pitch (orbit c deltaYaw deltaPitch)).
Proof.
  intros Hp Hn. destruct (pitch_in_range_shape _ Hp) as [Pn Pi].
  unfold orbit, pitch_in_range; cbn [pitch].
  apply clamp_high_low; [|reflexivity].
  apply add_not_nan; try assumption. rewrite Pi; reflexivity.
Qed.

Lemma orbits_pitch_in_range (deltas : list (float * float)) :
  forall c : Camera,
  pitch_in_range (pitch c) ->
  Forall (fun d => is_nan (snd d) = false) deltas ->
  pitch_in_range (pitch (orbits c deltas)).
Proof.
  unfold orbits. induction deltas as [|d rest IH]; simpl; intros c Hp Hall.
  - assumption.
  - inversion Hall as [|? ? Hd Hrest]; subst.
    apply IH; [apply orbit_pitch_in_range|]; assumption.
Qed.

(** ** Least and greatest element of a sequence of floats *)

Lemma std_min_not_nan (a v : float) :
  is_nan a = false -> is_nan (std_min a v) = false.
Proof.
  intros Ha. unfold std_min. destruct (v <? a)%f32 eqn:E; [|assumption].
  apply (ltb_not_nan _ _ E).
Qed.

Lemma std_max_not_nan (a v : float) :
  is_nan a = false -> is_nan (std_max a v) = false.
Proof.
  intros Ha. unfold std_max. destruct (a <? v)%f32 eqn:E; [|assumption].
  apply (ltb_not_nan _ _ E).
Qed.

Lemma std_min_le_l (a v : float) :
  is_nan a = false -> leb (std_min a v) a = true.
Proof.
  intros Ha. unfold std_min. destruct (v <? a)%f32 eqn:E.
  - apply ltb_leb; assumption.
  - apply leb_refl; assumption.
Qed.

Lemma std_min_le_r (a v : float) :
  is_nan a = false -> is_nan v = false -> leb (std_min a v) v = true.
Proof.
  intros Ha Hv. unfold std_min. destruct (v <? a)%f32 eqn:E.
  - apply leb_refl; assumption.
  - apply ltb_false_leb; assumption.
Qed.

Lemma std_max_ge_l (a v : float) :
  is_nan a = false -> leb a (std_max a v) = true.
Proof.
  intros Ha. unfold std_max. destruct (a <? v)%f32 eqn:E.
  - apply ltb_leb; assumption.
  - apply leb_refl; assumption.
Qed.

Lemma std_max_ge_r (a v : float) :
  is_nan a = false -> is_nan v = false -> leb v (std_max a v) = true.
Proof.
  intros Ha Hv. unfold std_max. destruct (a <? v)%f32 eqn:E.
  - apply leb_refl; assumption.
  - apply ltb_false_leb; assumption.
Qed.

Section Folds.

Variable init : float.
Hypothesis init_number : is_nan init = false.

Lemma fold_min_not_nan (vs : list float) :
  is_nan (fold_left std_min vs init) = false.
Proof.
  revert init init_number.
  induction vs as [|v vs IH]; simpl; intros i Hi; [assumption|].
  apply IH, std_min_not_nan, Hi.
Qed.

Lemma fold_max_not_nan (vs : list float) :
  is_nan (fold_left std_max vs init) = false.
Proof.
  revert init init_number.
  induction vs as [|v vs IH]; simpl; intros i Hi; [assumption|].
  apply IH, std_max_not_nan, Hi.
Qed.

Lemma fold_min_le_init (vs : list float) :
  leb (fold_left std_min vs init) init = true.
Proof.
  revert init init_number.
  induction vs as [|v vs IH]; simpl; intros i Hi.
  - apply leb_refl, Hi.
  - eapply leb_trans; [apply IH, std_min_not_nan, Hi|].
    apply std_min_le_l, Hi.
Qed.

Lemma fold_max_ge_init (vs : list float) :
  leb init (fold_left std_max vs init) = true.
Proof.
  revert init init_number.
  induction vs as [|v vs IH]; simpl; intros i Hi.
  - apply leb_refl, Hi.
  - eapply leb_trans; [|apply IH, std_max_not_nan, Hi].
    apply std_max_ge_l, Hi.
Qed.

End Folds.

Lemma fold_min_le (vs : list float) :
  forall init v, is_nan init = false -> In v vs -> is_nan v = false ->
  leb (fold_left std_min vs init) v = true.
Proof.
  induction vs as [|w vs IH]; simpl; intros i v Hi Hin Hv; [contradiction|].
  destruct Hin as [->|Hin].
  - eapply leb_trans;
      [apply fold_min_le_init, std_min_not_nan, Hi|].
    apply std_min_le_r; assumption.
  - apply IH; try assumption. apply std_min_not_nan, Hi.
Qed.

Lemma fold_max_ge (vs : list float) :
  forall init v, is_nan init = false -> In v vs -> is_nan v = false ->
  leb v (fold_left std_max vs init) = true.
Proof.
  induction vs as [|w vs IH]; simpl; intros i v Hi Hin Hv; [contradiction|].
  destruct Hin as [->|Hin].
  - eapply leb_trans;
      [|apply fold_max_ge_init, std_max_not_nan, Hi].
    apply std_max_ge_r; assumption.
  - apply IH; try assumption. apply std_max_not_nan, Hi.
Qed.

Lemma fold_min_choice (vs : list float) :
  forall init, fold_left std_min vs init = init
               \/ In (fold_left std_min vs init) vs.
Proof.
  induction vs as [|w vs IH]; simpl; intros i; [left; reflexivity|].
  destruct (IH (std_min i w)) as [E|Hin]; [|right; right; assumption].
  rewrite E. unfold std_min. destruct (w <? i)%f32; auto.
Qed.

Lemma fold_max_choice (vs : list float) :
  forall init, fold_left std_max vs init = init
               \/ In (fold_left std_max vs init) vs.
Proof.
  induction vs as [|w vs IH]; simpl; intros i; [left; reflexivity|].
  destruct (IH (std_max i w)) as [E|Hin]; [|right; right; assumption].
  rewrite E. unfold std_max. destruct (i <? w)%f32; auto.
Qed.

(** ** Finite binary32 data lie between [lowest()] and [max()] *)

Lemma digits2_pos_bound (m : positive) :
  Zpos m < 2 ^ Zpos (digits2_pos m).
Proof.
  induction m as [m IH|m IH|]; simpl digits2_pos;
    try rewrite Pos2Z.inj_succ, Z.pow_succ_r by lia; lia.
Qed.

Lemma bounded_mantissa (m : positive) (e : Z) :
  bounded prec emax m e = true -> Zpos m <= 16777215 /\ e <= 104.
Proof.
  unfold bounded, canonical_mantissa, fexp, emin, prec, emax.
  intros H. apply andb_true_iff in H. destruct H as [H1 H2].
  apply Z.eqb_eq in H1. apply Z.leb_le in H2.
  split; [|lia].
  assert (Hd : Zpos (digits2_pos m) <= 24) by lia.
  pose proof (digits2_pos_bound m) as Hm.
  assert (2 ^ Zpos (digits2_pos m) <= 2 ^ 24)
    by (apply Z.pow_le_mono_r; lia).
  change (2 ^ 24) with 16777216 in *. lia.
Qed.

Lemma FLT_MAX_value : FLT_MAX = S754_finite false 16777215 104.
Proof. reflexivity. Qed.

Lemma finite_le_max (v : float) :
  is_finite v = true -> leb v FLT_MAX = true /\ leb FLT_LOWEST v = true.
Proof.
  unfold FLT_LOWEST. rewrite FLT_MAX_value.
  destruct v as [s|s| |s m e]; cbn [is_finite]; try discriminate.
  - intros _. destruct s; split; reflexivity.
  - intros H. apply bounded_mantissa in H. destruct H as [Hm He].
    unfold leb, SFleb, neg, SFopp, SFcompare, negb.
    destruct s; split; try reflexivity; order_cases.
Qed.

Lemma is_finite_not_nan (v : float) : is_finite v = true -> is_nan v = false.
Proof. destruct v; simpl; congruence. Qed.

Lemma same_value_nonzero (a c : float) :
  same_value a c -> is_zero c = false -> a = c.
Proof. intros [E|[_ Hc]] H; [assumption | congruence]. Qed.

(** Over a non-empty sequence of finite data the fold from [max()] ends
    on one of the data, and so does the fold from [lowest()]. *)
Lemma seq_min_attained (vs : list float) :
  vs <> [] -> Forall (fun v => is_finite v = true) vs -> In (seq_min vs) vs.
Proof.
  intros Hne Hall. unfold seq_min.
  destruct (fold_min_choice vs FLT_MAX) as [E|Hin]; [|assumption].
  destruct vs as [|w vs]; [contradiction|].
  pose proof (Forall_inv Hall) as Hw. simpl in Hw.
  pose proof (fold_min_le (w :: vs) FLT_MAX w eq_refl (or_introl eq_refl)
                (is_finite_not_nan _ Hw)) as Hle.
  rewrite E in *.
  destruct (finite_le_max w Hw) as [Hmax _].
  pose proof (same_value_nonzero _ _ (leb_antisym _ _ Hmax Hle) eq_refl) as Ew.
  rewrite <- Ew. left; reflexivity.
Qed.

Lemma seq_max_attained (vs : list float) :
  vs <> [] -> Forall (fun v => is_finite v = true) vs -> In (seq_max vs) vs.
Proof.
  intros Hne Hall. unfold seq_max.
  destruct (fold_max_choice vs FLT_LOWEST) as [E|Hin]; [|assumption].
  destruct vs as [|w vs]; [contradiction|].
  pose proof (Forall_inv Hall) as Hw. simpl in Hw.
  pose proof (fold_max_ge (w :: vs) FLT_LOWEST w eq_refl (or_introl eq_refl)
                (is_finite_not_nan _ Hw)) as Hle.
  rewrite E in *.
  destruct (finite_le_max w Hw) as [_ Hlow].
  pose proof (same_value_nonzero _ _ (leb_antisym _ _ Hle Hlow) eq_refl) as Ew.
  rewrite <- Ew. left; reflexivity.
Qed.

(** ** A lower bound on the exponent of a rounded result *)

Lemma shr_1_half (mrs : shr_record) :
  0 <= shr_m mrs -> shr_m (shr_1 mrs) = shr_m mrs / 2.
Proof.
  destruct mrs as [m rb sb]; simpl. intros H.
  destruct m as [|p|p]; [reflexivity | | lia].
  rewrite <- Z.div2_div. destruct p; reflexivity.
Qed.

Lemma iter_shr_1_nonneg (n : positive) (mrs : shr_record) :
  0 <= shr_m mrs -> 0 <= shr_m (iter_pos shr_1 n mrs).
Proof.
  apply (iter_pos_invariant (fun t => 0 <= shr_m t)). apply shr_1_nonneg.
Qed.

Lemma iter_shr_1_div (n : positive) :
  forall mrs : shr_record,
  0 <= shr_m mrs ->
  shr_m (iter_pos shr_1 n mrs) = shr_m mrs / 2 ^ Zpos n.
Proof.
  induction n as [n IH|n IH|]; intros mrs H; cbn [iter_pos].
  - rewrite IH by (apply iter_shr_1_nonneg, shr_1_nonneg, H).
    rewrite IH by (apply shr_1_nonneg, H).
    rewrite shr_1_half by assumption.
    rewrite !Z.div_div by lia. f_equal.
    replace (Zpos n~1) with (Zpos n + Zpos n + 1) by lia.
    rewrite !Z.pow_add_r, Z.pow_1_r by lia. ring.
  - rewrite IH by (apply iter_shr_1_nonneg, H).
    rewrite IH by assumption.
    rewrite !Z.div_div by lia. f_equal.
    replace (Zpos n~0) with (Zpos n + Zpos n) by lia.
    rewrite Z.pow_add_r by lia. reflexivity.
  - rewrite shr_1_half by assumption. reflexivity.
Qed.

Lemma digits2_pos_lower (m : positive) :
  2 ^ (Zpos (digits2_pos m) - 1) <= Zpos m.
Proof.
  induction m as [m IH|m IH|]; simpl digits2_pos;
    try (rewrite Pos2Z.inj_succ;
         replace (Z.succ (Zpos (digits2_pos m)) - 1)
           with (Z.succ (Zpos (digits2_pos m) - 1)) by lia;
         rewrite Z.pow_succ_r by lia; lia).
  simpl. lia.
Qed.

Lemma shr_fexp_positive (m : positive) (e : Z) (l : location) :
  let n := fexp prec emax (Zpos (digits2_pos m) + e) - e in
  snd (shr_fexp prec emax (Zpos m) e l) = (if 0 <? n then e + n else e)
  /\ shr_m (fst (shr_fexp prec emax (Zpos m) e l))
     = (if 0 <? n then Zpos m / 2 ^ n else Zpos m).
Proof.
  cbv zeta. unfold shr_fexp. cbn [Zdigits2].
  assert (Hm : shr_m (shr_record_of_loc (Zpos m) l) = Zpos m)
    by (destruct l as [|[ | | ]]; reflexivity).
  destruct (fexp prec emax (Zpos (digits2_pos m) + e) - e) as [|q|q];
    cbn [shr fst snd Z.ltb Z.compare]; try (split; [reflexivity | exact Hm]).
  split; [reflexivity|]. rewrite iter_shr_1_div by (rewrite Hm; lia).
  rewrite Hm. reflexivity.
Qed.

(** Shifting a positive mantissa down to 24 digits leaves at least
    [2^23]. *)
Lemma shifted_mantissa_lower (m : positive) (n : Z) :
  n = Zpos (digits2_pos m) - 24 -> 0 < n ->
  8388608 <= Zpos m / 2 ^ n.
Proof.
  intros -> Hn. apply Z.div_le_lower_bound; [apply Z.pow_pos_nonneg; lia|].
  pose proof (digits2_pos_lower m) as Hl.
  replace (Zpos (digits2_pos m) - 1)
    with ((Zpos (digits2_pos m) - 24) + 23) in Hl by lia.
  rewrite Z.pow_add_r in Hl by lia. change (2 ^ 23) with 8388608 in Hl. lia.
Qed.

Lemma round_nearest_even_bounds (m : Z) (l : location) :
  m <= round_nearest_even m l <= m + 1.
Proof.
  destruct l as [|[ | | ]]; simpl; try lia. destruct (Z.even m); lia.
Qed.

(** A positive quantity not below [2^(elow + 23)] rounds to a positive
    binary32 datum whose exponent is at least [elow], or to [+inf]. *)
Lemma binary_round_aux_floor (m : positive) (ex elow : Z) (lx : location) :
  -149 < elow -> 2 ^ (elow + 23 - ex) <= Zpos m ->
  match binary_round_aux prec emax false (Zpos m) ex lx with
  | S754_infinity false => True
  | S754_finite false _ e2 => elow <= e2
  | _ => False
  end.
Proof.
  intros Hlow Hm. unfold binary_round_aux.
  destruct (shr_fexp_positive m ex lx) as [He1 Hm1]. cbv zeta in He1, Hm1.
  destruct (shr_fexp prec emax (Zpos m) ex lx) as [mrs1 e1].
  cbn [fst snd] in He1, Hm1.
  set (d := Zpos (digits2_pos m)) in *.
  assert (Hd : elow <= d + ex - 24).
  { pose proof (digits2_pos_bound m) as Hu. fold d in Hu.
    destruct (Z.lt_ge_cases (elow + 23 - ex) d) as [|Hge]; [lia|].
    assert (2 ^ d <= 2 ^ (elow + 23 - ex))
      by (apply Z.pow_le_mono_r; lia).
    lia. }
  assert (Hf : fexp prec emax (d + ex) = d + ex - 24)
    by (unfold fexp, emin, prec, emax; lia).
  rewrite Hf in He1, Hm1.
  assert (H1 : elow <= e1 /\ 0 < shr_m mrs1).
  { destruct (Z.ltb_spec 0 (d + ex - 24 - ex)) as [Hn|Hn].
    - split; [lia|]. rewrite Hm1.
      pose proof (shifted_mantissa_lower m (d + ex - 24 - ex)) as Hs.
      unfold d in *. lia.
    - split; [lia|]. rewrite Hm1. lia. }
  destruct H1 as [Hle1 Hpos1].
  pose proof (round_nearest_even_bounds (shr_m mrs1)
                (loc_of_shr_record mrs1)) as Hr.
  destruct (round_nearest_even (shr_m mrs1) (loc_of_shr_record mrs1))
    as [|m1|m1]; try lia.
  destruct (shr_fexp_positive m1 e1 loc_Exact) as [He2 Hm2].
  cbv zeta in He2, Hm2.
  destruct (shr_fexp prec emax (Zpos m1) e1 loc_Exact) as [mrs2 e2].
  cbn [fst snd] in He2, Hm2.
  set (d1 := Zpos (digits2_pos m1)) in *.
  assert (H2 : elow <= e2 /\ 0 < shr_m mrs2).
  { destruct (Z.ltb_spec 0 (fexp prec emax (d1 + e1) - e1)) as [Hn|Hn].
    - assert (Hf1 : fexp prec emax (d1 + e1) = d1 + e1 - 24)
        by (revert Hn; unfold fexp, emin, prec, emax; lia).
      rewrite Hf1 in *. split; [lia|]. rewrite Hm2.
      pose proof (shifted_mantissa_lower m1 (d1 + e1 - 24 - e1)) as Hs.
      unfold d1 in *. lia.
    - split; [lia|]. rewrite Hm2. lia. }
  destruct H2 as [Hle2 Hpos2].
  destruct (shr_m mrs2) as [|m2|m2]; try lia.
  destruct (e2 <=? emax - prec); [assumption | exact I].
Qed.

Lemma iter_xO_pow (m d : positive) :
  Zpos (Pos.iter xO m d) = Zpos m * 2 ^ Zpos d.
Proof.
  induction d as [|d IH] using Pos.peano_ind.
  - simpl. lia.
  - rewrite Pos.iter_succ, Pos2Z.inj_xO, IH, Pos2Z.inj_succ,
      Z.pow_succ_r by lia. ring.
Qed.

Lemma binary_round_floor (q : positive) (e elow : Z) :
  -149 < elow -> 0 <= elow + 23 - e -> 2 ^ (elow + 23 - e) <= Zpos q ->
  match binary_round prec emax false q e with
  | S754_infinity false => True
  | S754_finite false _ e2 => elow <= e2
  | _ => False
  end.
Proof.
  intros Hlow Hnn Hq. unfold binary_round, shl_align.
  destruct (fexp prec emax (Zpos (digits2_pos q) + e) - e) as [|k|k] eqn:Ek;
    try (apply binary_round_aux_floor; assumption).
  apply binary_round_aux_floor; [assumption|].
  rewrite iter_xO_pow.
  replace (elow + 23 - fexp prec emax (Zpos (digits2_pos q) + e))
    with (elow + 23 - e + Zpos k) by lia.
  rewrite Z.pow_add_r by lia.
  apply Z.mul_le_mono_nonneg_r; [apply Z.pow_nonneg; lia | assumption].
Qed.

(** The sum of two finite data, the second positive and of the larger
    exponent. *)
Lemma add_finite_aligned (s : bool) (m m2 : positive) (e e2 : Z) :
  e <= e2 ->
  (S754_finite s m e + S754_finite false m2 e2)%f32
  = binary_normalize prec emax
      (cond_Zopp s (Zpos m) + Zpos m2 * 2 ^ (e2 - e)) e false.
Proof.
  intros He. unfold add, SFadd. rewrite Z.min_l by assumption.
  unfold shl_align. rewrite Z.sub_diag. cbn [fst cond_Zopp].
  destruct (e - e2) as [|k|k] eqn:Ek; try lia.
  - replace (e2 - e) with 0 by lia. rewrite Z.mul_1_r. reflexivity.
  - cbn [fst]. rewrite iter_xO_pow.
    replace (e2 - e) with (Zpos k) by lia. reflexivity.
Qed.

Lemma f89_value : f89 = S754_finite false 11665408 (-17).
Proof. reflexivity. Qed.

Lemma f1000_value : f1000 = S754_finite false 16384000 (-14).
Proof. reflexivity. Qed.

(** A finite datum between -89 and 89 has an exponent of at most -17 and
    a mantissa of at most [89 * 2^17] at that exponent. *)
Lemma pitch_in_range_mantissa (s : bool) (m : positive) (e : Z) :
  bounded prec emax m e = true ->
  pitch_in_range (S754_finite s m e) ->
  e <= -17 /\ Zpos m <= 11665408 * 2 ^ (-17 - e).
Proof.
  intros Hb [Hlo Hhi]. apply bounded_mantissa in Hb. destruct Hb as [Hm _].
  rewrite f89_value in Hlo, Hhi.
  assert (H : e < -17 \/ (e = -17 /\ Zpos m <= 11665408)).
  { unfold leb, SFleb, neg, SFopp, SFcompare, negb in Hlo, Hhi.
    destruct s.
    - clear Hhi.
      rewrite compare_cont_Eq, Pos2Z.inj_compare in Hlo.
      destruct (Z.compare_spec (-17) e) as [E|E|E];
        [|discriminate Hlo | left; lia].
      destruct (Z.compare_spec (Zpos 11665408) (Zpos m)) as [F|F|F];
        [right | discriminate Hlo | right]; lia.
    - clear Hlo.
      rewrite compare_cont_Eq, Pos2Z.inj_compare in Hhi.
      destruct (Z.compare_spec e (-17)) as [E|E|E];
        [|left; lia | discriminate Hhi].
      destruct (Z.compare_spec (Zpos m) (Zpos 11665408)) as [F|F|F];
        [right | right | discriminate Hhi]; lia. }
  destruct H as [H|[-> H]].
  - split; [lia|].
    assert (2 ^ 1 <= 2 ^ (-17 - e)) by (apply Z.pow_le_mono_r; lia).
    change (2 ^ 1) with 2 in *. lia.
  - split; [lia|]. simpl. lia.
Qed.

(** Adding 1000 to a finite pitch between -89 and 89 gives more than
    89. *)
Lemma add_1000_above_89 (p : float) :
  is_finite p = true -> pitch_in_range p -> ltb f89 (p + f1000)%f32 = true.
Proof.
  intros Hf Hp. destruct p as [s|s| |s m e]; try discriminate Hf.
  - destruct s; reflexivity.
  - cbn [is_finite] in Hf.
    destruct (pitch_in_range_mantissa s m e Hf Hp) as [He Hm].
    rewrite f1000_value, add_finite_aligned by lia.
    set (k := -17 - e) in *.
    assert (Hk : 0 <= k) by (unfold k; lia).
    replace (-14 - e) with (k + 3) by (unfold k; lia).
    rewrite Z.pow_add_r by lia. change (2 ^ 3) with 8.
    assert (Hpow : 0 < 2 ^ k) by (apply Z.pow_pos_nonneg; lia).
    assert (Hsum : 16777216 * 2 ^ k
                   <= cond_Zopp s (Zpos m) + 16384000 * (2 ^ k * 8))
      by (destruct s; cbn [cond_Zopp]; lia).
    destruct (cond_Zopp s (Zpos m) + 16384000 * (2 ^ k * 8))
      as [|q|q] eqn:Eq; try lia.
    cbn [binary_normalize].
    pose proof (binary_round_floor q e (-16)) as Hfloor.
    assert (Hq : 2 ^ (-16 + 23 - e) <= Zpos q).
    { replace (-16 + 23 - e) with (24 + k) by (unfold k; lia).
      rewrite Z.pow_add_r by lia. change (2 ^ 24) with 16777216. lia. }
    specialize (Hfloor ltac:(lia) ltac:(lia) Hq).
    rewrite f89_value. unfold ltb, SFltb.
    destruct (binary_round prec emax false q e) as [s2|s2| |s2 m2 e2];
      try contradiction; destruct s2; try contradiction.
    + reflexivity.
    + unfold SFcompare.
      destruct (Z.compare_spec (-17) e2); first [reflexivity | lia].
Qed.

(** ** Subtracting equal values *)

Lemma eqb_same_value (a c : float) :
  eqb a c = true ->
  same_value a c /\ is_nan a = false /\ is_nan c = false.
Proof.
  intros H.
  assert (Hac : leb a c = true).
  { unfold eqb, SFeqb in H. unfold leb, SFleb.
    destruct (SFcompare a c) as [[ | | ]|]; congruence. }
  assert (Hca : leb c a = true).
  { unfold eqb, SFeqb in H. unfold leb, SFleb.
    rewrite (SFcompare_swap a c).
    destruct (SFcompare a c) as [[ | | ]|]; simpl; congruence. }
  split; [apply leb_antisym; assumption | apply (leb_not_nan _ _ Hac)].
Qed.

Lemma sub_self (v : float) :
  is_nan v = false -> is_inf v = false -> (v - v)%f32 = S754_zero false.
Proof.
  destruct v as [s|s| |s m e]; simpl; try discriminate; intros _ _.
  - destruct s; reflexivity.
  - rewrite Z.sub_diag. reflexivity.
Qed.

Lemma sub_same_value (a c : float) :
  same_value a c -> is_zero (a - c)%f32 || is_nan (a - c)%f32 = true.
Proof.
  intros [->|[Ha Hc]].
  - destruct c as [s|s| |s m e]; try destruct s; try reflexivity;
      rewrite sub_self; reflexivity.
  - destruct a as [sa| | | ], c as [sc| | | ]; try discriminate.
    destruct sa, sc; reflexivity.
Qed.

Lemma div_zero_or_nan (a c : float) :
  is_zero a || is_nan a = true -> is_zero c || is_nan c = true ->
  (a / c)%f32 = S754_nan.
Proof.
  destruct a as [sa|sa| |sa ma ea], c as [sc|sc| |sc mc ec];
    simpl; try discriminate; reflexivity.
Qed.

Lemma height_t_degenerate (py mnY mxY : float) :
  eqb py mnY = true -> eqb mxY mnY = true ->
  height_t py mnY mxY = S754_nan.
Proof.
  intros H1 H2. unfold height_t.
  apply div_zero_or_nan; apply sub_same_value.
  - apply (eqb_same_value _ _ H1).
  - apply (eqb_same_value _ _ H2).
Qed.

Lemma eqb_leb (a c : float) : eqb a c = true -> leb a c = true.
Proof.
  unfold eqb, SFeqb, leb, SFleb.
  destruct (SFcompare a c) as [[ | | ]|]; congruence.
Qed.

Lemma leb_antisym_eqb (a c : float) :
  leb a c = true -> leb c a = true -> eqb a c = true.
Proof.
  unfold eqb, SFeqb, leb, SFleb. rewrite (SFcompare_swap a c).
  destruct (SFcompare a c) as [[ | | ]|]; simpl; congruence.
Qed.

Lemma height_t_nan (mnY mxY : float) : height_t S754_nan mnY mxY = S754_nan.
Proof. unfold height_t. destruct mnY; reflexivity. Qed.

(** ** The loop of [calculateBounds] *)

Lemma fold_bounds_step (ps : list Point3D) :
  forall rd : PointCloudRenderer,
  bounds (fold_left bounds_step ps rd)
  = (fold_left std_min (map x ps) (minX rd),
     fold_left std_max (map x ps) (maxX rd),
     fold_left std_min (map y ps) (minY rd),
     fold_left std_max (map y ps) (maxY rd),
     fold_left std_min (map z ps) (minZ rd),
     fold_left std_max (map z ps) (maxZ rd)).
Proof.
  induction ps as [|p ps IH]; intros rd; [reflexivity|].
  simpl fold_left at 1. rewrite IH. reflexivity.
Qed.

Lemma fold_bounds_frame (ps : list Point3D) :
  forall rd : PointCloudRenderer,
  points (fold_left bounds_step ps rd) = points rd
  /\ pointCount (fold_left bounds_step ps rd) = pointCount rd
  /\ camera (fold_left bounds_step ps rd) = camera rd
  /\ colorMode (fold_left bounds_step ps rd) = colorMode rd
  /\ gridSpacing (fold_left bounds_step ps rd) = gridSpacing rd.
Proof.
  induction ps as [|p ps IH]; intros rd; [repeat split|].
  simpl fold_left. destruct (IH (bounds_step rd p)) as (A & B & C & D & E).
  rewrite A, B, C, D, E. repeat split.
Qed.

Lemma calculateBounds_bbox (rd : PointCloudRenderer) :
  bounds (calculateBounds rd) = bbox (points rd).
Proof.
  unfold calculateBounds, bbox.
  destruct (points rd) as [|p ps]; [reflexivity|].
  rewrite fold_bounds_step. reflexivity.
Qed.

Lemma calculateBounds_frame (rd : PointCloudRenderer) :
  points (calculateBounds rd) = points rd
  /\ pointCount (calculateBounds rd) = pointCount rd
  /\ camera (calculateBounds rd) = camera rd
  /\ colorMode (calculateBounds rd) = colorMode rd
  /\ gridSpacing (calculateBounds rd) = gridSpacing rd.
Proof.
  unfold calculateBounds.
  destruct (points rd) as [|p ps] eqn:E;
    [repeat split; first [exact E | reflexivity]|].
  destruct (fold_bounds_frame (p :: ps)
    (set_bounds rd FLT_MAX FLT_LOWEST FLT_MAX FLT_LOWEST FLT_MAX FLT_LOWEST))
    as (A & B & C & D & F).
  rewrite A, B, C, D, F. repeat split; first [exact E | reflexivity].
Qed.

Lemma setPointCloud_points (rd : PointCloudRenderer) (ps : list Point3D) :
  points (setPointCloud rd ps) = ps
  /\ pointCount (setPointCloud rd ps) = length ps.
Proof.
  unfold setPointCloud. cbn [set_camera points pointCount].
  destruct (calculateBounds_frame (set_points rd ps (length ps)))
    as (A & B & _).
  rewrite A, B. split; reflexivity.
Qed.

Lemma setPointCloud_bounds (rd : PointCloudRenderer) (ps : list Point3D) :
  bounds (setPointCloud rd ps) = bbox ps.
Proof.
  unfold setPointCloud.
  change (bounds (set_camera ?a ?c)) with (bounds a).
  rewrite calculateBounds_bbox. reflexivity.
Qed.

Lemma setPointCloud_fresh (rd : PointCloudRenderer) (ps : list Point3D) :
  bounds_fresh (setPointCloud rd ps).
Proof.
  unfold bounds_fresh.
  rewrite calculateBounds_bbox, setPointCloud_bounds.
  rewrite (proj1 (setPointCloud_points rd ps)). reflexivity.
Qed.

Lemma bounds_fields (rd : PointCloudRenderer) (a1 a2 a3 a4 a5 a6 : float) :
  bounds rd = (a1, a2, a3, a4, a5, a6) ->
  minX rd = a1 /\ maxX rd = a2 /\ minY rd = a3 /\ maxY rd = a4
  /\ minZ rd = a5 /\ maxZ rd = a6.
Proof. unfold bounds. intros H. inversion H. repeat split. Qed.

(** The camera that [setPointCloud] leaves, in terms of the new bounds. *)
Lemma setPointCloud_camera (rd : PointCloudRenderer) (ps : list Point3D) :
  let rd' := setPointCloud rd ps in
  targetX (camera rd') = ((minX rd' + maxX rd') * f0_5)%f32
  /\ targetY (camera rd') = ((minY rd' + maxY rd') * f0_5)%f32
  /\ targetZ (camera rd') = ((minZ rd' + maxZ rd') * f0_5)%f32
  /\ distance (camera rd')
     = (std_max3 (maxX rd' - minX rd') (maxY rd' - minY rd')
          (maxZ rd' - minZ rd') * f2)%f32
  /\ yaw (camera rd') = yaw (camera rd)
  /\ pitch (camera rd') = pitch (camera rd)
  /\ fov (camera rd') = fov (camera rd).
Proof.
  cbv zeta. unfold setPointCloud.
  destruct (calculateBounds_frame (set_points rd ps (length ps)))
    as (_ & _ & C & _).
  cbn [set_camera camera minX maxX minY maxY minZ maxZ
       targetX targetY targetZ distance yaw pitch fov].
  rewrite C. repeat split.
Qed.

(** ** The greatest of three *)

Lemma std_max3_choice (a c d : float) :
  std_max3 a c d = a \/ std_max3 a c d = c \/ std_max3 a c d = d.
Proof.
  unfold std_max3. destruct (a <? c)%f32;
    match goal with |- context [(?u <? d)%f32] => destruct (u <? d)%f32 end;
    auto.
Qed.

Lemma std_max3_greatest (a c d : float) :
  is_nan a = false -> is_nan c = false -> is_nan d = false ->
  leb a (std_max3 a c d) = true /\ leb c (std_max3 a c d) = true
  /\ leb d (std_max3 a c d) = true.
Proof.
  intros Ha Hc Hd. unfold std_max3.
  change (if (a <? c)%f32 then c else a) with (std_max a c).
  change (if (std_max a c <? d)%f32 then d else std_max a c)
    with (std_max (std_max a c) d).
  pose proof (std_max_not_nan a c Ha) as Hm.
  repeat split.
  - apply leb_trans with (std_max a c);
      [apply std_max_ge_l, Ha | apply std_max_ge_l, Hm].
  - apply leb_trans with (std_max a c);
      [apply std_max_ge_r; assumption | apply std_max_ge_l, Hm].
  - apply std_max_ge_r; assumption.
Qed.

(** When the Y bounds left by [setPointCloud] coincide, every sample has a
    NaN normalised height. *)
Lemma setPointCloud_flat_height (rd : PointCloudRenderer)
    (ps : list Point3D) (p : Point3D) :
  eqb (maxY (setPointCloud rd ps)) (minY (setPointCloud rd ps)) = true ->
  In p ps ->
  height_t (y p) (minY (setPointCloud rd ps)) (maxY (setPointCloud rd ps))
  = S754_nan.
Proof.
  intros Hflat Hin.
  pose proof (setPointCloud_bounds rd ps) as Hb.
  unfold bbox in Hb. destruct ps as [|q qs]; [destruct Hin|].
  apply bounds_fields in Hb. destruct Hb as (_ & _ & Emin & Emax & _).
  destruct (is_nan (y p)) eqn:Hn.
  - destruct (y p); try discriminate Hn. apply height_t_nan.
  - apply height_t_degenerate; [|assumption].
    apply leb_antisym_eqb.
    + apply leb_trans with (maxY (setPointCloud rd (q :: qs)));
        [|apply eqb_leb; assumption].
      rewrite Emax. apply fold_max_ge;
        [reflexivity | apply in_map; assumption | assumption].
    + rewrite Emin. apply fold_min_le;
        [reflexivity | apply in_map; assumption | assumption].
Qed.

(** ** The label loop *)

Lemma label_loop_spec (fuel : nat) :
  forall i n skip j : Z,
  0 < skip -> n - i < Z.of_nat fuel ->
  In j (label_loop fuel i n skip)
  <-> (i <= j <= n /\ (j - i) mod skip = 0).
Proof.
  induction fuel as [|k IH]; intros i n skip j Hs Hf.
  - simpl. split; [contradiction | lia].
  - cbn [label_loop]. destruct (Z.leb_spec i n) as [Hin|Hin].
    + cbn [In]. rewrite IH by lia. split.
      * intros [<-|[Hr Hm]].
        -- rewrite Z.sub_diag, Z.mod_0_l by lia. lia.
        -- split; [lia|].
           replace (j - i) with (j - (i + skip) + 1 * skip) by lia.
           rewrite Z.mod_add by lia. assumption.
      * intros [Hr Hm].
        destruct (Z.eq_dec i j) as [E|E]; [left; assumption | right].
        assert (skip <= j - i).
        { destruct (Z.lt_ge_cases (j - i) skip) as [Hlt|]; [|assumption].
          rewrite Z.mod_small in Hm by lia. lia. }
        split; [lia|].
        replace (j - i) with (j - (i + skip) + 1 * skip) in Hm by lia.
        rewrite Z.mod_add in Hm by lia. assumption.
    + simpl. split; [contradiction | lia].
Qed.

Lemma labelled_lines_every_kth (n skip : Z) :
  0 < skip -> every_kth skip n (labelled_lines n skip).
Proof.
  intros Hs i. unfold labelled_lines.
  destruct (Z.lt_ge_cases n 0) as [Hn|Hn].
  - replace (Z.to_nat (n + 1)) with 0%nat by lia. simpl.
    split; [contradiction | lia].
  - rewrite label_loop_spec by lia. rewrite Z.sub_0_r. reflexivity.
Qed.

(** With a skip of 1 every line from [0] to [n] is labelled. *)
Lemma every_1st_all (n : Z) (l : list Z) :
  every_kth 1 n l <-> (forall i, In i l <-> 0 <= i <= n).
Proof.
  unfold every_kth. split; intros H i; rewrite H, Z.mod_1_r; intuition.
Qed.

Lemma Part003_skip_cases (n : Z) :
  (n <= 10 /\ Part003.skip n = 1) \/ (10 < n /\ Part003.skip n = 2).
Proof.
  unfold Part003.skip. destruct (Z.gtb_spec n 10); [right | left]; lia.
Qed.

Lemma Part002_skip_cases (n : Z) :
  (n <= 15 /\ Part002.skip n = 1)
  \/ (15 < n <= 30 /\ Part002.skip n = 2)
  \/ (30 < n /\ Part002.skip n = 4).
Proof.
  unfold Part002.skip.
  destruct (Z.gtb_spec n 15), (Z.gtb_spec n 30); lia.
Qed.

Lemma Part001_yLabelSkip_cases (nx ny : Z) :
  (ny <= 15 /\ Part001.yLabelSkip nx ny = Part001.labelSkip nx)
  \/ (15 < ny <= 30 /\ Part001.yLabelSkip nx ny = 2)
  \/ (30 < ny /\ Part001.yLabelSkip nx ny = 4).
Proof.
  unfold Part001.yLabelSkip.
  destruct (Z.gtb_spec ny 15), (Z.gtb_spec ny 30); lia.
Qed.

(** * The properties *)

(** ** Camera *)

(** C10: each of [setTopView], [setFrontView], [setSideView],
    [setIsometricView] and [orbit] leaves distance, target and field of
    view as they were, and [zoom] leaves yaw, pitch, target and field of
    view as they were, for every prior camera and every argument. *)
Theorem camera_frame (c : Camera) (deltaYaw deltaPitch delta : float) :
  keeps_distance_target_fov c (setTopView c)
  /\ keeps_distance_target_fov c (setFrontView c)
  /\ keeps_distance_target_fov c (setSideView c)
  /\ keeps_distance_target_fov c (setIsometricView c)
  /\ keeps_distance_target_fov c (orbit c deltaYaw deltaPitch)
  /\ keeps_yaw_pitch_target_fov c (zoom c delta).
Proof.
  unfold keeps_distance_target_fov, keeps_yaw_pitch_target_fov.
  repeat split.
Qed.

(** C6, as amended: [zoom(delta)] sets distance to the previous distance
    times [(1 - delta * 0.1f)], clamped into [[0.1, 1000]] (a NaN product
    passes both tests and is kept); from a distance in [[0.1, 1000]], every
    run of [zoom] calls whose deltas are numbers (not NaN) keeps distance
    in [[0.1, 1000]]; from distance 10, [zoom(100)] gives 0.1 and
    [zoom(-1000)] gives 1000. *)
Theorem zoom_clamped (c : Camera) (deltas : list float) :
  distance_in_range (distance c) ->
  Forall (fun delta => is_nan delta = false) deltas ->
  (forall delta,
      distance (zoom c delta)
      = clamp f0_1 f1000 (distance c * (f1 - delta * f0_1))%f32)
  /\ clamp f0_1 f1000 S754_nan = S754_nan
  /\ distance_in_range (distance (zooms c deltas))
  /\ (distance c = f10 ->
      distance (zoom c (of_Z 100)) = f0_1
      /\ distance (zoom c (of_Z (-1000))) = f1000).
Proof.
  intros Hd Hall. split; [|split; [|split]].
  - intros delta. apply zoom_distance_clamp.
  - reflexivity.
  - apply zooms_in_range; assumption.
  - intros E. unfold zoom; cbn [distance]. rewrite E.
    split; vm_compute; reflexivity.
Qed.

Lemma zoom_clamped_witness :
  distance_in_range (distance (zooms Camera_new [of_Z 100; of_Z (-1000); f1]))
  /\ distance (zoom Camera_new (of_Z 100)) = f0_1
  /\ distance (zoom Camera_new (of_Z (-1000))) = f1000.
Proof.
  destruct (zoom_clamped Camera_new [of_Z 100; of_Z (-1000); f1])
    as (_ & _ & Hrange & Hex).
  - split; reflexivity.
  - repeat constructor.
  - split; [exact Hrange | exact (Hex eq_refl)].
Defined.

(** C6 as stated fails: a NaN delta takes the distance out of
    [[0.1, 1000]], since NaN passes both comparisons of the clamp. *)
Lemma zoom_nan_escapes :
  distance_in_range (distance Camera_new)
  /\ ~ distance_in_range (distance (zooms Camera_new [S754_nan])).
Proof.
  split.
  - split; reflexivity.
  - intros [H _]. vm_compute in H. discriminate H.
Qed.

(** C7, as amended: [orbit(0, 0)], applied any number of times to a camera
    whose pitch is in [[-89, 89]], leaves yaw and pitch at the same value;
    from a pitch in [[-89, 89]], every run of [orbit] calls whose pitch
    deltas are numbers (not NaN) keeps pitch in [[-89, 89]], whatever their
    magnitude; after [orbit(0, 1000)] from any finite pitch in
    [[-89, 89]], pitch is 89. *)
Theorem orbit_pitch_clamped (c : Camera) (n : nat)
    (deltas : list (float * float)) (deltaYaw : float) :
  pitch_in_range (pitch c) ->
  Forall (fun d => is_nan (snd d) = false) deltas ->
  (same_value (yaw (iterate n (fun k => orbit k f0 f0) c)) (yaw c)
   /\ same_value (pitch (iterate n (fun k => orbit k f0 f0) c)) (pitch c))
  /\ pitch_in_range (pitch (orbits c deltas))
  /\ (is_finite (pitch c) = true ->
      pitch (orbit c deltaYaw f1000) = f89).
Proof.
  intros Hp Hall. split; [|split].
  - destruct (orbit_zero_iterate n c Hp) as (Hy & Hq & _). split; assumption.
  - apply orbits_pitch_in_range; assumption.
  - intros Hfin. unfold orbit; cbn [pitch]. unfold gtb.
    rewrite (add_1000_above_89 _ Hfin Hp). reflexivity.
Qed.

Lemma orbit_pitch_clamped_witness :
  (same_value (yaw (iterate 3 (fun k => orbit k f0 f0) Camera_new)) f45
   /\ same_value (pitch (iterate 3 (fun k => orbit k f0 f0) Camera_new)) f30)
  /\ pitch_in_range
       (pitch (orbits Camera_new [(f10, f1000); (f0, (- f1000)%f32)]))
  /\ pitch (orbit Camera_new f0 f1000) = f89.
Proof.
  destruct (orbit_pitch_clamped Camera_new 3
              [(f10, f1000); (f0, (- f1000)%f32)] f0)
    as (Hsame & Hrange & Hex).
  - split; reflexivity.
  - repeat constructor.
  - split; [exact Hsame | split; [exact Hrange | apply Hex]].
    reflexivity.
Defined.

(** C7 as stated fails: a NaN pitch delta takes the pitch out of
    [[-89, 89]], since NaN passes both comparisons of the clamp. *)
Lemma orbit_nan_escapes :
  pitch_in_range (pitch Camera_new)
  /\ ~ pitch_in_range (pitch (orbits Camera_new [(f0, S754_nan)])).
Proof.
  split.
  - split; reflexivity.
  - intros [H _]. vm_compute in H. discriminate H.
Qed.

(** ** Point store *)

(** C1, as amended: after [setPointCloud] the stored sequence is the one
    passed and the stored min/max per axis are those recomputed from it,
    the zero box for the empty sequence; [clearPointCloud] empties the
    sequence and leaves the stored bounds as they were. *)
Theorem bounds_after_replace_and_clear (rd : PointCloudRenderer)
    (ps : list Point3D) :
  (points (setPointCloud rd ps) = ps
   /\ bounds (setPointCloud rd ps) = bbox ps
   /\ bounds_fresh (setPointCloud rd ps))
  /\ bounds (setPointCloud rd []) = (f0, f0, f0, f0, f0, f0)
  /\ bounds_fresh PointCloudRenderer_new
  /\ (points (clearPointCloud rd) = []
      /\ pointCount (clearPointCloud rd) = 0%nat
      /\ bounds (clearPointCloud rd) = bounds rd).
Proof.
  split; [|split; [|split; [|split; [|split]]]].
  - split; [apply setPointCloud_points | split].
    + apply setPointCloud_bounds.
    + apply setPointCloud_fresh.
  - apply setPointCloud_bounds.
  - reflexivity.
  - reflexivity.
  - reflexivity.
  - reflexivity.
Qed.

(** C1 as stated fails: after a one-sample sequence is set and then
    cleared, the sequence is empty but the stored bounds are still those of
    the sample, not the zero box of the empty sequence. *)
Lemma clear_keeps_old_bounds :
  let rd := clearPointCloud
              (setPointCloud PointCloudRenderer_new [Point3D_at f1 f2 f5]) in
  points rd = []
  /\ bounds rd = (f1, f1, f2, f2, f5, f5)
  /\ bounds rd <> bbox (points rd)
  /\ ~ bounds_fresh rd.
Proof.
  cbv zeta. split; [reflexivity | split; [reflexivity | split]].
  - intros H. vm_compute in H. discriminate H.
  - unfold bounds_fresh. intros H. vm_compute in H. discriminate H.
Qed.

(** C4, as amended: for every non-empty sample sequence, after
    [calculateBounds], [min <= p.axis <= max] holds for every sample and
    axis whose coordinate is a number (not NaN), and when all coordinates
    are finite each stored min and max is the coordinate of some sample;
    for the empty sequence all six bounds are zero. *)
Theorem calculateBounds_encloses (rd : PointCloudRenderer) :
  let rd' := calculateBounds rd in
  (points rd = [] -> bounds rd' = (f0, f0, f0, f0, f0, f0))
  /\ (points rd <> [] ->
      (forall p, In p (points rd) ->
         (is_nan (x p) = false -> between (minX rd') (x p) (maxX rd'))
         /\ (is_nan (y p) = false -> between (minY rd') (y p) (maxY rd'))
         /\ (is_nan (z p) = false -> between (minZ rd') (z p) (maxZ rd')))
      /\ (Forall finite_sample (points rd) ->
          (exists p, In p (points rd) /\ x p = minX rd')
          /\ (exists p, In p (points rd) /\ x p = maxX rd')
          /\ (exists p, In p (points rd) /\ y p = minY rd')
          /\ (exists p, In p (points rd) /\ y p = maxY rd')
          /\ (exists p, In p (points rd) /\ z p = minZ rd')
          /\ (exists p, In p (points rd) /\ z p = maxZ rd'))).
Proof.
  cbv zeta. pose proof (calculateBounds_bbox rd) as Hb. split.
  - intros E. rewrite Hb, E. reflexivity.
  - intros Hne. unfold bbox in Hb.
    destruct (points rd) as [|q qs] eqn:E; [contradiction|].
    apply bounds_fields in Hb.
    destruct Hb as (-> & -> & -> & -> & -> & ->).
    split.
    + intros p Hin. unfold between, seq_min, seq_max.
      repeat split;
        first [ apply fold_min_le | apply fold_max_ge ];
        first [ reflexivity | assumption | apply in_map; assumption ].
    + intros Hall.
      assert (Hx : Forall (fun v => is_finite v = true) (map x (q :: qs))).
      { apply Forall_map. eapply Forall_impl; [|exact Hall].
        intros p Hp. apply Hp. }
      assert (Hy : Forall (fun v => is_finite v = true) (map y (q :: qs))).
      { apply Forall_map. eapply Forall_impl; [|exact Hall].
        intros p Hp. apply Hp. }
      assert (Hz : Forall (fun v => is_finite v = true) (map z (q :: qs))).
      { apply Forall_map. eapply Forall_impl; [|exact Hall].
        intros p Hp. apply Hp. }
      assert (Hattain : forall (f : Point3D -> float) (v : float),
                 In v (map f (q :: qs)) ->
                 exists p, In p (q :: qs) /\ f p = v).
      { intros f v Hin. apply in_map_iff in Hin.
        destruct Hin as (p & Hp & Hin). exists p. split; assumption. }
      repeat split; apply Hattain;
        first [ apply seq_min_attained | apply seq_max_attained ];
        first [ discriminate | assumption ].
Qed.

Lemma calculateBounds_encloses_witness :
  let rd := set_points PointCloudRenderer_new
              [Point3D_at f1 f2 f5; Point3D_at f10 f0 f1] 2 in
  bounds (calculateBounds rd) = (f1, f10, f0, f2, f1, f5)
  /\ between (minX (calculateBounds rd)) f10 (maxX (calculateBounds rd))
  /\ (exists p, In p (points rd) /\ x p = minX (calculateBounds rd)).
Proof.
  cbv zeta.
  destruct (calculateBounds_encloses
              (set_points PointCloudRenderer_new
                 [Point3D_at f1 f2 f5; Point3D_at f10 f0 f1] 2))
    as (_ & Hne).
  destruct Hne as (Hin & Hatt); [discriminate|].
  split; [reflexivity | split].
  - apply (Hin (Point3D_at f10 f0 f1)); [right; left; reflexivity|].
    reflexivity.
  - apply Hatt. repeat constructor.
Defined.

(** C4 as stated fails: a sample with a NaN coordinate lies outside the
    bounds computed for it, and the bounds computed for a sample at
    infinity hold [max()] as the minimum, a value no sample has. *)
Lemma bounds_miss_nan_and_infinity :
  (let p := Point3D_at S754_nan f0 f0 in
   let rd := calculateBounds (set_points PointCloudRenderer_new [p] 1) in
   In p (points rd) /\ ~ between (minX rd) (x p) (maxX rd))
  /\ (let p := Point3D_at (S754_infinity false) f0 f0 in
      let rd := calculateBounds (set_points PointCloudRenderer_new [p] 1) in
      minX rd = FLT_MAX
      /\ ~ (exists q, In q (points rd) /\ x q = minX rd)).
Proof.
  cbv zeta. split; split.
  - left; reflexivity.
  - intros [H _]. vm_compute in H. discriminate H.
  - reflexivity.
  - intros (q & [<-|[]] & H). vm_compute in H. discriminate H.
Qed.

(** ** Camera coupling of [setPointCloud] *)

Lemma seq_min_pinned (vs : list float) (lo : float) :
  In lo vs -> is_nan lo = false -> is_zero lo = false ->
  ltb lo FLT_MAX = true ->
  (forall v, In v vs -> leb lo v = true) ->
  seq_min vs = lo.
Proof.
  intros Hin Hn Hz Hmax Hall. unfold seq_min.
  pose proof (fold_min_le vs FLT_MAX lo eq_refl Hin Hn) as Hle.
  destruct (fold_min_choice vs FLT_MAX) as [E|Hm].
  - rewrite E in Hle. rewrite (leb_ltb_false _ _ Hle) in Hmax. discriminate.
  - apply same_value_nonzero; [|assumption].
    apply leb_antisym; [assumption | apply Hall; assumption].
Qed.

Lemma seq_max_pinned (vs : list float) (hi : float) :
  In hi vs -> is_nan hi = false -> is_zero hi = false ->
  ltb FLT_LOWEST hi = true ->
  (forall v, In v vs -> leb v hi = true) ->
  seq_max vs = hi.
Proof.
  intros Hin Hn Hz Hlow Hall. unfold seq_max.
  pose proof (fold_max_ge vs FLT_LOWEST hi eq_refl Hin Hn) as Hge.
  destruct (fold_max_choice vs FLT_LOWEST) as [E|Hm].
  - rewrite E in Hge. rewrite (leb_ltb_false _ _ Hge) in Hlow. discriminate.
  - apply same_value_nonzero; [|assumption].
    apply leb_antisym; [apply Hall; assumption | assumption].
Qed.

Lemma fills_cube5_bbox (ps : list Point3D) :
  fills_cube5 ps ->
  bbox ps = ((- f5)%f32, f5, (- f5)%f32, f5, (- f5)%f32, f5).
Proof.
  intros (Hall & Hx1 & Hx2 & Hy1 & Hy2 & Hz1 & Hz2).
  assert (Hcoord : forall (f : Point3D -> float),
             (forall p, in_cube5 p -> between (- f5)%f32 (f p) f5) ->
             forall v, In v (map f ps) -> between (- f5)%f32 v f5).
  { intros f Hf v Hv. apply in_map_iff in Hv. destruct Hv as (p & <- & Hp).
    apply Hf. rewrite Forall_forall in Hall. apply Hall, Hp. }
  pose proof (Hcoord x (fun p H => proj1 H)) as Cx.
  pose proof (Hcoord y (fun p H => proj1 (proj2 H))) as Cy.
  pose proof (Hcoord z (fun p H => proj2 (proj2 H))) as Cz.
  unfold bbox. destruct ps as [|q qs]; [destruct Hx1|].
  repeat match goal with
  | |- context [seq_min ?l] =>
      rewrite (seq_min_pinned l (- f5)%f32)
        by (first [ assumption | reflexivity
                  | intros v Hv;
                    first [ apply (Cx v Hv) | apply (Cy v Hv)
                          | apply (Cz v Hv) ] ])
  | |- context [seq_max ?l] =>
      rewrite (seq_max_pinned l f5)
        by (first [ assumption | reflexivity
                  | intros v Hv;
                    first [ apply (Cx v Hv) | apply (Cy v Hv)
                          | apply (Cz v Hv) ] ])
  end.
  reflexivity.
Qed.

(** C2, as amended: [reset], and [zoom] whenever the scaled distance is a
    number (not NaN), leave distance within [[0.1, 1000]], and every
    distance in that interval is strictly positive; [setPointCloud] writes
    twice the largest extent of the bounding box without clamping, which
    is 0 for the empty sequence and for a single finite sample, and 2000
    for two samples 1000 apart. *)
Theorem distance_writes (c : Camera) (delta : float)
    (rd : PointCloudRenderer) (ps : list Point3D) (p : Point3D) :
  distance_in_range (distance (reset c))
  /\ (forall d, distance_in_range d -> ltb f0 d = true)
  /\ (is_nan (distance c * (f1 - delta * f0_1))%f32 = false ->
      distance_in_range (distance (zoom c delta)))
  /\ (let rd' := setPointCloud rd ps in
      distance (camera rd')
      = (std_max3 (maxX rd' - minX rd') (maxY rd' - minY rd')
           (maxZ rd' - minZ rd') * f2)%f32)
  /\ distance (camera (setPointCloud rd [])) = f0
  /\ (finite_sample p -> distance (camera (setPointCloud rd [p])) = f0)
  /\ distance (camera (setPointCloud rd (box_corners 1000 0 0))) = of_Z 2000.
Proof.
  split; [split; reflexivity|].
  split; [intros d [Hd _]; apply ltb_leb_trans with f0_1;
          [reflexivity | exact Hd]|].
  split; [apply zoom_in_range_of_number|].
  split; [apply setPointCloud_camera|].
  split; [|split].
  - destruct (setPointCloud_camera rd []) as (_ & _ & _ & Td & _).
    cbv zeta in Td. rewrite Td.
    pose proof (setPointCloud_bounds rd []) as Hb.
    apply bounds_fields in Hb.
    destruct Hb as (-> & -> & -> & -> & -> & ->). reflexivity.
  - intros (Hx & Hy & Hz).
    destruct (setPointCloud_camera rd [p]) as (_ & _ & _ & Td & _).
    cbv zeta in Td. rewrite Td.
    pose proof (setPointCloud_bounds rd [p]) as Hb.
    assert (Hone : forall v, is_finite v = true ->
               seq_min [v] = v /\ seq_max [v] = v).
    { intros v Hv. split.
      - destruct (seq_min_attained [v]) as [E|[]];
          [discriminate | repeat constructor; assumption | symmetry; exact E].
      - destruct (seq_max_attained [v]) as [E|[]];
          [discriminate | repeat constructor; assumption | symmetry; exact E]. }
    unfold bbox in Hb. cbn [map] in Hb.
    rewrite (proj1 (Hone _ Hx)), (proj2 (Hone _ Hx)),
      (proj1 (Hone _ Hy)), (proj2 (Hone _ Hy)),
      (proj1 (Hone _ Hz)), (proj2 (Hone _ Hz)) in Hb.
    apply bounds_fields in Hb.
    destruct Hb as (-> & -> & -> & -> & -> & ->).
    assert (Hfin : forall v, is_finite v = true ->
               is_nan v = false /\ is_inf v = false)
      by (intros [s|s| |s m e]; simpl; intros; split; congruence).
    rewrite !sub_self by (apply Hfin; assumption). reflexivity.
  - destruct (setPointCloud_camera rd (box_corners 1000 0 0))
      as (_ & _ & _ & Td & _).
    cbv zeta in Td. rewrite Td.
    pose proof (setPointCloud_bounds rd (box_corners 1000 0 0)) as Hb.
    apply bounds_fields in Hb.
    destruct Hb as (-> & -> & -> & -> & -> & ->). vm_compute. reflexivity.
Qed.

Lemma distance_writes_witness :
  distance_in_range (distance (zoom Camera_new f1))
  /\ distance
       (camera (setPointCloud PointCloudRenderer_new [Point3D_at f1 f2 f5]))
     = f0.
Proof.
  destruct (distance_writes Camera_new f1 PointCloudRenderer_new []
              (Point3D_at f1 f2 f5)) as (_ & _ & Hz & _ & _ & Hp & _).
  split.
  - apply Hz. reflexivity.
  - apply Hp. repeat split.
Defined.

(** C2 as stated fails: [setPointCloud] with the empty sequence leaves
    distance 0, and with two samples 1000 apart leaves distance 2000. *)
Lemma setPointCloud_distance_escapes :
  ~ distance_in_range
      (distance (camera (setPointCloud PointCloudRenderer_new [])))
  /\ ~ distance_in_range
         (distance
            (camera (setPointCloud PointCloudRenderer_new
                       (box_corners 1000 0 0)))).
Proof.
  split.
  - intros [H _]. vm_compute in H. discriminate H.
  - intros [_ H]. vm_compute in H. discriminate H.
Qed.

(** ** Colours of the height mode *)

Lemma color_call_height (rd : PointCloudRenderer) (p : Point3D) :
  colorMode rd = COLOR_HEIGHT ->
  color_call rd p
  = (let '(cr, cg, cb) := height_color (y p) (minY rd) (maxY rd) in
     [glColor3f cr cg cb]).
Proof. intros E. unfold color_call. rewrite E. reflexivity. Qed.

(** C5: with colour mode height, every sample is drawn with the colour
    [(t, 1 - |t - 0.5| * 2, 1 - t)] where [t = (y - minY) / (maxY - minY)],
    whatever the bounds; samples with Y 0, 5 and 10 under bounds 0 and 10
    get [t] 0, 0.5 and 1 and the colours [(0, 0, 1)], [(0.5, 1, 0.5)] and
    [(1, 0, 0)]; and when [maxY == minY] nothing guards the division: [t]
    is NaN for a sample with [y == minY], hence for every sample of a
    sequence passed to [setPointCloud]. *)
Theorem height_colours (rd : PointCloudRenderer) (py mnY mxY : float)
    (ps : list Point3D) (p : Point3D) :
  (colorMode rd = COLOR_HEIGHT -> pointCount rd <> 0%nat ->
   render_points rd
   = [glEnable_DEPTH_TEST; glEnable_POINT_SMOOTH; glPointSize (pointSize rd);
      glBegin_POINTS]
     ++ flat_map
          (fun p =>
             let t := ((y p - minY rd) / (maxY rd - minY rd))%f32 in
             [glColor3f t (f1 - fabs (t - f0_5) * f2)%f32 (f1 - t)%f32;
              glVertex3f (x p) (y p) (z p)])
          (points rd)
     ++ [glEnd; glDisable_POINT_SMOOTH])
  /\ (height_t f0 f0 f10 = f0 /\ height_t f5 f0 f10 = f0_5
      /\ height_t f10 f0 f10 = f1)
  /\ (height_color f0 f0 f10 = (f0, f0, f1)
      /\ height_color f5 f0 f10 = (f0_5, f1, f0_5)
      /\ height_color f10 f0 f10 = (f1, f0, f0))
  /\ (let rd3 := setColorMode
                   (setPointCloud PointCloudRenderer_new
                      [Point3D_at f0 f0 f0; Point3D_at f0 f5 f0;
                       Point3D_at f0 f10 f0])
                   COLOR_HEIGHT in
      minY rd3 = f0 /\ maxY rd3 = f10
      /\ render_points rd3
         = [glEnable_DEPTH_TEST; glEnable_POINT_SMOOTH; glPointSize f2;
            glBegin_POINTS;
            glColor3f f0 f0 f1; glVertex3f f0 f0 f0;
            glColor3f f0_5 f1 f0_5; glVertex3f f0 f5 f0;
            glColor3f f1 f0 f0; glVertex3f f0 f10 f0;
            glEnd; glDisable_POINT_SMOOTH])
  /\ (eqb py mnY = true -> eqb mxY mnY = true ->
      height_t py mnY mxY = S754_nan
      /\ height_color py mnY mxY = (S754_nan, S754_nan, S754_nan))
  /\ (eqb (maxY (setPointCloud rd ps)) (minY (setPointCloud rd ps)) = true ->
      In p ps ->
      height_t (y p) (minY (setPointCloud rd ps)) (maxY (setPointCloud rd ps))
      = S754_nan).
Proof.
  split; [|split; [|split; [|split; [|split]]]].
  - intros Hmode Hcount. unfold render_points.
    destruct (Nat.eqb_spec (pointCount rd) 0) as [E|_]; [contradiction|].
    f_equal. f_equal. apply flat_map_ext. intros q.
    rewrite (color_call_height rd q Hmode). reflexivity.
  - repeat split; vm_compute; reflexivity.
  - repeat split; vm_compute; reflexivity.
  - cbv zeta. repeat split; vm_compute; reflexivity.
  - intros H1 H2. pose proof (height_t_degenerate py mnY mxY H1 H2) as Ht.
    split; [exact Ht|]. unfold height_color. rewrite Ht. reflexivity.
  - apply setPointCloud_flat_height.
Qed.

Lemma height_colours_witness :
  let rd := setColorMode
              (setPointCloud PointCloudRenderer_new
                 [Point3D_at f1 f5 f2; Point3D_at f2 f5 f1])
              COLOR_HEIGHT in
  render_points rd
  = [glEnable_DEPTH_TEST; glEnable_POINT_SMOOTH; glPointSize f2;
     glBegin_POINTS;
     glColor3f S754_nan S754_nan S754_nan; glVertex3f f1 f5 f2;
     glColor3f S754_nan S754_nan S754_nan; glVertex3f f2 f5 f1;
     glEnd; glDisable_POINT_SMOOTH]
  /\ height_t f5 f5 f5 = S754_nan.
Proof.
  cbv zeta.
  destruct (height_colours
              (setColorMode
                 (setPointCloud PointCloudRenderer_new
                    [Point3D_at f1 f5 f2; Point3D_at f2 f5 f1])
                 COLOR_HEIGHT) f5 f5 f5 [] (Point3D_at f0 f0 f0))
    as (Hr & _ & _ & _ & Hn & _).
  split.
  - rewrite Hr; [reflexivity | reflexivity | discriminate].
  - apply Hn; reflexivity.
Defined.

(** ** Grid spacing *)

Lemma numLines_spacing_zero (size : float) : numLines size f0 = None.
Proof.
  unfold numLines.
  destruct size as [s|s| |s m e]; try destruct s; reflexivity.
Qed.

(** C9, as amended: the constructor sets the grid spacing to 1, which is
    positive; [setGridSpacing] stores its argument as given, so the
    spacing is positive afterwards exactly when the argument is;
    [setPointCloud] and [clearPointCloud] leave it as it was; with a
    spacing of 0 the line count [(int)(size / gridSpacing) + 1] is
    undefined for every size. *)
Theorem gridSpacing_as_given (rd : PointCloudRenderer) (spacing : float)
    (ps : list Point3D) :
  (gridSpacing PointCloudRenderer_new = f1 /\ ltb f0 f1 = true)
  /\ gridSpacing (setGridSpacing rd spacing) = spacing
  /\ (ltb f0 (gridSpacing (setGridSpacing rd spacing)) = true
      <-> ltb f0 spacing = true)
  /\ gridSpacing (setPointCloud rd ps) = gridSpacing rd
  /\ gridSpacing (clearPointCloud rd) = gridSpacing rd
  /\ (forall size, numLines size f0 = None).
Proof.
  split; [split; reflexivity|].
  split; [reflexivity|].
  split; [reflexivity|].
  split.
  - unfold setPointCloud. cbn [set_camera gridSpacing].
    apply (calculateBounds_frame (set_points rd ps (length ps))).
  - split; [reflexivity | apply numLines_spacing_zero].
Qed.

(** C9 as stated fails: [setGridSpacing] accepts 0 and negative values,
    after which the spacing is not positive; for an extent of 10 the line
    count is then undefined (spacing 0) or negative (spacing -1), where
    the default spacing gives 11. *)
Lemma setGridSpacing_accepts_nonpositive :
  ltb f0 (gridSpacing (setGridSpacing PointCloudRenderer_new f0)) = false
  /\ ltb f0 (gridSpacing (setGridSpacing PointCloudRenderer_new (- f1)%f32))
     = false
  /\ numLines f10
       (gridSpacing (setGridSpacing PointCloudRenderer_new f0)) = None
  /\ numLines f10
       (gridSpacing (setGridSpacing PointCloudRenderer_new (- f1)%f32))
     = Some (-9)
  /\ numLines f10 (gridSpacing PointCloudRenderer_new) = Some 11.
Proof. repeat split. Qed.

(** ** Label thinning *)

(** C8, as amended: in [renderAxisLabels] of src/unnamed/part_003 (labels
    projected from the grid positions) an axis is labelled at every 2nd
    grid line exactly when its line count exceeds 10, at every line
    otherwise, and never at every 4th; in the variant of
    src/unnamed/part_002 the X and Y axes are labelled at every line when
    the line count is at most 15, at every 2nd line when it exceeds 15 but
    not 30, and at every 4th line when it exceeds 30; in the variant of
    src/unnamed/part_001 those thresholds are applied to the X line count
    for the X and Z axes, and to the Y line count for the Y axis, which
    keeps the X skip when the Y count is at most 15. *)
Theorem label_thinning (rd : PointCloudRenderer) (n nx ny nz : Z) :
  ((Part003.skip n = 2 <-> 10 < n) /\ (Part003.skip n = 1 <-> n <= 10)
   /\ Part003.skip n <> 4
   /\ every_kth (Part003.skip n) n (labelled_lines n (Part003.skip n))
   /\ (labels_wanted rd = true -> line_counts rd = Some (nx, ny, nz) ->
       Part003.renderAxisLabels rd
       = Some (labelled_lines nx (Part003.skip nx),
               labelled_lines ny (Part003.skip ny),
               labelled_lines nz (Part003.skip nz))))
  /\ ((Part002.skip n = 1 <-> n <= 15) /\ (Part002.skip n = 2 <-> 15 < n <= 30)
      /\ (Part002.skip n = 4 <-> 30 < n)
      /\ every_kth (Part002.skip n) n (labelled_lines n (Part002.skip n))
      /\ (labels_wanted rd = true -> line_counts rd = Some (nx, ny, nz) ->
          Part002.renderAxisLabels rd
          = Some (labelled_lines nx (Part002.skip nx),
                  labelled_lines ny (Part002.skip ny))))
  /\ (Part001.labelSkip nx = Part002.skip nx
      /\ (ny <= 15 -> Part001.yLabelSkip nx ny = Part002.skip nx)
      /\ (15 < ny -> Part001.yLabelSkip nx ny = Part002.skip ny)
      /\ (labels_wanted rd = true -> line_counts rd = Some (nx, ny, nz) ->
          Part001.renderAxisLabels rd
          = Some (labelled_lines nx (Part002.skip nx),
                  labelled_lines ny (Part001.yLabelSkip nx ny),
                  labelled_lines nz (Part002.skip nx)))).
Proof.
  split; [|split].
  - destruct (Part003_skip_cases n) as [[H E]|[H E]];
      (split; [|split; [|split; [|split]]]);
      try (rewrite E; lia);
      try (apply labelled_lines_every_kth; rewrite E; lia);
      intros Hw Hc; unfold Part003.renderAxisLabels; rewrite Hw, Hc;
      reflexivity.
  - destruct (Part002_skip_cases n) as [[H E]|[[H E]|[H E]]];
      (split; [|split; [|split; [|split]]]);
      try (rewrite E; lia);
      try (apply labelled_lines_every_kth; rewrite E; lia);
      intros Hw Hc; unfold Part002.renderAxisLabels; rewrite Hw, Hc;
      reflexivity.
  - split; [reflexivity|]. split; [|split].
    + intros H.
      destruct (Part001_yLabelSkip_cases nx ny) as [[_ E]|[[H' _]|[H' _]]];
        [exact E | lia | lia].
    + intros H.
      destruct (Part001_yLabelSkip_cases nx ny) as [[H' _]|[[H' E]|[H' E]]];
        [lia | |]; rewrite E;
        destruct (Part002_skip_cases ny) as [[G F]|[[G F]|[G F]]];
        rewrite F; lia.
    + intros Hw Hc. unfold Part001.renderAxisLabels. rewrite Hw, Hc.
      reflexivity.
Qed.

Lemma label_thinning_witness :
  Part003.renderAxisLabels
    (setPointCloud PointCloudRenderer_new (box_corners 10 20 40))
  = Some ([0; 2; 4; 6; 8; 10], labelled_lines 21 2, labelled_lines 41 2)
  /\ Part002.renderAxisLabels
       (setPointCloud PointCloudRenderer_new (box_corners 10 20 40))
     = Some ([0; 1; 2; 3; 4; 5; 6; 7; 8; 9; 10; 11], labelled_lines 21 2)
  /\ Part001.yLabelSkip 11 21 = 2.
Proof.
  destruct (label_thinning
              (setPointCloud PointCloudRenderer_new (box_corners 10 20 40))
              0 11 21 41) as ((_ & _ & _ & _ & H3) & (_ & _ & _ & _ & H2) & H1).
  split; [|split].
  - rewrite H3; reflexivity.
  - rewrite H2; reflexivity.
  - destruct H1 as (_ & _ & H1 & _). rewrite H1; [reflexivity | lia].
Defined.

(** C8 as stated fails.  With the default spacing of 1, a cloud spanning
    10 units has 11 lines per axis, and src/unnamed/part_003 labels every
    2nd of them although 11 does not exceed 15; a cloud spanning 30 units
    has 31 lines, and it labels every 2nd, not every 4th; and in
    src/unnamed/part_001 a Y axis with 5 lines is labelled at every 4th
    line when the X axis has 31. *)
Lemma thinning_thresholds_differ :
  (line_counts (setPointCloud PointCloudRenderer_new (box_corners 10 10 10))
   = Some (11, 11, 11)
   /\ Part003.renderAxisLabels
        (setPointCloud PointCloudRenderer_new (box_corners 10 10 10))
      = Some ([0; 2; 4; 6; 8; 10], [0; 2; 4; 6; 8; 10], [0; 2; 4; 6; 8; 10])
   /\ ~ every_kth 1 11 [0; 2; 4; 6; 8; 10])
  /\ (line_counts (setPointCloud PointCloudRenderer_new (box_corners 30 30 30))
      = Some (31, 31, 31)
      /\ Part003.renderAxisLabels
           (setPointCloud PointCloudRenderer_new (box_corners 30 30 30))
         = Some (labelled_lines 31 2, labelled_lines 31 2, labelled_lines 31 2)
      /\ ~ every_kth 4 31 (labelled_lines 31 2))
  /\ (line_counts (setPointCloud PointCloudRenderer_new (box_corners 30 4 4))
      = Some (31, 5, 5)
      /\ Part001.renderAxisLabels
           (setPointCloud PointCloudRenderer_new (box_corners 30 4 4))
         = Some (labelled_lines 31 4, [0; 4], [0; 4])
      /\ ~ every_kth 1 5 [0; 4]).
Proof.
  split; [|split]; (split; [reflexivity | split; [reflexivity|]]).
  - intros H. destruct (proj2 (H 1)) as [E|[E|[E|[E|[E|[E|[]]]]]]];
      [split; [lia | reflexivity] | discriminate E ..].
  - intros H. assert (Hin : In 2 (labelled_lines 31 2))
      by (vm_compute; tauto).
    apply H in Hin. destruct Hin as [_ Hm]. discriminate Hm.
  - intros H. destruct (proj2 (H 1)) as [E|[E|[]]];
      [split; [lia | reflexivity] | discriminate E ..].
Qed.

(** * Further properties of the sources *)

(** ** Replacing the sequence *)

Lemma set_bounds_same (rd : PointCloudRenderer) :
  set_bounds rd (minX rd) (maxX rd) (minY rd) (maxY rd) (minZ rd) (maxZ rd)
  = rd.
Proof. destruct rd; reflexivity. Qed.

Lemma fold_bounds_step_closed (ps : list Point3D) :
  forall rd : PointCloudRenderer,
  fold_left bounds_step ps rd
  = set_bounds rd
      (fold_left std_min (map x ps) (minX rd))
      (fold_left std_max (map x ps) (maxX rd))
      (fold_left std_min (map y ps) (minY rd))
      (fold_left std_max (map y ps) (maxY rd))
      (fold_left std_min (map z ps) (minZ rd))
      (fold_left std_max (map z ps) (maxZ rd)).
Proof.
  induction ps as [|p ps IH]; intros rd.
  - simpl. symmetry. apply set_bounds_same.
  - simpl fold_left at 1. rewrite IH. reflexivity.
Qed.

(** [calculateBounds] writes the bounding box of the stored sequence and
    nothing else. *)
Lemma calculateBounds_closed (rd : PointCloudRenderer) :
  calculateBounds rd
  = (let '(a1, a2, a3, a4, a5, a6) := bbox (points rd) in
     set_bounds rd a1 a2 a3 a4 a5 a6).
Proof.
  unfold calculateBounds, bbox.
  destruct (points rd) as [|p ps]; [reflexivity|].
  rewrite fold_bounds_step_closed. reflexivity.
Qed.

Lemma setPointCloud_closed (rd : PointCloudRenderer) (ps : list Point3D) :
  setPointCloud rd ps
  = (let '(a1, a2, a3, a4, a5, a6) := bbox ps in
     {| pointCount := length ps; pointSize := pointSize rd;
        colorMode := colorMode rd; showGrid := showGrid rd;
        gridSpacing := gridSpacing rd; gridSize := gridSize rd;
        showAxisLabels := showAxisLabels rd;
        camera := fitted_camera (camera rd) (bbox ps);
        points := ps;
        minX := a1; maxX := a2; minY := a3; maxY := a4;
        minZ := a5; maxZ := a6 |}).
Proof.
  unfold setPointCloud. rewrite calculateBounds_closed.
  cbn [set_points points].
  destruct (bbox ps) as [[[[[a1 a2] a3] a4] a5] a6]. reflexivity.
Qed.

(** X1: [setPointCloud] is a full replacement.  What it leaves depends on
    the sequence passed and on the settings and the camera orientation
    only: the sequence, count, bounds, camera target and camera distance
    of the renderer it is called on are forgotten.  So loading a cloud
    twice, or loading after another cloud or after [clearPointCloud],
    equals loading once, and a zoom (or any change of the camera that
    keeps yaw, pitch and field of view) done before loading is lost. *)
Theorem setPointCloud_overwrites (rd : PointCloudRenderer)
    (ps1 ps2 : list Point3D) :
  setPointCloud (setPointCloud rd ps1) ps2 = setPointCloud rd ps2
  /\ setPointCloud (setPointCloud rd ps2) ps2 = setPointCloud rd ps2
  /\ setPointCloud (clearPointCloud rd) ps2 = setPointCloud rd ps2
  /\ (forall delta : float,
        setPointCloud (set_camera rd (zoom (camera rd) delta)) ps2
        = setPointCloud rd ps2)
  /\ (forall c : Camera,
        yaw c = yaw (camera rd) -> pitch c = pitch (camera rd) ->
        fov c = fov (camera rd) ->
        setPointCloud (set_camera rd c) ps2 = setPointCloud rd ps2).
Proof.
  assert (K : forall rd' : PointCloudRenderer,
            pointSize rd' = pointSize rd -> colorMode rd' = colorMode rd ->
            showGrid rd' = showGrid rd -> gridSpacing rd' = gridSpacing rd ->
            gridSize rd' = gridSize rd ->
            showAxisLabels rd' = showAxisLabels rd ->
            yaw (camera rd') = yaw (camera rd) ->
            pitch (camera rd') = pitch (camera rd) ->
            fov (camera rd') = fov (camera rd) ->
            setPointCloud rd' ps2 = setPointCloud rd ps2).
  { intros rd' H1 H2 H3 H4 H5 H6 H7 H8 H9.
    rewrite (setPointCloud_closed rd'), (setPointCloud_closed rd).
    unfold fitted_camera.
    destruct (bbox ps2) as [[[[[a1 a2] a3] a4] a5] a6].
    rewrite H1, H2, H3, H4, H5, H6, H7, H8, H9. reflexivity. }
  assert (L : forall ps, setPointCloud (setPointCloud rd ps) ps2
                         = setPointCloud rd ps2).
  { intros ps. apply K; rewrite (setPointCloud_closed rd ps);
      unfold fitted_camera;
      destruct (bbox ps) as [[[[[a1 a2] a3] a4] a5] a6]; reflexivity. }
  split; [apply L|]. split; [apply L|].
  split; [apply K; reflexivity|].
  split.
  - intros delta. apply K; reflexivity.
  - intros c Hy Hp Hf. apply K; try reflexivity; assumption.
Qed.

(** ** States that client code can reach *)

Lemma clearPointCloud_closed (rd : PointCloudRenderer) :
  pointCount (clearPointCloud rd) = 0%nat
  /\ points (clearPointCloud rd) = []
  /\ bounds (clearPointCloud rd) = bounds rd.
Proof. repeat split. Qed.

Lemma apply_op_consistent (rd : PointCloudRenderer) (op : RendererOp) :
  pointCount rd = length (points rd)
  /\ (points rd <> [] -> bounds rd = bbox (points rd)) ->
  pointCount (apply_op rd op) = length (points (apply_op rd op))
  /\ (points (apply_op rd op) <> [] ->
      bounds (apply_op rd op) = bbox (points (apply_op rd op))).
Proof.
  intros [Hc Hb]. destruct op; try (split; assumption).
  - cbn [apply_op].
    destruct (setPointCloud_points rd ps) as [-> ->].
    split; [reflexivity|]. intros _. apply setPointCloud_bounds.
  - cbn [apply_op]. split; [reflexivity|].
    intros H. exfalso. apply H. reflexivity.
Qed.

Lemma run_ops_consistent (ops : list RendererOp) :
  forall rd : PointCloudRenderer,
  pointCount rd = length (points rd)
  /\ (points rd <> [] -> bounds rd = bbox (points rd)) ->
  pointCount (fold_left apply_op ops rd)
  = length (points (fold_left apply_op ops rd))
  /\ (points (fold_left apply_op ops rd) <> [] ->
      bounds (fold_left apply_op ops rd)
      = bbox (points (fold_left apply_op ops rd))).
Proof.
  induction ops as [|op ops IH]; intros rd H; [exact H|].
  simpl. apply IH, apply_op_consistent, H.
Qed.

(** X2: whatever client code does to a renderer after constructing it
    (through the public mutators and through [getCamera()]), the stored
    count is the length of the stored sequence, and as long as the
    sequence is non-empty the stored bounds are its bounding box; so the
    point stage draws nothing exactly when the sequence is empty, and the
    height colours are always computed against the Y range of the samples
    being drawn. *)
Theorem reachable_state_consistent (ops : list RendererOp) :
  let rd := run_ops ops in
  pointCount rd = length (points rd)
  /\ (points rd <> [] -> bounds rd = bbox (points rd))
  /\ (render_points rd = [] <-> points rd = [])
  /\ (points rd <> [] ->
      minY rd = seq_min (map y (points rd))
      /\ maxY rd = seq_max (map y (points rd))).
Proof.
  cbv zeta. unfold run_ops.
  destruct (run_ops_consistent ops PointCloudRenderer_new) as [Hc Hb].
  { split; [reflexivity|]. intros H. exfalso. apply H. reflexivity. }
  set (rd := fold_left apply_op ops PointCloudRenderer_new) in *.
  split; [exact Hc|]. split; [exact Hb|]. split.
  - unfold render_points. rewrite Hc.
    destruct (points rd) as [|p ps]; simpl; split; intros H;
      try reflexivity; discriminate H.
  - intros Hne. specialize (Hb Hne). unfold bounds, bbox in Hb.
    destruct (points rd) as [|p ps]; [exfalso; apply Hne; reflexivity|].
    inversion Hb. split; assumption.
Qed.

(** ** The calls of a frame *)

Lemma exec_app (s : GL.state) (l1 l2 : list GL.call) :
  GL.exec s (l1 ++ l2) = GL.exec (GL.exec s l1) l2.
Proof. unfold GL.exec. apply fold_left_app. Qed.

Lemma exec_cons (s : GL.state) (c : GL.call) (l : list GL.call) :
  GL.exec s (c :: l) = GL.exec (GL.step s c) l.
Proof. reflexivity. Qed.

Lemma vertices_app (l1 l2 : list GL.call) :
  forall s : GL.state,
  GL.vertices s (l1 ++ l2)
  = GL.vertices s l1 ++ GL.vertices (GL.exec s l1) l2.
Proof.
  induction l1 as [|c l1 IH]; intros s; [reflexivity|].
  destruct c; simpl; rewrite IH; reflexivity.
Qed.

Lemma drawn_points_app (s : GL.state) (l1 l2 : list GL.call) :
  drawn_points s (l1 ++ l2)
  = drawn_points s l1 ++ drawn_points (GL.exec s l1) l2.
Proof. unfold drawn_points. rewrite vertices_app. apply flat_map_app. Qed.

Lemma scan_app (l1 l2 : list GL.call) :
  forall inside : bool,
  GL.scan inside (l1 ++ l2)
  = match GL.scan inside l1 with
    | Some inside' => GL.scan inside' l2
    | None => None
    end.
Proof.
  induction l1 as [|c l1 IH]; intros inside; [reflexivity|].
  destruct c, inside; simpl; try rewrite IH; reflexivity.
Qed.

(** Runs of [glVertex3f] calls. *)
Lemma only_vertices_exec (l : list GL.call) :
  forallb GL.is_vertex l = true -> forall s, GL.exec s l = s.
Proof.
  induction l as [|c l IH]; intros H s; [reflexivity|].
  simpl in H. apply andb_prop in H. destruct H as [Hc Hl].
  destruct c; try discriminate Hc. rewrite exec_cons. apply IH, Hl.
Qed.

Lemma only_vertices_scan (l : list GL.call) :
  forallb GL.is_vertex l = true -> GL.scan true l = Some true.
Proof.
  induction l as [|c l IH]; intros H; [reflexivity|].
  simpl in H. apply andb_prop in H. destruct H as [Hc Hl].
  destruct c; try discriminate Hc. simpl. apply IH, Hl.
Qed.

Lemma only_vertices_lines (l : list GL.call) (s : GL.state) :
  forallb GL.is_vertex l = true -> GL.mode s = Some GL.LINES ->
  drawn_points s l = [].
Proof.
  intros H Hm. unfold drawn_points.
  induction l as [|c l IH]; [reflexivity|].
  simpl in H. apply andb_prop in H. destruct H as [Hc Hl].
  destruct c; try discriminate Hc. simpl. rewrite Hm. apply IH, Hl.
Qed.

Lemma only_vertices_filter (l : list GL.call) :
  forallb GL.is_vertex l = true -> filter GL.is_vertex l = l.
Proof.
  induction l as [|c l IH]; intros H; [reflexivity|].
  simpl in H. apply andb_prop in H. destruct H as [Hc Hl].
  simpl. rewrite Hc. rewrite IH by assumption. reflexivity.
Qed.

Lemma vertices_length (l : list GL.call) :
  forall s, length (GL.vertices s l) = length (filter GL.is_vertex l).
Proof.
  induction l as [|c l IH]; intros s; [reflexivity|].
  destruct c; simpl; rewrite IH; reflexivity.
Qed.

Lemma segment_only_vertices (a c : GL.xyz) :
  forallb GL.is_vertex (segment a c) = true.
Proof. destruct a as [[ax ay] az], c as [[cx cy] cz]. reflexivity. Qed.

Lemma segment_length (a c : GL.xyz) : length (segment a c) = 2%nat.
Proof. destruct a as [[ax ay] az], c as [[cx cy] cz]. reflexivity. Qed.

Lemma grid_loop_only_vertices (a c : Z -> GL.xyz) (n : Z) :
  forallb GL.is_vertex (grid_loop a c n) = true.
Proof.
  unfold grid_loop. induction (grid_lines n) as [|i l IH]; [reflexivity|].
  simpl. rewrite forallb_app, segment_only_vertices, IH. reflexivity.
Qed.

Lemma grid_loop_length (a c : Z -> GL.xyz) (n : Z) :
  length (grid_loop a c n) = (2 * length (grid_lines n))%nat.
Proof.
  unfold grid_loop. induction (grid_lines n) as [|i l IH]; [reflexivity|].
  simpl flat_map. rewrite length_app, segment_length, IH. simpl. lia.
Qed.

Lemma exec_vertices_app (v rest : list GL.call) (s : GL.state) :
  forallb GL.is_vertex v = true -> GL.exec s (v ++ rest) = GL.exec s rest.
Proof.
  intros H. rewrite exec_app. rewrite (only_vertices_exec v H).
  reflexivity.
Qed.

Lemma scan_vertices_app (v rest : list GL.call) :
  forallb GL.is_vertex v = true ->
  GL.scan true (v ++ rest) = GL.scan true rest.
Proof.
  intros H. rewrite scan_app. rewrite (only_vertices_scan v H).
  reflexivity.
Qed.

Lemma drawn_vertices_app (v rest : list GL.call) (s : GL.state) :
  forallb GL.is_vertex v = true -> GL.mode s = Some GL.LINES ->
  drawn_points s (v ++ rest) = drawn_points s rest.
Proof.
  intros H Hm.
  rewrite drawn_points_app.
  rewrite (only_vertices_lines v s H Hm), (only_vertices_exec v H).
  reflexivity.
Qed.

Lemma drawn_other (c : GL.call) (rest : list GL.call) (s : GL.state) :
  GL.is_vertex c = false ->
  drawn_points s (c :: rest) = drawn_points (GL.step s c) rest.
Proof. intros H. destruct c; try discriminate H; reflexivity. Qed.

Ltac vertex_run :=
  first [apply grid_loop_only_vertices | apply segment_only_vertices].

(** The state in which [renderGrid] leaves OpenGL when it draws, started
    outside [glBegin]/[glEnd]. *)
Lemma grid_calls_exec (rd : PointCloudRenderer) (nx ny nz : Z)
    (s : GL.state) :
  GL.mode s = None ->
  GL.exec s (grid_calls rd nx ny nz)
  = GL.mkState true false (GL.point_smooth s) f1 (GL.point_size s)
      (f0, f0, f1, f1) (GL.matrix_mode s) None.
Proof.
  intros Hm. destruct s as [dt bl ps lw pz cl mm md].
  cbn [GL.mode] in Hm. subst md.
  unfold grid_calls. cbv zeta.
  repeat first [ rewrite exec_cons
               | rewrite exec_vertices_app by vertex_run
               | progress cbn [app] ].
  reflexivity.
Qed.

Lemma grid_calls_scan (rd : PointCloudRenderer) (nx ny nz : Z) :
  GL.scan false (grid_calls rd nx ny nz) = Some false.
Proof.
  unfold grid_calls. cbv zeta.
  repeat first [ rewrite scan_vertices_app by vertex_run
               | progress cbn [app GL.scan] ].
  reflexivity.
Qed.

Lemma grid_calls_drawn (rd : PointCloudRenderer) (nx ny nz : Z)
    (s : GL.state) :
  GL.mode s <> Some GL.POINTS ->
  drawn_points s (grid_calls rd nx ny nz) = [].
Proof.
  intros Hm. destruct s as [dt bl ps lw pz cl mm md].
  cbn [GL.mode] in Hm.
  unfold grid_calls. cbv zeta.
  destruct md as [[|]|]; [|contradiction|];
    repeat first [ rewrite drawn_other by reflexivity
                 | rewrite drawn_vertices_app by (vertex_run || reflexivity)
                 | progress cbn [app] ];
    reflexivity.
Qed.

Lemma grid_lines_length (n : Z) : length (grid_lines n) = Z.to_nat (n + 1).
Proof.
  unfold grid_lines, labelled_lines.
  assert (G : forall fuel i, Z.of_nat fuel = n + 1 - i ->
              length (label_loop fuel i n 1) = fuel).
  { induction fuel as [|k IH]; intros i H; [reflexivity|].
    cbn [label_loop]. destruct (Z.leb_spec i n); [|lia].
    simpl. rewrite IH by lia. reflexivity. }
  destruct (Z.lt_ge_cases n 0) as [Hn|Hn].
  - replace (Z.to_nat (n + 1)) with 0%nat by lia. reflexivity.
  - apply G. lia.
Qed.

Lemma grid_calls_vertices (rd : PointCloudRenderer) (nx ny nz : Z)
    (s : GL.state) :
  length (GL.vertices s (grid_calls rd nx ny nz))
  = (4 * Z.to_nat (nx + 1) + 4 * Z.to_nat (ny + 1) + 4 * Z.to_nat (nz + 1)
     + 24)%nat.
Proof.
  rewrite vertices_length. unfold grid_calls. cbv zeta.
  repeat rewrite filter_app.
  repeat rewrite (only_vertices_filter (grid_loop _ _ _)) by vertex_run.
  repeat rewrite (only_vertices_filter (segment _ _)) by vertex_run.
  cbn [filter GL.is_vertex].
  repeat rewrite length_app.
  repeat rewrite grid_loop_length. repeat rewrite segment_length.
  repeat rewrite grid_lines_length. cbn [length]. lia.
Qed.

Lemma only_vertices_points (l : list GL.call) (s : GL.state) :
  forallb GL.is_vertex l = true -> GL.mode s = Some GL.POINTS ->
  length (drawn_points s l) = length l.
Proof.
  intros H Hm. unfold drawn_points.
  induction l as [|c l IH]; [reflexivity|].
  simpl in H. apply andb_prop in H. destruct H as [Hc Hl].
  destruct c; try discriminate Hc. simpl. rewrite Hm. simpl.
  f_equal. apply IH, Hl.
Qed.

Lemma drawn_vertices_points_app (v rest : list GL.call) (s : GL.state) :
  forallb GL.is_vertex v = true -> GL.mode s = Some GL.POINTS ->
  length (drawn_points s (v ++ rest))
  = (length v + length (drawn_points s rest))%nat.
Proof.
  intros H Hm.
  rewrite drawn_points_app, length_app.
  rewrite (only_vertices_points v s H Hm), (only_vertices_exec v H).
  reflexivity.
Qed.

(** Called inside an open [glBegin(GL_POINTS)], [renderGrid] has its
    first [glBegin(GL_LINES)] rejected, and the lines of the grid proper
    go out as points, up to the first [glEnd]. *)
Lemma grid_calls_drawn_inside_points (rd : PointCloudRenderer)
    (nx ny nz : Z) (s : GL.state) :
  GL.mode s = Some GL.POINTS ->
  length (drawn_points s (grid_calls rd nx ny nz))
  = (4 * Z.to_nat (nx + 1) + 4 * Z.to_nat (ny + 1)
     + 4 * Z.to_nat (nz + 1))%nat.
Proof.
  intros Hm. destruct s as [dt bl ps lw pz cl mm md].
  cbn [GL.mode] in Hm. subst md.
  unfold grid_calls. cbv zeta. cbn [app].
  do 6 (rewrite drawn_other by reflexivity).
  rewrite drawn_vertices_points_app by (vertex_run || reflexivity).
  rewrite drawn_vertices_points_app by (vertex_run || reflexivity).
  cbn [app]. rewrite drawn_other by reflexivity.
  rewrite drawn_vertices_points_app by (vertex_run || reflexivity).
  rewrite drawn_vertices_points_app by (vertex_run || reflexivity).
  cbn [app]. rewrite drawn_other by reflexivity.
  rewrite drawn_vertices_points_app by (vertex_run || reflexivity).
  rewrite drawn_vertices_points_app by (vertex_run || reflexivity).
  match goal with
  | |- context [drawn_points ?s0 ?l] =>
      assert (E : drawn_points s0 l = [])
  end.
  { repeat first [ rewrite drawn_other by reflexivity
                 | rewrite drawn_vertices_app by (vertex_run || reflexivity)
                 | progress cbn [app] ].
    reflexivity. }
  rewrite E. cbn [length].
  repeat rewrite grid_loop_length. repeat rewrite grid_lines_length. lia.
Qed.

(** [Camera::applyTransform] submits no vertex, opens no [glBegin], and
    leaves the matrix mode at [GL_MODELVIEW]. *)
Lemma applyTransform_exec (cm : cmath) (c : Camera) (width height : Z)
    (s : GL.state) :
  GL.mode s = None ->
  GL.exec s (applyTransform cm c width height)
  = GL.mkState (GL.depth_test s) (GL.blend s) (GL.point_smooth s)
      (GL.line_width s) (GL.point_size s) (GL.color s) GL.MODELVIEW None.
Proof.
  intros Hm. destruct s as [dt bl ps lw pz cl mm md].
  cbn [GL.mode] in Hm. subst md.
  unfold applyTransform. cbv zeta.
  destruct (eye cm c) as [[camX camY] camZ]. reflexivity.
Qed.

Lemma applyTransform_scan (cm : cmath) (c : Camera) (width height : Z) :
  GL.scan false (applyTransform cm c width height) = Some false.
Proof.
  unfold applyTransform. cbv zeta.
  destruct (eye cm c) as [[camX camY] camZ]. reflexivity.
Qed.

Lemma applyTransform_vertices (cm : cmath) (c : Camera) (width height : Z)
    (s : GL.state) :
  GL.vertices s (applyTransform cm c width height) = [].
Proof.
  unfold applyTransform. cbv zeta.
  destruct (eye cm c) as [[camX camY] camZ]. reflexivity.
Qed.

Lemma applyTransform_drawn (cm : cmath) (c : Camera) (width height : Z)
    (s : GL.state) :
  drawn_points s (applyTransform cm c width height) = [].
Proof. unfold drawn_points. rewrite applyTransform_vertices. reflexivity. Qed.

Lemma applyTransform_length (cm : cmath) (c : Camera) (width height : Z) :
  length (applyTransform cm c width height) = 6%nat.
Proof.
  unfold applyTransform. cbv zeta.
  destruct (eye cm c) as [[camX camY] camZ]. reflexivity.
Qed.

(** ** The point stage *)

Ltac some_inj H :=
  match type of H with
  | Some ?a = Some ?c =>
      let E := fresh in
      assert (E : a = c) by (clear - H; congruence); clear H; try subst c
  end.

Lemma point_body (rd : PointCloudRenderer) (p : Point3D) (s : GL.state) :
  GL.mode s = Some GL.POINTS ->
  let body :=
    map of_GLcall (color_call rd p ++ [glVertex3f (x p) (y p) (z p)]) in
  drawn_points s body = [(sample_color rd (GL.color s) p, (x p, y p, z p))]
  /\ GL.mode (GL.exec s body) = Some GL.POINTS
  /\ GL.color (GL.exec s body) = sample_color rd (GL.color s) p.
Proof.
  intros Hm. cbv zeta.
  destruct s as [dt bl sm lw psz col mm md]. cbn [GL.mode GL.color] in *.
  subst md. unfold color_call, sample_color, mode_color.
  destruct (colorMode rd =? COLOR_RGB); [repeat split|].
  destruct (colorMode rd =? COLOR_HEIGHT); [repeat split|].
  destruct (colorMode rd =? COLOR_INTENSITY); [repeat split|].
  destruct (colorMode rd =? COLOR_UNIFORM); repeat split.
Qed.

Lemma sample_color_inherit (rd : PointCloudRenderer) (inherited : GL.rgba)
    (p q : Point3D) :
  sample_color rd (sample_color rd inherited p) q
  = sample_color rd inherited q.
Proof.
  unfold sample_color, mode_color.
  destruct (colorMode rd =? COLOR_RGB); [reflexivity|].
  destruct (colorMode rd =? COLOR_HEIGHT).
  { destruct (height_color (y q) (minY rd) (maxY rd)) as [[cr cg] cb].
    reflexivity. }
  destruct (colorMode rd =? COLOR_INTENSITY); [reflexivity|].
  destruct (colorMode rd =? COLOR_UNIFORM); reflexivity.
Qed.

Lemma points_loop (rd : PointCloudRenderer) (ps : list Point3D) :
  forall s : GL.state,
  GL.mode s = Some GL.POINTS ->
  let loop :=
    map of_GLcall
      (flat_map (fun p => color_call rd p ++ [glVertex3f (x p) (y p) (z p)])
         ps) in
  drawn_points s loop
  = map (fun p => (sample_color rd (GL.color s) p, (x p, y p, z p))) ps
  /\ GL.exec s loop
     = GL.mkState (GL.depth_test s) (GL.blend s) (GL.point_smooth s)
         (GL.line_width s) (GL.point_size s) (GL.color (GL.exec s loop))
         (GL.matrix_mode s) (Some GL.POINTS)
  /\ GL.scan true loop = Some true.
Proof.
  cbv zeta. induction ps as [|p ps IH]; intros s Hm.
  - destruct s; cbn in *; subst; repeat split.
  - cbn [flat_map]. rewrite map_app, drawn_points_app, exec_app, scan_app.
    destruct (point_body rd p s Hm) as (Hd & Hm' & Hc).
    cbv zeta in Hd, Hm', Hc.
    destruct (IH _ Hm') as (IHd & IHe & IHs).
    assert (Hb : GL.scan true
                   (map of_GLcall
                      (color_call rd p ++ [glVertex3f (x p) (y p) (z p)]))
                 = Some true).
    { unfold color_call.
      destruct (colorMode rd =? COLOR_RGB); [reflexivity|].
      destruct (colorMode rd =? COLOR_HEIGHT); [reflexivity|].
      destruct (colorMode rd =? COLOR_INTENSITY); [reflexivity|].
      destruct (colorMode rd =? COLOR_UNIFORM); reflexivity. }
    split; [|split].
    + rewrite Hd, IHd, Hc. cbn [map app]. f_equal. apply map_ext.
      intros q. rewrite sample_color_inherit. reflexivity.
    + rewrite IHe at 1. clear.
      destruct s as [dt bl sm lw psz col mm md].
      unfold color_call.
      destruct (colorMode rd =? COLOR_RGB); [reflexivity|].
      destruct (colorMode rd =? COLOR_HEIGHT); [reflexivity|].
      destruct (colorMode rd =? COLOR_INTENSITY); [reflexivity|].
      destruct (colorMode rd =? COLOR_UNIFORM); reflexivity.
    + rewrite Hb. exact IHs.
Qed.

(** The point size after [glPointSize(pointSize)]: a size that is zero
    or negative is rejected and the size in force stays. *)
Lemma point_size_step (s : GL.state) (size : float) :
  GL.mode s = None ->
  GL.step s (GL.glPointSize size)
  = GL.mkState (GL.depth_test s) (GL.blend s) (GL.point_smooth s)
      (GL.line_width s)
      (if (size <=? f0)%f32 then GL.point_size s else size)
      (GL.color s) (GL.matrix_mode s) None.
Proof.
  intros Hm. destruct s as [dt bl sm lw psz col mm md].
  cbn [GL.mode] in Hm. subst md.
  cbn [GL.step GL.step_outside GL.mode GL.depth_test GL.blend
       GL.point_smooth GL.line_width GL.point_size GL.color
       GL.matrix_mode].
  destruct (size <=? f0)%f32; reflexivity.
Qed.

Lemma render_points_stage (rd : PointCloudRenderer) (s : GL.state) :
  pointCount rd <> 0%nat ->
  GL.mode s = None ->
  let stage := map of_GLcall (render_points rd) in
  drawn_points s stage
  = map (fun p => (sample_color rd (GL.color s) p, (x p, y p, z p)))
      (points rd)
  /\ GL.exec s stage
     = GL.mkState true (GL.blend s) false (GL.line_width s)
         (if (pointSize rd <=? f0)%f32 then GL.point_size s
          else pointSize rd)
         (GL.color (GL.exec s stage)) (GL.matrix_mode s) None
  /\ GL.scan false stage = Some false.
Proof.
  intros Hn Hm. cbv zeta. unfold render_points.
  destruct (Nat.eqb_spec (pointCount rd) 0) as [E|_]; [contradiction|].
  rewrite !map_app. cbn [map of_GLcall app].
  set (loop := map of_GLcall (flat_map _ (points rd))).
  set (s1 := GL.mkState true (GL.blend s) true (GL.line_width s)
               (if (pointSize rd <=? f0)%f32 then GL.point_size s
                else pointSize rd)
               (GL.color s) (GL.matrix_mode s) (Some GL.POINTS)).
  assert (S1 : GL.step
                 (GL.step
                    (GL.step (GL.step s (GL.glEnable GL.DEPTH_TEST))
                       (GL.glEnable GL.POINT_SMOOTH))
                    (GL.glPointSize (pointSize rd)))
                 (GL.glBegin GL.POINTS) = s1).
  { rewrite point_size_step.
    - destruct s as [dt bl sm lw psz col mm md].
      cbn [GL.mode] in Hm. subst md. reflexivity.
    - destruct s as [dt bl sm lw psz col mm md].
      cbn [GL.mode] in Hm. subst md. reflexivity. }
  destruct (points_loop rd (points rd) s1 eq_refl) as (Hd & He & Hs).
  cbv zeta in Hd, He, Hs. fold loop in Hd, He, Hs.
  split; [|split].
  - do 4 (rewrite drawn_other by reflexivity).
    rewrite S1.
    rewrite drawn_points_app, Hd. rewrite app_nil_r. reflexivity.
  - rewrite !exec_cons. rewrite S1.
    rewrite exec_app. rewrite He at 1. reflexivity.
  - cbn [GL.scan]. rewrite scan_app, Hs. reflexivity.
Qed.

(** A frame: the six calls of the camera transform, then the rest. *)
Lemma render_calls (cm : cmath) (rd : PointCloudRenderer)
    (width height : Z) (calls : list GL.call) :
  render cm rd width height = Some calls ->
  exists grid : list GL.call,
    renderGrid rd = Some grid
    /\ calls = applyTransform cm (camera rd) width height
               ++ grid ++ map of_GLcall (render_points rd).
Proof.
  unfold render. destruct (renderGrid rd) as [grid|]; [|discriminate].
  intros H. exists grid. split; [reflexivity|]. congruence.
Qed.

(** X3: a frame that starts outside [glBegin]/[glEnd] draws each stored
    sample exactly once, as a point at its own position, in the order of
    the sequence, whatever the colour mode and the camera; the calls of
    the camera transform and the lines of the grid are never submitted
    as points.  In the four modes of the enumeration the colour of a
    sample is the one the mode gives it.  For any other mode [render]
    selects no colour: all samples then have the colour that was current
    before the point stage, which is the blue of the Z axis,
    [(0, 0, 1, 1)], when the grid was drawn in this frame, and the
    colour the frame started with otherwise. *)
Theorem frame_draws_samples (cm : cmath) (rd : PointCloudRenderer)
    (width height : Z) (s : GL.state) (calls : list GL.call) :
  GL.mode s = None ->
  pointCount rd = length (points rd) ->
  render cm rd width height = Some calls ->
  drawn_points s calls
  = map (fun p =>
           (sample_color rd
              (if grid_shown rd then (f0, f0, f1, f1) else GL.color s) p,
            (x p, y p, z p)))
      (points rd).
Proof.
  intros Hm Hc Hr.
  destruct (render_calls _ _ _ _ _ Hr) as (grid & Hg & ->). clear Hr.
  rewrite drawn_points_app, applyTransform_drawn, app_nil_l.
  rewrite (applyTransform_exec cm (camera rd) width height s Hm).
  fold (after_transform s). set (s0 := after_transform s).
  assert (M0 : GL.mode s0 = None) by reflexivity.
  assert (C0 : GL.color s0 = GL.color s) by reflexivity.
  clearbody s0.
  assert (P : forall s1 : GL.state,
            GL.mode s1 = None ->
            drawn_points s1 (map of_GLcall (render_points rd))
            = map (fun p =>
                     (sample_color rd (GL.color s1) p, (x p, y p, z p)))
                (points rd)).
  { intros s1 M1. destruct (Nat.eq_dec (pointCount rd) 0) as [E|N].
    - unfold render_points. rewrite E. rewrite E in Hc.
      destruct (points rd); [reflexivity | discriminate Hc].
    - apply (render_points_stage rd s1 N M1). }
  unfold renderGrid in Hg. destruct (grid_shown rd).
  - destruct (line_counts rd) as [[[nx ny] nz]|]; [|discriminate Hg].
    cbv beta iota in Hg. some_inj Hg.
    rewrite drawn_points_app, grid_calls_drawn by (rewrite M0; discriminate).
    rewrite (grid_calls_exec rd nx ny nz s0 M0).
    rewrite P by reflexivity. reflexivity.
  - cbv beta iota in Hg; some_inj Hg. cbn [app].
    rewrite P by exact M0. rewrite C0. reflexivity.
Qed.

Ltac gl_fields :=
  cbn [GL.depth_test GL.mode GL.blend GL.line_width GL.point_smooth
       GL.point_size GL.matrix_mode].

(** X4: every frame that [render] produces keeps the calling discipline
    of OpenGL (vertices only inside a [glBegin]/[glEnd] pair, pairs
    neither nested nor left open, no change of matrix, capability, width
    or size inside a pair).  It starts with the six calls of
    [applyTransform], and issues no call after them exactly when the
    grid is not drawn and the point count is zero.  Started outside
    [glBegin]/[glEnd], it ends outside, with the matrix mode at
    [GL_MODELVIEW], and the state is forced, not restored: whenever the
    grid is drawn, blending is left off and the line width at 1 whatever
    they were before; whenever the grid or points are drawn, depth
    testing is left on; whenever points are drawn, point smoothing is
    left off, and the point size is the renderer's unless that is zero
    or negative, which [glPointSize] rejects. *)
Theorem frame_discipline_and_state (cm : cmath) (rd : PointCloudRenderer)
    (width height : Z) (calls : list GL.call) :
  render cm rd width height = Some calls ->
  GL.disciplined calls = true
  /\ length (applyTransform cm (camera rd) width height) = 6%nat
  /\ (exists rest : list GL.call,
        calls = applyTransform cm (camera rd) width height ++ rest
        /\ (rest = [] <-> grid_shown rd = false /\ pointCount rd = 0%nat))
  /\ forall s : GL.state,
       GL.mode s = None ->
       let s' := GL.exec s calls in
       GL.mode s' = None
       /\ GL.matrix_mode s' = GL.MODELVIEW
       /\ (grid_shown rd = true \/ pointCount rd <> 0%nat ->
           GL.depth_test s' = true)
       /\ (grid_shown rd = false -> pointCount rd = 0%nat ->
           GL.depth_test s' = GL.depth_test s)
       /\ (grid_shown rd = true ->
           GL.blend s' = false /\ GL.line_width s' = f1)
       /\ (grid_shown rd = false ->
           GL.blend s' = GL.blend s /\ GL.line_width s' = GL.line_width s)
       /\ (pointCount rd <> 0%nat ->
           GL.point_smooth s' = false
           /\ GL.point_size s'
              = if (pointSize rd <=? f0)%f32 then GL.point_size s
                else pointSize rd)
       /\ (pointCount rd = 0%nat ->
           GL.point_smooth s' = GL.point_smooth s
           /\ GL.point_size s' = GL.point_size s).
Proof.
  intros Hr.
  destruct (render_calls _ _ _ _ _ Hr) as (grid & Hg & ->). clear Hr.
  unfold renderGrid in Hg.
  assert (T : forall s : GL.state, GL.mode s = None ->
              GL.exec s (applyTransform cm (camera rd) width height)
              = after_transform s).
  { intros s Hm. apply applyTransform_exec, Hm. }
  destruct (Nat.eq_dec (pointCount rd) 0) as [E|N].
  - assert (Hp : render_points rd = []).
    { unfold render_points. rewrite E. reflexivity. }
    rewrite Hp. cbn [map]. rewrite app_nil_r.
    destruct (grid_shown rd).
    + destruct (line_counts rd) as [[[nx ny] nz]|]; [|discriminate Hg].
      cbv beta iota in Hg; some_inj Hg.
      split.
      { unfold GL.disciplined.
        rewrite scan_app, applyTransform_scan, grid_calls_scan.
        reflexivity. }
      split; [apply applyTransform_length|]. split.
      * exists (grid_calls rd nx ny nz). split; [reflexivity|].
        split; [intros H; discriminate H | intros [H _]; discriminate H].
      * intros s Hm. cbv zeta. rewrite exec_app, (T s Hm).
        rewrite grid_calls_exec by reflexivity.
        unfold after_transform. gl_fields.
        repeat split; intros; try discriminate; try contradiction.
    + cbv beta iota in Hg; some_inj Hg. rewrite app_nil_r.
      split.
      { unfold GL.disciplined. rewrite applyTransform_scan. reflexivity. }
      split; [apply applyTransform_length|]. split.
      * exists []. split; [rewrite app_nil_r; reflexivity | tauto].
      * intros s Hm. cbv zeta. rewrite (T s Hm).
        unfold after_transform. gl_fields.
        repeat split; intros; try discriminate; try contradiction;
          try reflexivity.
        match goal with H : _ \/ _ |- _ => destruct H as [H|H] end;
          [discriminate | contradiction].
  - destruct (render_points_stage rd
                (GL.mkState true false true f1 f1 (f0, f0, f1, f1)
                   GL.MODELVIEW None) N eq_refl)
      as (_ & _ & Hs). cbv zeta in Hs.
    assert (Hne : map of_GLcall (render_points rd) <> []).
    { unfold render_points.
      destruct (Nat.eqb_spec (pointCount rd) 0); [contradiction|].
      discriminate. }
    destruct (grid_shown rd).
    + destruct (line_counts rd) as [[[nx ny] nz]|]; [|discriminate Hg].
      cbv beta iota in Hg; some_inj Hg.
      split.
      { unfold GL.disciplined.
        rewrite scan_app, applyTransform_scan.
        rewrite scan_app, grid_calls_scan, Hs. reflexivity. }
      split; [apply applyTransform_length|]. split.
      * exists (grid_calls rd nx ny nz ++ map of_GLcall (render_points rd)).
        split; [reflexivity|].
        split; [|intros [H _]; discriminate H].
        intros H. apply app_eq_nil in H. destruct H as [_ H].
        contradiction.
      * intros s Hm. cbv zeta. rewrite exec_app, (T s Hm).
        rewrite exec_app, grid_calls_exec by reflexivity.
        unfold after_transform. gl_fields.
        match goal with
        | |- context [GL.exec ?s0 (map of_GLcall (render_points rd))] =>
            destruct (render_points_stage rd s0 N eq_refl) as (_ & He & _)
        end.
        cbv zeta in He. rewrite He. gl_fields.
        repeat split; intros; try discriminate; try contradiction.
    + cbv beta iota in Hg; some_inj Hg. cbn [app].
      split.
      { unfold GL.disciplined.
        rewrite scan_app, applyTransform_scan, Hs. reflexivity. }
      split; [apply applyTransform_length|]. split.
      * exists (map of_GLcall (render_points rd)).
        split; [reflexivity|].
        split; [intros H; contradiction | intros [_ H]; contradiction].
      * intros s Hm. cbv zeta. rewrite exec_app, (T s Hm).
        destruct (render_points_stage rd (after_transform s) N eq_refl)
          as (_ & He & _).
        cbv zeta in He. rewrite He. unfold after_transform. gl_fields.
        repeat split; intros; try discriminate; try contradiction.
Qed.

(** X5: what the grid costs.  When [renderGrid] draws, it submits
    [4 * (nx + 1) + 4 * (ny + 1) + 4 * (nz + 1) + 24] vertices for line
    counts [nx], [ny], [nz]: along each axis two loops of [n + 1] lines
    with two vertices each (a loop over [i = 0 .. n] runs [n + 1] times,
    and not at all for a negative count), nine edges of the box and
    three axes at the corner.  None of them is submitted as a point,
    unless [renderGrid] is called inside an open [glBegin(GL_POINTS)]:
    there its first [glBegin(GL_LINES)] is rejected, and the vertices of
    the six loops go out as points. *)
Theorem renderGrid_vertex_count (rd : PointCloudRenderer)
    (grid : list GL.call) (s : GL.state) :
  renderGrid rd = Some grid ->
  (grid_shown rd = false /\ grid = [])
  \/ (exists nx ny nz : Z,
        grid_shown rd = true /\ line_counts rd = Some (nx, ny, nz)
        /\ length (GL.vertices s grid)
           = (4 * Z.to_nat (nx + 1) + 4 * Z.to_nat (ny + 1)
              + 4 * Z.to_nat (nz + 1) + 24)%nat
        /\ (GL.mode s <> Some GL.POINTS ->
            length (drawn_points s grid) = 0%nat)
        /\ (GL.mode s = Some GL.POINTS ->
            length (drawn_points s grid)
            = (4 * Z.to_nat (nx + 1) + 4 * Z.to_nat (ny + 1)
               + 4 * Z.to_nat (nz + 1))%nat)).
Proof.
  unfold renderGrid. destruct (grid_shown rd).
  - destruct (line_counts rd) as [[[nx ny] nz]|]; [|discriminate].
    intros H. some_inj H.
    right. exists nx, ny, nz.
    split; [reflexivity|]. split; [reflexivity|]. split; [|split].
    + apply grid_calls_vertices.
    + intros Hm. rewrite grid_calls_drawn by exact Hm. reflexivity.
    + intros Hm. apply grid_calls_drawn_inside_points, Hm.
  - intros H. some_inj H. left. split; reflexivity.
Qed.

(** ** Labels and grid lines *)








(** ** Clouds without extent *)

Lemma eqb_refl (v : float) : is_nan v = false -> eqb v v = true.
Proof. intros H. apply leb_antisym_eqb; apply leb_refl, H. Qed.

Lemma seq_constant (vs : list float) (v : float) :
  vs <> [] -> is_finite v = true -> Forall (fun w => w = v) vs ->
  seq_min vs = v /\ seq_max vs = v.
Proof.
  intros Hne Hv Hall.
  assert (Hf : Forall (fun w => is_finite w = true) vs).
  { eapply Forall_impl; [|exact Hall]. intros w ->. exact Hv. }
  rewrite Forall_forall in Hall. split; apply Hall.
  - apply seq_min_attained; assumption.
  - apply seq_max_attained; assumption.
Qed.

Lemma flat_extent (mn mx v : float) :
  is_finite v = true -> mn = v -> mx = v ->
  ((mx - mn) =? f0)%f32 = true /\ (mx =? mn)%f32 = true.
Proof.
  intros Hv -> ->. split.
  - rewrite sub_self; [reflexivity | apply is_finite_not_nan, Hv |].
    destruct v; try discriminate Hv; reflexivity.
  - apply eqb_refl, is_finite_not_nan, Hv.
Qed.

Lemma flat_cloud_bounds (rd : PointCloudRenderer) (ps : list Point3D) :
  flat_cloud ps ->
  let rd' := setPointCloud rd ps in
  (((maxX rd' - minX rd') =? f0)%f32 = true
   /\ (maxX rd' =? minX rd')%f32 = true)
  \/ (((maxY rd' - minY rd') =? f0)%f32 = true
      /\ (maxY rd' =? minY rd')%f32 = true)
  \/ (((maxZ rd' - minZ rd') =? f0)%f32 = true
      /\ (maxZ rd' =? minZ rd')%f32 = true).
Proof.
  intros Hflat. cbv zeta.
  pose proof (setPointCloud_bounds rd ps) as Hb.
  destruct Hflat as [->|(v & Hv & Hax)].
  - apply bounds_fields in Hb. destruct Hb as (-> & -> & _).
    left. split; reflexivity.
  - destruct ps as [|p ps].
    { apply bounds_fields in Hb. destruct Hb as (-> & -> & _).
      left. split; reflexivity. }
    unfold bbox in Hb. apply bounds_fields in Hb.
    destruct Hb as (E1 & E2 & E3 & E4 & E5 & E6).
    assert (K : forall f : Point3D -> float,
              Forall (fun q => f q = v) (p :: ps) ->
              seq_min (map f (p :: ps)) = v /\ seq_max (map f (p :: ps)) = v).
    { intros f Hall. apply seq_constant; [discriminate | assumption |].
      apply Forall_map. exact Hall. }
    destruct Hax as [H|[H|H]]; destruct (K _ H) as [Kmin Kmax].
    + left. apply (flat_extent _ _ v Hv); congruence.
    + right. left. apply (flat_extent _ _ v Hv); congruence.
    + right. right. apply (flat_extent _ _ v Hv); congruence.
Qed.

(** X7: a cloud without extent along some axis gets neither grid nor
    axis labels.  After [setPointCloud] with the empty sequence, with a
    single finite sample, or with any samples that share one finite
    coordinate (a planar scan, say), [renderGrid] issues no call, so the
    frame consists of the camera transform and the point stage alone,
    and [renderAxisLabels] requests no label in any of its three
    versions. *)
Theorem flat_cloud_no_grid_no_labels (rd : PointCloudRenderer)
    (ps : list Point3D) :
  flat_cloud ps ->
  let rd' := setPointCloud rd ps in
  renderGrid rd' = Some []
  /\ (forall (cm : cmath) (width height : Z),
      render cm rd' width height
      = Some (applyTransform cm (camera rd') width height
              ++ map of_GLcall (render_points rd')))
  /\ label_positions rd' = Some ([], [], [])
  /\ Part003.renderAxisLabels rd' = Some ([], [], [])
  /\ Part002.renderAxisLabels rd' = Some ([], [])
  /\ Part001.renderAxisLabels rd' = Some ([], [], []).
Proof.
  intros Hflat. cbv zeta.
  pose proof (flat_cloud_bounds rd ps Hflat) as H. cbv zeta in H.
  set (rd' := setPointCloud rd ps) in *.
  assert (Hg : grid_shown rd' = false).
  { unfold grid_shown.
    destruct H as [[H _]|[[H _]|[H _]]]; rewrite H;
      rewrite ?orb_true_r, ?orb_true_l; cbn [negb]; apply andb_false_r. }
  assert (Hl : labels_wanted rd' = false).
  { unfold labels_wanted.
    destruct H as [[_ H]|[[_ H]|[_ H]]]; rewrite H;
      rewrite ?orb_true_r, ?orb_true_l; cbn [negb]; apply andb_false_r. }
  unfold render, renderGrid, label_positions, Part003.renderAxisLabels,
    Part002.renderAxisLabels, Part001.renderAxisLabels.
  rewrite Hg, Hl.
  split; [reflexivity|]. split; [intros cm width height; reflexivity|].
  repeat split.
Qed.

(** ** How many labels *)

Lemma label_loop_closed (k n : Z) (fuel : nat) :
  0 < k ->
  forall i : Z,
  n - i < Z.of_nat fuel -> i <= n ->
  label_loop fuel i n k
  = map (fun j => i + Z.of_nat j * k)
      (seq 0 (Z.to_nat ((n - i) / k + 1))).
Proof.
  intros Hk. induction fuel as [|f IH]; intros i Hf Hi; [lia|].
  cbn [label_loop]. destruct (Z.leb_spec i n) as [_|]; [|lia].
  destruct (Z.le_gt_cases (i + k) n) as [Hn|Hn].
  - rewrite IH by lia.
    replace (n - i) with (n - (i + k) + 1 * k) by lia.
    rewrite Z.div_add by lia.
    assert (0 <= (n - (i + k)) / k) by (apply Z.div_pos; lia).
    replace (Z.to_nat ((n - (i + k)) / k + 1 + 1))
      with (S (Z.to_nat ((n - (i + k)) / k + 1))) by lia.
    cbn [seq map]. f_equal; [lia|].
    rewrite <- seq_shift, map_map. apply map_ext. intros j. lia.
  - rewrite Z.div_small by lia.
    change (Z.to_nat (0 + 1)) with 1%nat. cbn [seq map].
    replace (i + Z.of_nat 0 * k) with i by lia. f_equal.
    destruct f as [|f]; cbn [label_loop]; [reflexivity|].
    destruct (Z.leb_spec (i + k) n); [lia | reflexivity].
Qed.

Lemma labelled_lines_closed (n k : Z) :
  0 <= n -> 0 < k ->
  labelled_lines n k
  = map (fun j => Z.of_nat j * k) (seq 0 (Z.to_nat (n / k + 1))).
Proof.
  intros Hn Hk. unfold labelled_lines.
  rewrite (label_loop_closed k n) by lia.
  rewrite Z.sub_0_r. apply map_ext. intros j. lia.
Qed.

(** X8: which grid lines get a label, and how many.  Along an axis with
    a line count [n >= 0] the labelled lines are [0, skip, 2 * skip, ...]
    in increasing order, [n / skip + 1] of them (integer division); line
    0, at the minimum corner, is always labelled.  In src/unnamed/part_003
    that makes [n + 1] labels up to a count of 10 and [n / 2 + 1] beyond,
    so halving does not bound the number of labels; in
    src/unnamed/part_002 it makes [n + 1] up to 15, [n / 2 + 1] up to 30
    and [n / 4 + 1] beyond. *)
Theorem label_count (n : Z) :
  0 <= n ->
  (forall skip : Z, 0 < skip ->
     labelled_lines n skip
     = map (fun j => Z.of_nat j * skip) (seq 0 (Z.to_nat (n / skip + 1)))
     /\ In 0 (labelled_lines n skip))
  /\ Z.of_nat (length (labelled_lines n (Part003.skip n)))
     = (if n >? 10 then n / 2 + 1 else n + 1)
  /\ Z.of_nat (length (labelled_lines n (Part002.skip n)))
     = (if n >? 30 then n / 4 + 1 else if n >? 15 then n / 2 + 1 else n + 1).
Proof.
  intros Hn.
  assert (L : forall k, 0 < k ->
            Z.of_nat (length (labelled_lines n k)) = n / k + 1).
  { intros k Hk. rewrite labelled_lines_closed by assumption.
    rewrite length_map, length_seq.
    assert (0 <= n / k) by (apply Z.div_pos; lia). lia. }
  split; [|split].
  - intros k Hk. split; [apply labelled_lines_closed; assumption|].
    apply (labelled_lines_every_kth n k Hk).
    split; [lia | apply Z.mod_0_l; lia].
  - unfold Part003.skip. destruct (n >? 10); rewrite L by lia;
      [reflexivity | rewrite Z.div_1_r; reflexivity].
  - unfold Part002.skip. cbv zeta.
    destruct (n >? 30); [rewrite L by lia; reflexivity|].
    destruct (n >? 15); rewrite L by lia;
      [reflexivity | rewrite Z.div_1_r; reflexivity].
Qed.

(** ** A camera with a NaN field *)

Lemma zoom_nan_distance (c : Camera) (delta : float) :
  is_nan (distance c) = true -> is_nan (distance (zoom c delta)) = true.
Proof.
  intros H. unfold zoom. cbn [distance].
  destruct (distance c); try discriminate H. reflexivity.
Qed.

Lemma orbit_nan (c : Camera) (deltaYaw deltaPitch : float) :
  (is_nan (yaw c) = true -> is_nan (yaw (orbit c deltaYaw deltaPitch)) = true)
  /\ (is_nan (pitch c) = true ->
      is_nan (pitch (orbit c deltaYaw deltaPitch)) = true).
Proof.
  unfold orbit. cbn [yaw pitch]. split; intros H.
  - destruct (yaw c); try discriminate H. reflexivity.
  - destruct (pitch c); try discriminate H. reflexivity.
Qed.

(** X9: a NaN in the camera is never repaired by the mouse.  Once the
    distance is NaN every further [zoom] leaves it NaN (neither clamp
    fires), and once the yaw or the pitch is NaN every further [orbit]
    leaves it NaN, whatever the deltas; zooming does not touch a NaN yaw
    or pitch, nor orbiting a NaN distance.  [reset] repairs all three,
    a view preset repairs yaw and pitch but keeps a NaN distance. *)
Theorem nan_camera_stays_nan (c : Camera) :
  (is_nan (distance c) = true ->
   forall deltas, is_nan (distance (zooms c deltas)) = true)
  /\ (is_nan (yaw c) = true ->
      forall deltas, is_nan (yaw (orbits c deltas)) = true)
  /\ (is_nan (pitch c) = true ->
      forall deltas, is_nan (pitch (orbits c deltas)) = true)
  /\ (forall deltas, distance (orbits c deltas) = distance c)
  /\ (forall deltas,
        yaw (zooms c deltas) = yaw c /\ pitch (zooms c deltas) = pitch c)
  /\ is_nan (distance (reset c)) = false
  /\ is_nan (yaw (reset c)) = false /\ is_nan (pitch (reset c)) = false
  /\ (forall preset,
        In preset [setTopView; setFrontView; setSideView; setIsometricView] ->
        is_nan (yaw (preset c)) = false /\ is_nan (pitch (preset c)) = false
        /\ distance (preset c) = distance c).
Proof.
  split; [|split; [|split; [|split; [|split]]]].
  - intros H deltas. revert c H. unfold zooms.
    induction deltas as [|d ds IH]; intros c H; [exact H|].
    simpl. apply IH, zoom_nan_distance, H.
  - intros H deltas. revert c H. unfold orbits.
    induction deltas as [|d ds IH]; intros c H; [exact H|].
    simpl. apply IH, orbit_nan, H.
  - intros H deltas. revert c H. unfold orbits.
    induction deltas as [|d ds IH]; intros c H; [exact H|].
    simpl. apply IH, orbit_nan, H.
  - intros deltas. revert c. unfold orbits.
    induction deltas as [|d ds IH]; intros c; [reflexivity|].
    simpl. rewrite IH. reflexivity.
  - intros deltas. revert c. unfold zooms.
    induction deltas as [|d ds IH]; intros c; [split; reflexivity|].
    simpl. destruct (IH (zoom c d)) as [-> ->]. split; reflexivity.
  - split; [reflexivity|]. split; [reflexivity|]. split; [reflexivity|].
    intros preset [<-|[<-|[<-|[<-|[]]]]]; repeat split.
Qed.

(** ** The distance that [setPointCloud] leaves *)

Lemma extent_number (mn mx : float) :
  leb mn FLT_MAX = true -> leb FLT_LOWEST mx = true ->
  is_nan (mx - mn)%f32 = false.
Proof.
  intros H1 H2.
  destruct mx as [s1|s1| |s1 m1 e1], mn as [s2|s2| |s2 m2 e2];
    try discriminate H1; try discriminate H2;
    try destruct s1; try destruct s2;
    try discriminate H1; try discriminate H2; try reflexivity;
    apply binary_normalize_not_nan.
Qed.

Lemma bbox_extents_numbers (ps : list Point3D) :
  let '(a1, a2, a3, a4, a5, a6) := bbox ps in
  is_nan (a2 - a1)%f32 = false /\ is_nan (a4 - a3)%f32 = false
  /\ is_nan (a6 - a5)%f32 = false.
Proof.
  unfold bbox. destruct ps as [|p ps]; [repeat split|].
  unfold seq_min, seq_max.
  repeat split; apply extent_number;
    first [ apply fold_min_le_init; reflexivity
          | apply fold_max_ge_init; reflexivity ].
Qed.

Lemma setPointCloud_distance_number (rd : PointCloudRenderer)
    (ps : list Point3D) :
  is_nan (distance (camera (setPointCloud rd ps))) = false.
Proof.
  rewrite setPointCloud_closed.
  pose proof (bbox_extents_numbers ps) as H.
  destruct (bbox ps) as [[[[[a1 a2] a3] a4] a5] a6].
  destruct H as (H1 & H2 & H3).
  cbn [camera]. unfold fitted_camera. cbn [distance].
  apply mul_not_nan; try reflexivity.
  - destruct (std_max3_choice (a2 - a1) (a4 - a3) (a6 - a5))%f32
      as [->|[->| ->]]; assumption.
  - apply andb_false_r.
  - apply andb_false_r.
Qed.

Lemma finite_target (mn mx : float) :
  is_finite mn = true -> is_finite mx = true ->
  is_nan ((mn + mx) * f0_5)%f32 = false.
Proof.
  intros H1 H2. apply mul_not_nan; try reflexivity.
  - apply add_not_nan; try (apply is_finite_not_nan; assumption).
    destruct mn; try discriminate H1; reflexivity.
  - apply andb_false_r.
  - apply andb_false_r.
Qed.

Lemma bbox_finite (ps : list Point3D) :
  Forall finite_sample ps ->
  let '(a1, a2, a3, a4, a5, a6) := bbox ps in
  is_finite a1 = true /\ is_finite a2 = true /\ is_finite a3 = true
  /\ is_finite a4 = true /\ is_finite a5 = true /\ is_finite a6 = true.
Proof.
  intros Hall. unfold bbox. destruct ps as [|p ps]; [repeat split|].
  assert (K : forall f : Point3D -> float,
            (forall q, finite_sample q -> is_finite (f q) = true) ->
            is_finite (seq_min (map f (p :: ps))) = true
            /\ is_finite (seq_max (map f (p :: ps))) = true).
  { intros f Hf.
    assert (Hfin : Forall (fun v => is_finite v = true) (map f (p :: ps))).
    { apply Forall_map. eapply Forall_impl; [|exact Hall]. exact Hf. }
    rewrite Forall_forall in Hfin.
    split; apply Hfin;
      [apply seq_min_attained | apply seq_max_attained];
      try discriminate; apply Forall_forall; exact Hfin. }
  destruct (K x) as [X1 X2]; [intros q Hq; apply Hq|].
  destruct (K y) as [Y1 Y2]; [intros q Hq; apply Hq|].
  destruct (K z) as [Z1 Z2]; [intros q Hq; apply Hq|].
  repeat split; assumption.
Qed.

(** X10: [setPointCloud] never leaves a NaN distance, whatever the
    samples (NaN and infinite coordinates included): the running minimum
    stays at or below [max()] and the running maximum at or above
    [lowest()], so no extent is NaN.  The distance can still lie outside
    [[0.1, 1000]]; the next [zoom] whose factor [1 - delta * 0.1f] is
    finite and not zero brings it back inside, as does one wheel notch
    in either direction.  When all samples are finite the bounds are
    finite and the target is not NaN either. *)
Theorem setPointCloud_then_zoom (rd : PointCloudRenderer)
    (ps : list Point3D) :
  let c := camera (setPointCloud rd ps) in
  is_nan (distance c) = false
  /\ (forall delta : float,
        is_finite (f1 - delta * f0_1)%f32 = true ->
        is_zero (f1 - delta * f0_1)%f32 = false ->
        distance_in_range (distance (zoom c delta)))
  /\ distance_in_range (distance (zoom c f1))
  /\ distance_in_range (distance (zoom c (- f1)%f32))
  /\ (Forall finite_sample ps ->
      is_nan (targetX c) = false /\ is_nan (targetY c) = false
      /\ is_nan (targetZ c) = false).
Proof.
  cbv zeta. pose proof (setPointCloud_distance_number rd ps) as Hd.
  assert (K : forall delta : float,
            is_finite (f1 - delta * f0_1)%f32 = true ->
            is_zero (f1 - delta * f0_1)%f32 = false ->
            distance_in_range
              (distance (zoom (camera (setPointCloud rd ps)) delta))).
  { intros delta Hf Hz. apply zoom_in_range_of_number.
    apply mul_not_nan; [assumption | apply is_finite_not_nan, Hf | |].
    - destruct (f1 - delta * f0_1)%f32; try discriminate Hf;
        apply andb_false_r.
    - rewrite Hz. apply andb_false_r. }
  split; [assumption|]. split; [exact K|].
  split; [apply K; reflexivity|]. split; [apply K; reflexivity|].
  intros Hall. pose proof (bbox_finite ps Hall) as Hb.
  rewrite setPointCloud_closed.
  destruct (bbox ps) as [[[[[a1 a2] a3] a4] a5] a6].
  destruct Hb as (H1 & H2 & H3 & H4 & H5 & H6).
  cbn [camera]. unfold fitted_camera. cbn [targetX targetY targetZ].
  repeat split; apply finite_target; assumption.
Qed.

(** ** Zooming in past the minimum *)

Lemma binary_round_aux_sign (pr em : Z) (sx : bool) (mx ex : Z)
    (lx : location) :
  0 <= mx -> signbit (binary_round_aux pr em sx mx ex lx) = Some sx.
Proof.
  intros H. unfold binary_round_aux.
  pose proof (shr_fexp_nonneg pr em mx ex lx H) as H1.
  destruct (shr_fexp pr em mx ex lx) as [mrs1 e1]; simpl in H1.
  pose proof (shr_fexp_nonneg pr em
    (round_nearest_even (shr_m mrs1) (loc_of_shr_record mrs1)) e1 loc_Exact
    (round_nearest_even_nonneg _ _ H1)) as H2.
  destruct (shr_fexp pr em _ e1 loc_Exact) as [mrs2 e2]; simpl in H2.
  destruct (shr_m mrs2) as [|p|p]; try reflexivity.
  - destruct (e2 <=? em - pr); reflexivity.
  - lia.
Qed.

Lemma mul_sign (a c : float) (sa sc : bool) :
  signbit a = Some sa -> signbit c = Some sc ->
  is_nan (a * c)%f32 = false -> signbit (a * c)%f32 = Some (xorb sa sc).
Proof.
  destruct a as [s1|s1| |s1 m1 e1], c as [s2|s2| |s2 m2 e2];
    cbn [signbit]; intros Ha Hc Hn; try discriminate;
    injection Ha as <-; injection Hc as <-; try reflexivity.
  apply binary_round_aux_sign. lia.
Qed.

Lemma below_minimum (v : float) :
  signbit v = Some true \/ is_zero v = true -> (v <? f0_1)%f32 = true.
Proof.
  destruct v as [s|s| |s m e]; cbn [signbit is_zero];
    intros [H|H]; try discriminate H; try (injection H as ->);
    reflexivity.
Qed.

(** X11: zooming in cannot pass the minimum or flip the camera.  From
    any distance in [[0.1, 1000]], a [zoom] whose factor
    [1 - delta * 0.1f] is zero, negative or minus infinity leaves the
    distance at exactly [0.1f].  A wheel delta of 10 is already enough,
    because [10 * 0.1f] rounds to 1. *)
Theorem zoom_snaps_to_minimum (c : Camera) (delta : float) :
  distance_in_range (distance c) ->
  ((f1 - delta * f0_1) <=? f0)%f32 = true ->
  distance (zoom c delta) = f0_1.
Proof.
  intros Hd Hk.
  destruct (distance_in_range_shape _ Hd) as (Dn & Di & Dz).
  assert (Hs : signbit (distance c) = Some false).
  { destruct Hd as [Hd _]. destruct (distance c) as [s|s| |s m e];
      try discriminate Dn; try discriminate Di; try discriminate Dz.
    destruct s; [discriminate Hd | reflexivity]. }
  remember (f1 - delta * f0_1)%f32 as k eqn:Ek.
  assert (Hlow : (distance c * k <? f0_1)%f32 = true).
  { apply below_minimum.
    clear Ek. destruct k as [s|s| |s m e]; try discriminate Hk.
    - right. destruct (distance c); try discriminate Dn;
        try discriminate Di; try discriminate Dz. reflexivity.
    - destruct s; [|discriminate Hk]. left.
      destruct (distance c); try discriminate Dn; try discriminate Di;
        try discriminate Dz. injection Hs as ->. reflexivity.
    - destruct s; [|discriminate Hk]. left.
      rewrite (mul_sign (distance c) (S754_finite true m e) false true
                 Hs eq_refl); [reflexivity|].
      apply mul_not_nan; try assumption; try reflexivity.
      + apply andb_false_r.
      + apply andb_false_r. }
  unfold zoom. cbn [distance]. rewrite <- Ek, Hlow. reflexivity.
Qed.

(** ** Panning *)

Lemma add_zero_same_r (a zr : float) :
  is_zero zr = true -> is_nan a = false -> same_value (a + zr)%f32 a.
Proof.
  destruct zr as [sz| | | ]; try discriminate. intros _ Ha.
  destruct a as [s|s| |s m e]; try discriminate Ha.
  - right. destruct s, sz; split; reflexivity.
  - left. reflexivity.
  - left. reflexivity.
Qed.

Lemma mul_zero_l (a k : float) :
  is_zero a = true -> is_finite k = true -> is_zero (a * k)%f32 = true.
Proof.
  destruct a as [sa| | | ]; try discriminate.
  destruct k as [s|s| |s m e]; try discriminate; reflexivity.
Qed.

Lemma mul_zero_r (a zr : float) :
  is_finite a = true -> is_zero zr = true -> is_zero (a * zr)%f32 = true.
Proof.
  destruct zr as [sz| | | ]; try discriminate.
  destruct a as [s|s| |s m e]; try discriminate; reflexivity.
Qed.

Lemma sub_self_finite (v : float) :
  is_finite v = true -> (v - v)%f32 = S754_zero false.
Proof.
  intros H. apply sub_self; [apply is_finite_not_nan, H|].
  destruct v; try discriminate H; reflexivity.
Qed.

(** X12: where panning has no effect.  [pan] moves the target
    horizontally by [(right * deltaX - right * deltaY) * scale], so a
    drag with equal deltas leaves [targetX] and [targetZ] at the same
    value and moves the target only vertically; and because [scale] is
    [distance * 0.001f], at distance zero (the distance that
    [setPointCloud] leaves for an empty cloud or a single sample) no drag
    moves the target at all.  Both hold for whatever [cos] and [sin]
    return, as long as the products involved are finite. *)
Theorem pan_without_effect (lm : libm) (c : Camera) :
  let right_x := cos lm (yawRad (yaw c)) in
  let right_z := (- sin lm (yawRad (yaw c)))%f32 in
  (forall d : float,
     is_finite (right_x * d)%f32 = true ->
     is_finite (right_z * d)%f32 = true ->
     is_finite (distance c * f0_001)%f32 = true ->
     is_nan (targetX c) = false -> is_nan (targetZ c) = false ->
     same_value (targetX (pan lm c d d)) (targetX c)
     /\ same_value (targetZ (pan lm c d d)) (targetZ c))
  /\ (forall deltaX deltaY : float,
        is_zero (distance c) = true ->
        is_finite (right_x * deltaX - right_x * deltaY)%f32 = true ->
        is_finite (f1 * deltaY)%f32 = true ->
        is_finite (right_z * deltaX - right_z * deltaY)%f32 = true ->
        is_nan (targetX c) = false -> is_nan (targetY c) = false ->
        is_nan (targetZ c) = false ->
        same_value (targetX (pan lm c deltaX deltaY)) (targetX c)
        /\ same_value (targetY (pan lm c deltaX deltaY)) (targetY c)
        /\ same_value (targetZ (pan lm c deltaX deltaY)) (targetZ c))
  /\ (forall deltaX deltaY : float,
        let c' := pan lm c deltaX deltaY in
        distance c' = distance c /\ yaw c' = yaw c /\ pitch c' = pitch c
        /\ fov c' = fov c).
Proof.
  cbv zeta. split; [|split].
  - intros d Hx Hz Hs HX HZ. unfold pan. cbn [targetX targetZ].
    rewrite (sub_self_finite _ Hx), (sub_self_finite _ Hz).
    split; apply add_zero_same_r; try assumption;
      apply mul_zero_l; try reflexivity; assumption.
  - intros deltaX deltaY Hd Hx Hy Hz HX HY HZ.
    unfold pan. cbn [targetX targetY targetZ].
    assert (Hs : is_zero (distance c * f0_001)%f32 = true)
      by (apply mul_zero_l; [assumption | reflexivity]).
    repeat split; apply add_zero_same_r; try assumption;
      apply mul_zero_r; assumption.
  - intros deltaX deltaY. repeat split.
Qed.

(** ** The main loop *)

Lemma F64_sub_number (a c : F64.double) :
  is_nan a = false -> is_nan c = false -> is_inf a && is_inf c = false ->
  is_nan (F64.sub a c) = false.
Proof.
  destruct a as [sa|sa| |sa ma ea], c as [sc|sc| |sc mc ec]; simpl;
    try congruence; intros _ _ _.
  - destruct sa, sc; reflexivity.
  - apply binary_normalize_not_nan.
Qed.

Lemma to_float_number (d : F64.double) :
  is_nan d = false -> is_nan (F64.to_float d) = false.
Proof.
  destruct d as [s|s| |s m e]; simpl; try congruence. intros _.
  apply binary_normalize_not_nan.
Qed.

Lemma when_preserves {A : Type} (P : A -> Prop) (fired : bool)
    (f : A -> A) (a : A) :
  (forall a', P a' -> P (f a')) -> P a -> P (when fired f a).
Proof. intros Hf Ha. destruct fired; simpl; auto. Qed.

Lemma with_value_preserves {A V : Type} (P : A -> Prop) (fired : option V)
    (f : A -> V -> A) (a : A) :
  (forall a' v, P a' -> P (f a' v)) -> P a -> P (with_value fired f a).
Proof. intros Hf Ha. destruct fired; simpl; auto. Qed.

Lemma setPointCloud_pitch (rd : PointCloudRenderer) (ps : list Point3D) :
  pitch (camera (setPointCloud rd ps)) = pitch (camera rd).
Proof. apply (setPointCloud_camera rd ps). Qed.

Lemma control_panel_pitch (inp : FrameInput) (rd : PointCloudRenderer)
    (pts : list Point3D) :
  pitch_in_range (pitch (camera rd)) ->
  pitch_in_range (pitch (camera (fst (control_panel inp rd pts)))).
Proof.
  intros H. unfold control_panel. cbv zeta. cbn [fst].
  repeat (apply (when_preserves
                   (fun rd => pitch_in_range (pitch (camera rd))));
          [intros rd' H'; try (split; reflexivity)|]).
  - unfold reset_camera_button. rewrite setPointCloud_pitch.
    split; reflexivity.
  - exact H'.
  - apply (with_value_preserves
             (fun rd => pitch_in_range (pitch (camera rd))));
      [intros rd' v H'; rewrite setPointCloud_pitch; exact H'|].
    match goal with |- context [if ?t then _ else _] => destruct t end;
      repeat (apply (with_value_preserves
                       (fun rd => pitch_in_range (pitch (camera rd))));
              [intros rd' v H'; exact H'|]);
      exact H.
Qed.

(** The store of a renderer is consistent, and holds nothing or the
    cloud that [main] keeps. *)
Lemma control_panel_store (inp : FrameInput) (rd : PointCloudRenderer)
    (pts : list Point3D) :
  let consistent (pts : list Point3D) (rd : PointCloudRenderer) :=
    pointCount rd = length (points rd)
    /\ (points rd <> [] -> bounds rd = bbox (points rd))
    /\ (points rd = [] \/ points rd = pts) in
  consistent pts rd ->
  consistent (snd (control_panel inp rd pts)) (fst (control_panel inp rd pts)).
Proof.
  cbv zeta. intros H. unfold control_panel. cbv zeta. cbn [fst snd].
  set (pts' := match click_generate inp with
               | Some generated => generated
               | None => pts
               end).
  assert (Hload : forall rd' ps,
            pointCount (setPointCloud rd' ps)
            = length (points (setPointCloud rd' ps))
            /\ (points (setPointCloud rd' ps) <> [] ->
                bounds (setPointCloud rd' ps)
                = bbox (points (setPointCloud rd' ps)))
            /\ (points (setPointCloud rd' ps) = []
                \/ points (setPointCloud rd' ps) = ps)).
  { intros rd' ps. destruct (setPointCloud_points rd' ps) as [-> ->].
    split; [reflexivity|]. split; [|right; reflexivity].
    intros _. apply setPointCloud_bounds. }
  repeat (apply (when_preserves
                   (fun rd => pointCount rd = length (points rd)
                              /\ (points rd <> [] ->
                                  bounds rd = bbox (points rd))
                              /\ (points rd = [] \/ points rd = pts')));
          [intros rd' H'; try exact H'|]).
  - apply Hload.
  - split; [reflexivity|]. split; [|left; reflexivity].
    intros N. exfalso. apply N. reflexivity.
  - subst pts'. destruct (click_generate inp) as [generated|];
      cbn [with_value]; [apply Hload|].
    match goal with |- context [if ?t then _ else _] => destruct t end;
      repeat (apply (with_value_preserves
                (fun rd => pointCount rd = length (points rd)
                           /\ (points rd <> [] ->
                               bounds rd = bbox (points rd))
                           /\ (points rd = [] \/ points rd = pts)));
              [intros rd' v H'; exact H'|]);
      exact H.
Qed.

Lemma handle_mouse_pitch (lm : libm) (inp : FrameInput) (c : Camera)
    (ms : MouseState) :
  cursor_is_number inp ->
  is_nan (lastY ms) = false -> is_inf (lastY ms) = false ->
  pitch_in_range (pitch c) ->
  pitch_in_range (pitch (fst (handle_mouse lm inp c ms)))
  /\ is_nan (lastY (snd (handle_mouse lm inp c ms))) = false
  /\ is_inf (lastY (snd (handle_mouse lm inp c ms))) = false.
Proof.
  intros (_ & _ & Hn & Hi) Ln Li Hp. unfold handle_mouse.
  destruct (WantCaptureMouse inp); cbv zeta; cbn [fst snd lastY];
    [split; [exact Hp | split; assumption]|].
  split; [|split; assumption].
  assert (Ho : pitch_in_range
                 (pitch
                    (if left_down inp && leftPressed ms
                     then orbit c
                            (F64.to_float (F64.sub (mouseX inp) (lastX ms))
                             * f0_5)%f32
                            (- F64.to_float
                                 (F64.sub (mouseY inp) (lastY ms))
                             * f0_5)%f32
                     else c))).
  { destruct (left_down inp && leftPressed ms); [|exact Hp].
    apply orbit_pitch_in_range; [exact Hp|].
    assert (Hd : is_nan (F64.to_float (F64.sub (mouseY inp) (lastY ms)))
                 = false).
    { apply to_float_number, F64_sub_number; try assumption.
      rewrite Hi. reflexivity. }
    apply mul_not_nan; try reflexivity.
    - destruct (F64.to_float _); try discriminate Hd; reflexivity.
    - apply andb_false_r.
    - apply andb_false_r. }
  destruct (right_down inp && rightPressed ms); exact Ho.
Qed.

(** X13: what every iteration of the example's main loop preserves.  As
    long as GLFW reports cursor positions that are numbers, the camera
    pitch stays within [[-89, 89]] through any sequence of drags, wheel
    movements (NaN included), panel settings, button clicks and newly
    generated clouds; the renderer's count is the length of its
    sequence, its bounds are those of the sequence whenever that is not
    empty, and the sequence is either empty or the cloud that [main]
    holds in [points]. *)
Theorem main_loop_invariants (lm : libm) (generated : list Point3D)
    (inputs : list FrameInput) :
  Forall cursor_is_number inputs ->
  let st := run lm generated inputs in
  pitch_in_range (pitch (camera (renderer st)))
  /\ pointCount (renderer st) = length (points (renderer st))
  /\ (points (renderer st) <> [] ->
      bounds (renderer st) = bbox (points (renderer st)))
  /\ (points (renderer st) = [] \/ points (renderer st) = app_points st).
Proof.
  intros Hall. cbv zeta. unfold run.
  assert (G : forall st : App,
            (pitch_in_range (pitch (camera (renderer st)))
             /\ is_nan (lastY (mouse st)) = false
             /\ is_inf (lastY (mouse st)) = false)
            /\ (pointCount (renderer st) = length (points (renderer st))
                /\ (points (renderer st) <> [] ->
                    bounds (renderer st) = bbox (points (renderer st)))
                /\ (points (renderer st) = []
                    \/ points (renderer st) = app_points st)) ->
            let st' := fold_left (frame lm) inputs st in
            (pitch_in_range (pitch (camera (renderer st')))
             /\ is_nan (lastY (mouse st')) = false
             /\ is_inf (lastY (mouse st')) = false)
            /\ (pointCount (renderer st') = length (points (renderer st'))
                /\ (points (renderer st') <> [] ->
                    bounds (renderer st') = bbox (points (renderer st')))
                /\ (points (renderer st') = []
                    \/ points (renderer st') = app_points st'))).
  { induction Hall as [|inp inputs Hinp _ IH]; intros st H; [exact H|].
    cbv zeta. cbn [fold_left]. apply IH. clear IH.
    destruct H as [(Hp & Ln & Li) Hs]. unfold frame.
    destruct (handle_mouse_pitch lm inp (camera (renderer st)) (mouse st)
                Hinp Ln Li Hp) as (Hp' & Ln' & Li').
    destruct (handle_mouse lm inp (camera (renderer st)) (mouse st))
      as [c ms]. cbn [fst snd] in Hp', Ln', Li'.
    assert (Hw : pitch_in_range (pitch (handle_wheel inp c))).
    { unfold handle_wheel.
      destruct (negb (WantCaptureMouse inp)
                && negb (MouseWheel inp =? f0)%f32); exact Hp'. }
    pose proof (control_panel_pitch inp
                  (set_camera (renderer st) (handle_wheel inp c))
                  (app_points st) Hw) as Hcp.
    pose proof (control_panel_store inp
                  (set_camera (renderer st) (handle_wheel inp c))
                  (app_points st) Hs) as Hcs.
    cbv zeta in Hcs.
    destruct (control_panel inp
                (set_camera (renderer st) (handle_wheel inp c))
                (app_points st)) as [rd pts].
    cbn [fst snd renderer mouse app_points] in *.
    split; [split; [|split]; assumption | exact Hcs]. }
  destruct (G (App_init generated)) as [(Hp & _) Hs].
  - unfold App_init. cbn [renderer mouse app_points].
    split; [split; [|split]; try reflexivity|].
    + rewrite setPointCloud_pitch. split; reflexivity.
    + destruct (setPointCloud_points PointCloudRenderer_new generated)
        as [-> ->].
      split; [reflexivity|]. split; [|right; reflexivity].
      intros _. apply setPointCloud_bounds.
  - split; [exact Hp | exact Hs].
Qed.

Lemma set_camera_same (rd : PointCloudRenderer) :
  set_camera rd (camera rd) = rd.
Proof. destruct rd; reflexivity. Qed.

Lemma control_panel_idle (inp : FrameInput) (rd : PointCloudRenderer)
    (pts : list Point3D) :
  panel_idle inp -> control_panel inp rd pts = (rd, pts).
Proof.
  intros (H1 & H2 & H3 & H4 & H5 & H6 & H7 & H8 & H9 & H10 & H11 & H12).
  unfold control_panel.
  rewrite H1, H2, H3, H4, H5, H6, H7, H8, H9, H10, H11, H12.
  cbn [with_value when]. destruct (showGrid rd); reflexivity.
Qed.

(** X14: "Clear Point Cloud" empties the renderer but not the copy of the
    cloud that [main] keeps, and "Reset Camera" reloads that copy.  After
    an iteration in which Clear is clicked (and Reset is not) the renderer
    holds no sample, and a frame rendered from it consists of the camera
    transform and the grid alone; after a later iteration in which Reset
    Camera is clicked the renderer holds the cloud again, that is, the
    cloud generated last. *)
Theorem reset_camera_reloads_cleared_cloud (lm : libm) (st : App)
    (i1 i2 : FrameInput) :
  click_clear i1 = true -> click_reset i1 = false ->
  click_reset i2 = true -> click_generate i2 = None ->
  let st1 := frame lm st i1 in
  let st2 := frame lm st1 i2 in
  points (renderer st1) = [] /\ pointCount (renderer st1) = 0%nat
  /\ (forall (cm : cmath) (width height : Z),
      render cm (renderer st1) width height
      = match renderGrid (renderer st1) with
        | Some grid =>
            Some (applyTransform cm (camera (renderer st1)) width height
                  ++ grid)
        | None => None
        end)
  /\ app_points st1
     = match click_generate i1 with
       | Some generated => generated
       | None => app_points st
       end
  /\ points (renderer st2) = app_points st1
  /\ pointCount (renderer st2) = length (app_points st1)
  /\ app_points st2 = app_points st1.
Proof.
  intros C1 R1 R2 G2. cbv zeta.
  assert (F1 : points (renderer (frame lm st i1)) = []
               /\ pointCount (renderer (frame lm st i1)) = 0%nat
               /\ app_points (frame lm st i1)
                  = match click_generate i1 with
                    | Some generated => generated
                    | None => app_points st
                    end).
  { unfold frame.
    destruct (handle_mouse lm i1 (camera (renderer st)) (mouse st))
      as [c ms].
    unfold control_panel. cbv zeta. rewrite C1, R1.
    cbn [when renderer app_points].
    repeat split;
      repeat match goal with
             | |- context [when ?b _ _] => destruct b; cbn [when]
             end; reflexivity. }
  destruct F1 as (P1 & N1 & A1).
  split; [exact P1|]. split; [exact N1|]. split.
  { intros cm width height. unfold render, render_points. rewrite N1.
    cbn [Nat.eqb map]. destruct (renderGrid _); [|reflexivity].
    rewrite app_nil_r. reflexivity. }
  split; [exact A1|].
  set (st1 := frame lm st i1) in *. clearbody st1.
  unfold frame.
  destruct (handle_mouse lm i2 (camera (renderer st1)) (mouse st1))
    as [c ms].
  unfold control_panel. cbv zeta. rewrite R2, G2.
  cbn [when with_value renderer app_points].
  repeat split;
    repeat match goal with
           | |- context [when ?b _ _] => destruct b; cbn [when]
           end;
    unfold on_camera, reset_camera_button;
    cbn [set_camera points pointCount];
    apply (setPointCloud_points _ (app_points st1)).
Qed.

(** X15: how the loop tracks the mouse.  While Dear ImGui captures the
    mouse (and nothing fires in the panel) an iteration changes nothing:
    neither the camera nor the remembered cursor position and button
    flags.  An iteration in which neither button was already held moves
    the camera by no drag, wherever the cursor went.  So when the left
    button was held on entering a captured stretch, the first uncaptured
    iteration with the button down orbits by the whole displacement from
    the position remembered before the stretch, whether or not the button
    was released in between. *)
Theorem mouse_tracking (lm : libm) (st : App) :
  (forall inp : FrameInput,
     WantCaptureMouse inp = true -> panel_idle inp -> frame lm st inp = st)
  /\ (forall inp : FrameInput,
        WantCaptureMouse inp = false ->
        leftPressed (mouse st) = false -> rightPressed (mouse st) = false ->
        (MouseWheel inp =? f0)%f32 = true -> panel_idle inp ->
        renderer (frame lm st inp) = renderer st
        /\ mouse (frame lm st inp)
           = mkMouseState (left_down inp) (right_down inp)
               (middlePressed (mouse st)) (mouseX inp) (mouseY inp))
  /\ (forall (captured : list FrameInput) (inp : FrameInput),
        Forall (fun i => WantCaptureMouse i = true /\ panel_idle i) captured ->
        leftPressed (mouse st) = true ->
        WantCaptureMouse inp = false -> left_down inp = true ->
        right_down inp = false -> (MouseWheel inp =? f0)%f32 = true ->
        panel_idle inp ->
        camera (renderer (frame lm (fold_left (frame lm) captured st) inp))
        = orbit (camera (renderer st))
            (F64.to_float (F64.sub (mouseX inp) (lastX (mouse st))) * f0_5)%f32
            (- F64.to_float (F64.sub (mouseY inp) (lastY (mouse st)))
             * f0_5)%f32).
Proof.
  assert (K1 : forall (s : App) (inp : FrameInput),
            WantCaptureMouse inp = true -> panel_idle inp ->
            frame lm s inp = s).
  { intros s inp Hc Hi. unfold frame, handle_mouse, handle_wheel.
    rewrite Hc. cbn [negb andb]. rewrite set_camera_same.
    rewrite (control_panel_idle inp _ _ Hi). destruct s; reflexivity. }
  split; [apply K1|]. split.
  - intros inp Hc Hl Hr Hw Hi. unfold frame, handle_mouse, handle_wheel.
    rewrite Hc, Hl, Hr, Hw. rewrite !andb_false_r. cbv zeta.
    cbn [negb andb]. rewrite set_camera_same.
    rewrite (control_panel_idle inp _ _ Hi). split; reflexivity.
  - intros captured inp Hall Hl Hc Hd Hr Hw Hi.
    assert (E : fold_left (frame lm) captured st = st).
    { induction Hall as [|i l [Hic Hii] _ IH]; [reflexivity|].
      cbn [fold_left]. rewrite (K1 st i Hic Hii). exact IH. }
    rewrite E. unfold frame, handle_mouse, handle_wheel.
    rewrite Hc, Hl, Hd, Hr, Hw. cbv zeta. cbn [negb andb].
    rewrite (control_panel_idle inp _ _ Hi). reflexivity.
Qed.

(** ** The bounding box as a function of the samples *)

Lemma seq_min_permutation (vs ws : list float) :
  Permutation vs ws -> same_value (seq_min vs) (seq_min ws).
Proof.
  assert (K : forall vs ws, Permutation vs ws ->
              leb (seq_min vs) (seq_min ws) = true).
  { intros l1 l2 Hp. unfold seq_min.
    destruct (fold_min_choice l2 FLT_MAX) as [E|Hin].
    - rewrite E. apply fold_min_le_init. reflexivity.
    - apply fold_min_le; [reflexivity | | apply fold_min_not_nan; reflexivity].
      apply (Permutation_in _ (Permutation_sym Hp) Hin). }
  intros Hp. apply leb_antisym; apply K;
    [exact Hp | apply Permutation_sym, Hp].
Qed.

Lemma seq_max_permutation (vs ws : list float) :
  Permutation vs ws -> same_value (seq_max vs) (seq_max ws).
Proof.
  assert (K : forall vs ws, Permutation vs ws ->
              leb (seq_max vs) (seq_max ws) = true).
  { intros l1 l2 Hp. unfold seq_max.
    destruct (fold_max_choice l1 FLT_LOWEST) as [E|Hin].
    - rewrite E. apply fold_max_ge_init. reflexivity.
    - apply fold_max_ge; [reflexivity | | apply fold_max_not_nan; reflexivity].
      apply (Permutation_in _ Hp Hin). }
  intros Hp. apply leb_antisym; apply K;
    [exact Hp | apply Permutation_sym, Hp].
Qed.

Lemma std_min_nan (a v : float) : is_nan v = true -> std_min a v = a.
Proof. destruct v; try discriminate. intros _. unfold std_min.
  destruct a; reflexivity. Qed.

Lemma std_max_nan (a v : float) : is_nan v = true -> std_max a v = a.
Proof. destruct v; try discriminate. intros _. unfold std_max.
  destruct a as [s|s| |s m e]; try destruct s; reflexivity. Qed.

Lemma fold_min_numbers (vs : list float) :
  forall init, fold_left std_min (numbers vs) init = fold_left std_min vs init.
Proof.
  induction vs as [|v vs IH]; intros init; [reflexivity|].
  unfold numbers in *. cbn [filter fold_left].
  destruct (is_nan v) eqn:E; cbn [negb fold_left].
  - rewrite (std_min_nan _ _ E). apply IH.
  - apply IH.
Qed.

Lemma fold_max_numbers (vs : list float) :
  forall init, fold_left std_max (numbers vs) init = fold_left std_max vs init.
Proof.
  induction vs as [|v vs IH]; intros init; [reflexivity|].
  unfold numbers in *. cbn [filter fold_left].
  destruct (is_nan v) eqn:E; cbn [negb fold_left].
  - rewrite (std_max_nan _ _ E). apply IH.
  - apply IH.
Qed.

(** X16: the bounding box as a function of the samples.  The bounds that
    [setPointCloud] stores do not depend on the order of the samples (the
    same values; only the sign of a zero bound can differ), a NaN
    coordinate is skipped on its axis as if the sample were absent there,
    and adding samples can only lower a minimum and raise a maximum. *)
Theorem bounds_as_function_of_samples (rd : PointCloudRenderer)
    (ps qs : list Point3D) :
  (Permutation ps qs ->
   same_box (bounds (setPointCloud rd ps)) (bounds (setPointCloud rd qs)))
  /\ (ps <> [] ->
      bounds (setPointCloud rd ps)
      = (seq_min (numbers (map x ps)), seq_max (numbers (map x ps)),
         seq_min (numbers (map y ps)), seq_max (numbers (map y ps)),
         seq_min (numbers (map z ps)), seq_max (numbers (map z ps))))
  /\ (ps <> [] ->
      let rd1 := setPointCloud rd ps in
      let rd2 := setPointCloud rd (ps ++ qs) in
      (minX rd2 <=? minX rd1)%f32 = true /\ (maxX rd1 <=? maxX rd2)%f32 = true
      /\ (minY rd2 <=? minY rd1)%f32 = true
      /\ (maxY rd1 <=? maxY rd2)%f32 = true
      /\ (minZ rd2 <=? minZ rd1)%f32 = true
      /\ (maxZ rd1 <=? maxZ rd2)%f32 = true).
Proof.
  split; [|split].
  - intros Hp. rewrite !setPointCloud_bounds. unfold bbox.
    destruct ps as [|p ps], qs as [|q qs].
    + repeat split; apply same_value_refl.
    + apply Permutation_nil in Hp. discriminate Hp.
    + apply Permutation_sym, Permutation_nil in Hp. discriminate Hp.
    + unfold same_box.
      repeat split;
        first [ apply seq_min_permutation | apply seq_max_permutation ];
        apply Permutation_map, Hp.
  - intros Hne. rewrite setPointCloud_bounds. unfold bbox.
    destruct ps as [|p ps]; [contradiction|].
    unfold seq_min, seq_max.
    rewrite !fold_min_numbers, !fold_max_numbers. reflexivity.
  - intros Hne. cbv zeta.
    destruct ps as [|p ps]; [contradiction|].
    change ((p :: ps) ++ qs) with (p :: (ps ++ qs)).
    pose proof (setPointCloud_bounds rd (p :: ps)) as B1.
    pose proof (setPointCloud_bounds rd (p :: (ps ++ qs))) as B2.
    unfold bbox in B1, B2.
    apply bounds_fields in B1, B2.
    destruct B1 as (-> & -> & -> & -> & -> & ->).
    destruct B2 as (-> & -> & -> & -> & -> & ->).
    change (p :: ps ++ qs) with ((p :: ps) ++ qs).
    unfold seq_min, seq_max. rewrite !map_app, !fold_left_app.
    repeat split;
      first [ apply fold_min_le_init; apply fold_min_not_nan; reflexivity
            | apply fold_max_ge_init; apply fold_max_not_nan; reflexivity ].
Qed.

(** ** The "Reset Camera" button *)

(** X17: what "Reset Camera" resets.  The button calls [reset] and then
    [setPointCloud], so the default orientation and field of view are
    restored (yaw 45, pitch 30, fov 45) while the distance 10 and the
    target (0, 0, 0) that [reset] writes are overwritten at once: distance
    and target come out as after a plain [setPointCloud] of the same
    cloud, and so do the sequence, the count, the bounds and the
    settings. *)
Theorem reset_camera_button_refits (rd : PointCloudRenderer)
    (ps : list Point3D) :
  let rd' := reset_camera_button rd ps in
  let c := camera (setPointCloud rd ps) in
  camera rd'
  = {| distance := distance c; yaw := f45; pitch := f30;
       targetX := targetX c; targetY := targetY c; targetZ := targetZ c;
       fov := f45 |}
  /\ set_camera rd' c = setPointCloud rd ps.
Proof.
  cbv zeta. unfold reset_camera_button.
  rewrite (setPointCloud_closed (set_camera rd (reset (camera rd))) ps).
  rewrite (setPointCloud_closed rd ps).
  unfold fitted_camera.
  destruct (bbox ps) as [[[[[a1 a2] a3] a4] a5] a6].
  split; reflexivity.
Qed.

(** ** What a setting does not touch *)

(** X18: [clearPointCloud] takes the points out of the frame and nothing
    else.  The grid, drawn from the bounds, stays that of the cloud that
    was cleared, the frame is the camera transform and that grid alone,
    and the axis labels stay as they were, in all three versions of
    [renderAxisLabels]. *)
Theorem clearPointCloud_keeps_grid_and_labels (rd : PointCloudRenderer) :
  let rd' := clearPointCloud rd in
  render_points rd' = []
  /\ renderGrid rd' = renderGrid rd
  /\ (forall (cm : cmath) (width height : Z),
      render cm rd' width height
      = match renderGrid rd with
        | Some grid =>
            Some (applyTransform cm (camera rd) width height ++ grid)
        | None => None
        end)
  /\ label_positions rd' = label_positions rd
  /\ Part003.renderAxisLabels rd' = Part003.renderAxisLabels rd
  /\ Part002.renderAxisLabels rd' = Part002.renderAxisLabels rd
  /\ Part001.renderAxisLabels rd' = Part001.renderAxisLabels rd.
Proof.
  cbv zeta. split; [reflexivity|]. split; [reflexivity|].
  split; [|repeat split].
  intros cm width height. unfold render.
  change (renderGrid (clearPointCloud rd)) with (renderGrid rd).
  change (render_points (clearPointCloud rd)) with (@nil GLcall).
  change (camera (clearPointCloud rd)) with (camera rd).
  destruct (renderGrid rd); [|reflexivity].
  cbn [map]. rewrite app_nil_r. reflexivity.
Qed.

(** X19: [gridSize] is a dead setting: whatever value [setGridSize]
    stores, the frame and the axis labels are the same, because no
    drawing code reads the field (the extent of the grid comes from the
    bounds of the cloud).  The point size and the colour mode reach the
    point stage only: grid and labels do not depend on them. *)
Theorem gridSize_is_never_read (rd : PointCloudRenderer) (size : Z)
    (psize : float) (mode : Z) :
  (forall (cm : cmath) (width height : Z),
     render cm (setGridSize rd size) width height
     = render cm rd width height)
  /\ label_positions (setGridSize rd size) = label_positions rd
  /\ Part003.renderAxisLabels (setGridSize rd size)
     = Part003.renderAxisLabels rd
  /\ Part002.renderAxisLabels (setGridSize rd size)
     = Part002.renderAxisLabels rd
  /\ Part001.renderAxisLabels (setGridSize rd size)
     = Part001.renderAxisLabels rd
  /\ renderGrid (setColorMode (setPointSize rd psize) mode) = renderGrid rd
  /\ label_positions (setColorMode (setPointSize rd psize) mode)
     = label_positions rd.
Proof. repeat split. Qed.

(** ** The two tests for a box without extent *)

(** A well-formed finite datum: the exponent is at least -149, and above
    -149 the mantissa has its 24 bits. *)
Lemma bounded_exponent (m : positive) (e : Z) :
  bounded prec emax m e = true ->
  -149 <= e /\ (-149 < e -> 8388608 <= Zpos m).
Proof.
  unfold bounded, canonical_mantissa, fexp, emin, prec, emax.
  intros H. apply andb_true_iff in H. destruct H as [H _].
  apply Z.eqb_eq in H.
  split; [lia|]. intros He.
  assert (Hd : Zpos (digits2_pos m) = 24) by lia.
  pose proof (digits2_pos_lower m) as Hl. rewrite Hd in Hl.
  change (2 ^ (24 - 1)) with 8388608 in Hl. exact Hl.
Qed.

Lemma shr_fexp_keeps_positive (m : positive) (e : Z) (l : location) :
  -149 <= e ->
  1 <= shr_m (fst (shr_fexp prec emax (Zpos m) e l))
  /\ -149 <= snd (shr_fexp prec emax (Zpos m) e l).
Proof.
  intros He. destruct (shr_fexp_positive m e l) as [E1 M1].
  cbv zeta in E1, M1. rewrite E1, M1.
  unfold fexp, emin, prec, emax in *.
  destruct (Z.ltb_spec 0
              (Z.max (Zpos (digits2_pos m) + e - 24) (3 - 128 - 24) - e))
    as [Hn|Hn].
  - split; [|lia].
    assert (8388608 <= Zpos m
                       / 2 ^ (Z.max (Zpos (digits2_pos m) + e - 24)
                                (3 - 128 - 24) - e)); [|lia].
    apply shifted_mantissa_lower; lia.
  - split; lia.
Qed.

Lemma binary_round_aux_nonzero (s : bool) (m : positive) (e : Z)
    (l : location) :
  -149 <= e -> is_zero (binary_round_aux prec emax s (Zpos m) e l) = false.
Proof.
  intros He. unfold binary_round_aux.
  destruct (shr_fexp_keeps_positive m e l He) as [M1 E1].
  destruct (shr_fexp prec emax (Zpos m) e l) as [mrs1 e1].
  cbn [fst snd] in M1, E1.
  pose proof (round_nearest_even_bounds (shr_m mrs1)
                (loc_of_shr_record mrs1)) as Hr.
  destruct (round_nearest_even (shr_m mrs1) (loc_of_shr_record mrs1))
    as [|r|r]; try lia.
  destruct (shr_fexp_keeps_positive r e1 loc_Exact E1) as [M2 _].
  destruct (shr_fexp prec emax (Zpos r) e1 loc_Exact) as [mrs2 e2].
  cbn [fst] in M2.
  destruct (shr_m mrs2) as [|q|q]; try lia.
  destruct (e2 <=? emax - prec); reflexivity.
Qed.

Lemma binary_round_nonzero (s : bool) (m : positive) (e : Z) :
  -149 <= e -> is_zero (binary_round prec emax s m e) = false.
Proof.
  intros He. unfold binary_round, shl_align.
  destruct (fexp prec emax (Zpos (digits2_pos m) + e) - e) as [|k|k] eqn:Ek;
    apply binary_round_aux_nonzero; try assumption.
  unfold fexp, emin, prec, emax in *. lia.
Qed.

Lemma eqb_zero (v : float) : (v =? f0)%f32 = is_zero v.
Proof. destruct v as [s|s| |s m e]; try destruct s; reflexivity. Qed.

Lemma shl_align_value (m : positive) (e ez : Z) :
  ez <= e -> Zpos (fst (shl_align m e ez)) = Zpos m * 2 ^ (e - ez).
Proof.
  intros H. unfold shl_align.
  destruct (ez - e) as [|k|k] eqn:Ek; try lia; cbn [fst].
  - replace (e - ez) with 0 by lia. lia.
  - rewrite iter_xO_pow. replace (e - ez) with (Zpos k) by lia.
    reflexivity.
Qed.

Lemma eqb_finite (s1 s2 : bool) (m1 m2 : positive) (e1 e2 : Z) :
  (S754_finite s1 m1 e1 =? S754_finite s2 m2 e2)%f32 = true
  <-> (s1 = s2 /\ e1 = e2 /\ m1 = m2).
Proof.
  unfold eqb, SFeqb, SFcompare.
  destruct s1, s2; split; try discriminate;
    try (intros (H & _); discriminate H).
  - destruct (Z.compare_spec e1 e2) as [E|E|E]; cbn; try discriminate.
    rewrite compare_cont_Eq.
    destruct (Pos.compare_spec m1 m2) as [M|M|M]; cbn; try discriminate.
    intros _. repeat split; assumption.
  - intros (_ & -> & ->).
    rewrite Z.compare_refl, compare_cont_Eq, Pos.compare_refl. reflexivity.
  - destruct (Z.compare_spec e1 e2) as [E|E|E]; cbn; try discriminate.
    rewrite compare_cont_Eq.
    destruct (Pos.compare_spec m1 m2) as [M|M|M]; cbn; try discriminate.
    intros _. repeat split; assumption.
  - intros (_ & -> & ->).
    rewrite Z.compare_refl, compare_cont_Eq, Pos.compare_refl. reflexivity.
Qed.

(** Two well-formed finite data of equal value are the same datum. *)
Lemma canonical_unique (m1 m2 : positive) (e1 e2 : Z) :
  bounded prec emax m1 e1 = true -> bounded prec emax m2 e2 = true ->
  Zpos m1 * 2 ^ (e1 - Z.min e1 e2) = Zpos m2 * 2 ^ (e2 - Z.min e1 e2) ->
  e1 = e2 /\ m1 = m2.
Proof.
  intros B1 B2 H.
  destruct (bounded_exponent _ _ B1) as [L1 N1].
  destruct (bounded_exponent _ _ B2) as [L2 N2].
  destruct (bounded_mantissa _ _ B1) as [U1 _].
  destruct (bounded_mantissa _ _ B2) as [U2 _].
  destruct (Z.lt_trichotomy e1 e2) as [E|[E|E]].
  - exfalso. rewrite Z.min_l in H by lia. rewrite Z.sub_diag in H.
    assert (2 <= 2 ^ (e2 - e1)).
    { change 2 with (2 ^ 1) at 1. apply Z.pow_le_mono_r; lia. }
    specialize (N2 ltac:(lia)). nia.
  - subst e2. rewrite Z.min_id, Z.sub_diag in H. split; [reflexivity|].
    lia.
  - exfalso. rewrite Z.min_r in H by lia. rewrite Z.sub_diag in H.
    assert (2 <= 2 ^ (e1 - e2)).
    { change 2 with (2 ^ 1) at 1. apply Z.pow_le_mono_r; lia. }
    specialize (N1 ltac:(lia)). nia.
Qed.

Lemma sub_zero_iff_equal (a c : float) :
  is_finite a = true -> is_finite c = true ->
  ((a - c) =? f0)%f32 = (a =? c)%f32.
Proof.
  intros Ha Hc. rewrite eqb_zero.
  destruct a as [sa|sa| |sa ma ea], c as [sc|sc| |sc mc ec];
    try discriminate Ha; try discriminate Hc.
  - destruct sa, sc; reflexivity.
  - destruct sc; reflexivity.
  - destruct sa; reflexivity.
  - cbn [is_finite] in Ha, Hc.
    destruct (bounded_exponent _ _ Ha) as [La _].
    destruct (bounded_exponent _ _ Hc) as [Lc _].
    unfold sub, SFsub. cbv zeta.
    rewrite !shl_align_value by lia.
    set (ez := Z.min ea ec).
    set (A := Zpos ma * 2 ^ (ea - ez)).
    set (C := Zpos mc * 2 ^ (ec - ez)).
    assert (HA : 0 < A) by (apply Z.mul_pos_pos; [lia|];
                            apply Z.pow_pos_nonneg; lia).
    assert (HC : 0 < C) by (apply Z.mul_pos_pos; [lia|];
                            apply Z.pow_pos_nonneg; lia).
    destruct ((S754_finite sa ma ea =? S754_finite sc mc ec)%f32) eqn:Q.
    + apply eqb_finite in Q. destruct Q as (-> & -> & ->).
      replace (cond_Zopp sc A - cond_Zopp sc C) with 0; [reflexivity|].
      subst A C. lia.
    + assert (D : cond_Zopp sa A - cond_Zopp sc C <> 0).
      { intros D. assert (E : sa = sc /\ A = C).
        { destruct sa, sc; cbn [cond_Zopp] in D; split;
            try reflexivity; lia. }
        destruct E as [-> E]. subst A C ez.
        destruct (canonical_unique _ _ _ _ Ha Hc E) as [-> ->].
        assert (T : (S754_finite sc mc ec =? S754_finite sc mc ec)%f32
                    = true) by (apply eqb_finite; repeat split).
        congruence. }
      unfold binary_normalize.
      destruct (cond_Zopp sa A - cond_Zopp sc C) as [|p|p];
        [contradiction| |]; apply binary_round_nonzero; lia.
Qed.

(** X20: the grid and the labels use two different tests for a box
    without extent ([sizeX == 0] in [renderGrid], [maxX == minX] in
    [renderAxisLabels]); for finite bounds, as [setPointCloud] leaves
    them for finite samples, the two agree.  So after loading finite
    samples, labels are requested exactly when labels are switched on
    and the grid is drawn in the same frame. *)
Theorem label_and_grid_guards_agree (rd : PointCloudRenderer)
    (ps : list Point3D) :
  Forall finite_sample ps ->
  let rd' := setPointCloud rd ps in
  labels_wanted rd' = showAxisLabels rd' && grid_shown rd'
  /\ (grid_shown rd' = false -> label_positions rd' = Some ([], [], [])).
Proof.
  intros Hall. cbv zeta.
  pose proof (bbox_finite ps Hall) as Hb.
  pose proof (setPointCloud_bounds rd ps) as B.
  destruct (bbox ps) as [[[[[a1 a2] a3] a4] a5] a6].
  apply bounds_fields in B.
  destruct B as (B1 & B2 & B3 & B4 & B5 & B6).
  destruct Hb as (H1 & H2 & H3 & H4 & H5 & H6).
  assert (E : labels_wanted (setPointCloud rd ps)
              = showAxisLabels (setPointCloud rd ps)
                && grid_shown (setPointCloud rd ps)).
  { unfold labels_wanted, grid_shown.
    rewrite B1, B2, B3, B4, B5, B6.
    rewrite !sub_zero_iff_equal by assumption.
    rewrite andb_assoc. reflexivity. }
  split; [exact E|].
  intros G. unfold label_positions. rewrite E, G, andb_false_r.
  reflexivity.
Qed.

(** ** Extents of a finite cloud *)

Lemma nonneg_cases (v : float) :
  (f0 <=? v)%f32 = true <-> (is_zero v = true \/ signbit v = Some false).
Proof.
  destruct v as [s|s| |s m e]; try destruct s; cbn; split;
    try discriminate; auto; intros [H|H]; discriminate H.
Qed.

(** On well-formed finite data the comparison of C++ is the comparison of
    the values, taken at the smaller of the two exponents. *)
Lemma compare_aligned (s1 s2 : bool) (m1 m2 : positive) (e1 e2 : Z) :
  bounded prec emax m1 e1 = true -> bounded prec emax m2 e2 = true ->
  SFcompare (S754_finite s1 m1 e1) (S754_finite s2 m2 e2)
  = Some (Z.compare (cond_Zopp s1 (Zpos m1 * 2 ^ (e1 - Z.min e1 e2)))
            (cond_Zopp s2 (Zpos m2 * 2 ^ (e2 - Z.min e1 e2)))).
Proof.
  intros B1 B2.
  destruct (bounded_exponent _ _ B1) as [L1 N1].
  destruct (bounded_exponent _ _ B2) as [L2 N2].
  destruct (bounded_mantissa _ _ B1) as [U1 _].
  destruct (bounded_mantissa _ _ B2) as [U2 _].
  set (A := Zpos m1 * 2 ^ (e1 - Z.min e1 e2)).
  set (C := Zpos m2 * 2 ^ (e2 - Z.min e1 e2)).
  assert (HA : 0 < A) by (apply Z.mul_pos_pos; [lia|];
                          apply Z.pow_pos_nonneg; lia).
  assert (HC : 0 < C) by (apply Z.mul_pos_pos; [lia|];
                          apply Z.pow_pos_nonneg; lia).
  assert (K : Z.compare A C
              = match Z.compare e1 e2 with
                | Lt => Lt
                | Gt => Gt
                | Eq => Pos.compare_cont Eq m1 m2
                end).
  { subst A C. destruct (Z.compare_spec e1 e2) as [E|E|E].
    - subst e2. rewrite Z.min_id, Z.sub_diag, !Z.mul_1_r.
      rewrite compare_cont_Eq. reflexivity.
    - rewrite Z.min_l by lia. rewrite Z.sub_diag, Z.mul_1_r.
      assert (2 <= 2 ^ (e2 - e1)).
      { change 2 with (2 ^ 1) at 1. apply Z.pow_le_mono_r; lia. }
      specialize (N2 ltac:(lia)). apply Z.compare_lt_iff. nia.
    - rewrite Z.min_r by lia. rewrite Z.sub_diag, Z.mul_1_r.
      assert (2 <= 2 ^ (e1 - e2)).
      { change 2 with (2 ^ 1) at 1. apply Z.pow_le_mono_r; lia. }
      specialize (N1 ltac:(lia)). apply Z.compare_gt_iff. nia. }
  unfold SFcompare. f_equal.
  destruct s1, s2; cbn [cond_Zopp].
  - rewrite Z.compare_opp, (Z.compare_antisym A C), K.
    destruct (e1 ?= e2); reflexivity.
  - symmetry. apply Z.compare_lt_iff. lia.
  - symmetry. apply Z.compare_gt_iff. lia.
  - symmetry. exact K.
Qed.

Lemma sub_nonneg (a c : float) :
  is_finite a = true -> is_finite c = true -> (c <=? a)%f32 = true ->
  (f0 <=? a - c)%f32 = true.
Proof.
  intros Ha Hc Hle.
  destruct a as [sa|sa| |sa ma ea], c as [sc|sc| |sc mc ec];
    try discriminate Ha; try discriminate Hc.
  - destruct sa, sc; reflexivity.
  - destruct sc; [reflexivity | discriminate Hle].
  - destruct sa; [discriminate Hle | reflexivity].
  - cbn [is_finite] in Ha, Hc.
    destruct (bounded_exponent _ _ Ha) as [La _].
    destruct (bounded_exponent _ _ Hc) as [Lc _].
    unfold leb, SFleb in Hle.
    rewrite (compare_aligned _ _ _ _ _ _ Hc Ha) in Hle.
    unfold sub, SFsub. cbv zeta.
    rewrite !shl_align_value by lia.
    rewrite (Z.min_comm ec ea) in Hle.
    set (A := cond_Zopp sa (Zpos ma * 2 ^ (ea - Z.min ea ec))) in *.
    set (C := cond_Zopp sc (Zpos mc * 2 ^ (ec - Z.min ea ec))) in *.
    assert (D : 0 <= A - C).
    { destruct (Z.compare_spec C A); try discriminate Hle; lia. }
    apply nonneg_cases. unfold binary_normalize.
    destruct (A - C) as [|p|p]; [left; reflexivity | right | lia].
    unfold binary_round.
    destruct (shl_align p (Z.min ea ec) _) as [mz ez].
    apply binary_round_aux_sign. lia.
Qed.

Lemma mul_two_nonneg (v : float) :
  (f0 <=? v)%f32 = true -> (f0 <=? v * f2)%f32 = true.
Proof.
  intros H. apply nonneg_cases in H. apply nonneg_cases.
  destruct v as [s|s| |s m e]; cbn [is_zero signbit] in H.
  - left. reflexivity.
  - right. destruct H as [H|H]; [discriminate H|].
    injection H as ->. reflexivity.
  - destruct H as [H|H]; discriminate H.
  - right. destruct H as [H|H]; [discriminate H|]. injection H as ->.
    apply binary_round_aux_sign. lia.
Qed.

Lemma div_eucl_nonneg (a c : Z) :
  0 <= a -> 0 < c -> 0 <= fst (Z.div_eucl a c).
Proof. intros Ha Hc. apply (Z.div_pos a c); assumption. Qed.

Lemma to_int_nonneg (a c : float) (n : Z) :
  (f0 <=? a)%f32 = true -> (f0 <? c)%f32 = true ->
  to_int (a / c)%f32 = Some n -> 0 <= n.
Proof.
  intros Ha Hc.
  assert (S : forall v,
            is_nan v = true \/ is_inf v = true \/ is_zero v = true
            \/ signbit v = Some false ->
            to_int v = Some n -> 0 <= n).
  { intros v Hv. unfold to_int. destruct v as [s|s| |s m e];
      try discriminate.
    - intros H. injection H as <-. lia.
    - destruct Hv as [Hv|[Hv|[Hv|Hv]]]; try discriminate Hv.
      injection Hv as ->. cbn [cond_Zopp].
      destruct ((INT_MIN <=? Z.shiftl (Zpos m) e)
                && (Z.shiftl (Zpos m) e <=? INT_MAX)); [|discriminate].
      intros H. injection H as <-. apply Z.shiftl_nonneg. lia. }
  apply S. apply nonneg_cases in Ha.
  destruct c as [sc|sc| |sc mc ec]; try discriminate Hc.
  - destruct sc; [discriminate Hc|].
    destruct a as [sa|sa| |sa ma ea]; cbn; auto.
  - destruct sc; [discriminate Hc|].
    destruct a as [sa|sa| |sa ma ea]; cbn [is_zero signbit] in Ha.
    + right. right. left. reflexivity.
    + right. left. reflexivity.
    + destruct Ha as [Ha|Ha]; discriminate Ha.
    + destruct Ha as [Ha|Ha]; [discriminate Ha|]. injection Ha as ->.
      right. right. right. unfold div, SFdiv.
      destruct (SFdiv_core_binary prec emax (Zpos ma) ea (Zpos mc) ec)
        as [[mz ez] lz] eqn:E.
      apply binary_round_aux_sign.
      unfold SFdiv_core_binary in E. cbv zeta in E.
      match type of E with
      | (let '(q, r) := Z.div_eucl ?m' _ in _) = _ =>
          pose proof (div_eucl_nonneg m' (Zpos mc)) as Hq;
          destruct (Z.div_eucl m' (Zpos mc)) as [q r0]
      end.
      injection E as <- _ _. cbn [fst] in Hq. apply Hq; [|lia].
      match goal with
      | |- 0 <= match ?s with _ => _ end => destruct s; try lia
      end.
      apply Z.shiftl_nonneg. lia.
Qed.

Lemma numLines_at_least_one (size spacing : float) (n : Z) :
  (f0 <=? size)%f32 = true -> (f0 <? spacing)%f32 = true ->
  numLines size spacing = Some n -> 1 <= n.
Proof.
  intros Hs Hp. unfold numLines.
  destruct (to_int (size / spacing)%f32) as [k|] eqn:E; [|discriminate].
  pose proof (to_int_nonneg _ _ _ Hs Hp E) as Hk.
  destruct (k + 1 <=? INT_MAX); [|discriminate].
  intros H. injection H as <-. lia.
Qed.

Lemma seq_min_le_max (vs : list float) :
  vs <> [] -> Forall (fun v => is_finite v = true) vs ->
  (seq_min vs <=? seq_max vs)%f32 = true.
Proof.
  intros Hne Hall. destruct vs as [|v vs]; [contradiction|].
  pose proof (Forall_inv Hall) as Hv. cbn beta in Hv.
  apply is_finite_not_nan in Hv.
  apply leb_trans with v.
  - apply fold_min_le; [reflexivity | left; reflexivity | exact Hv].
  - apply fold_max_ge; [reflexivity | left; reflexivity | exact Hv].
Qed.

(** The box of a finite cloud is ordered, and its extents are at least
    zero. *)
Lemma finite_box_ordered (ps : list Point3D) :
  Forall finite_sample ps ->
  let '(a1, a2, a3, a4, a5, a6) := bbox ps in
  (a1 <=? a2)%f32 = true /\ (a3 <=? a4)%f32 = true
  /\ (a5 <=? a6)%f32 = true.
Proof.
  intros Hall. unfold bbox. destruct ps as [|p ps]; [repeat split|].
  assert (K : forall f : Point3D -> float,
            (forall q, finite_sample q -> is_finite (f q) = true) ->
            (seq_min (map f (p :: ps)) <=? seq_max (map f (p :: ps)))%f32
            = true).
  { intros f Hf. apply seq_min_le_max; [discriminate|].
    apply Forall_map. eapply Forall_impl; [|exact Hall]. exact Hf. }
  repeat split; apply K; intros q Hq; apply Hq.
Qed.

Lemma finite_extents_nonneg (rd : PointCloudRenderer) (ps : list Point3D) :
  Forall finite_sample ps ->
  let rd' := setPointCloud rd ps in
  (f0 <=? maxX rd' - minX rd')%f32 = true
  /\ (f0 <=? maxY rd' - minY rd')%f32 = true
  /\ (f0 <=? maxZ rd' - minZ rd')%f32 = true.
Proof.
  intros Hall. cbv zeta.
  pose proof (bbox_finite ps Hall) as Hb.
  pose proof (setPointCloud_bounds rd ps) as B.
  pose proof (finite_box_ordered ps Hall) as O.
  destruct (bbox ps) as [[[[[a1 a2] a3] a4] a5] a6].
  apply bounds_fields in B.
  destruct B as (-> & -> & -> & -> & -> & ->).
  destruct Hb as (H1 & H2 & H3 & H4 & H5 & H6).
  destruct O as (O1 & O2 & O3).
  repeat split; apply sub_nonneg; assumption.
Qed.

Lemma finite_distance_nonneg (rd : PointCloudRenderer) (ps : list Point3D) :
  Forall finite_sample ps ->
  (f0 <=? distance (camera (setPointCloud rd ps)))%f32 = true.
Proof.
  intros Hall.
  destruct (finite_extents_nonneg rd ps Hall) as (EX & EY & EZ).
  cbv zeta in EX, EY, EZ.
  destruct (setPointCloud_camera rd ps) as (_ & _ & _ & D & _).
  cbv zeta in D. rewrite D. apply mul_two_nonneg.
  match goal with
  | |- (f0 <=? std_max3 ?u ?v ?w)%f32 = true =>
      destruct (std_max3_choice u v w) as [->|[->| ->]]
  end; assumption.
Qed.

(** X21: for a cloud of finite samples nothing has a negative size.
    After [setPointCloud], each extent [max - min] of the box is at least
    zero, and so is the camera distance; and with a grid spacing above
    zero every line count that [renderGrid] and [renderAxisLabels]
    compute is at least 1, so each loop over grid lines draws at least
    the lines 0 and 1. *)
Theorem finite_cloud_extents (rd : PointCloudRenderer) (ps : list Point3D) :
  Forall finite_sample ps ->
  let rd' := setPointCloud rd ps in
  (f0 <=? maxX rd' - minX rd')%f32 = true
  /\ (f0 <=? maxY rd' - minY rd')%f32 = true
  /\ (f0 <=? maxZ rd' - minZ rd')%f32 = true
  /\ (f0 <=? distance (camera rd'))%f32 = true
  /\ ((f0 <? gridSpacing rd')%f32 = true ->
      forall nx ny nz : Z,
      line_counts rd' = Some (nx, ny, nz) -> 1 <= nx /\ 1 <= ny /\ 1 <= nz).
Proof.
  intros Hall. cbv zeta.
  pose proof (finite_extents_nonneg rd ps Hall) as E. cbv zeta in E.
  destruct E as (EX & EY & EZ).
  split; [exact EX|]. split; [exact EY|]. split; [exact EZ|]. split.
  - apply finite_distance_nonneg, Hall.
  - intros Hsp nx ny nz L. unfold line_counts in L.
    destruct (numLines _ _) as [kx|] eqn:NX; [|discriminate L].
    destruct (numLines (maxY _ - minY _)%f32 _) as [ky|] eqn:NY;
      [|discriminate L].
    destruct (numLines (maxZ _ - minZ _)%f32 _) as [kz|] eqn:NZ;
      [|discriminate L].
    injection L as <- <- <-.
    split; [|split].
    + apply (numLines_at_least_one _ _ _ EX Hsp NX).
    + apply (numLines_at_least_one _ _ _ EY Hsp NY).
    + apply (numLines_at_least_one _ _ _ EZ Hsp NZ).
Qed.

(** ** The ends of the height scale *)

Lemma div_self (s : bool) (m : positive) (e : Z) :
  (S754_finite s m e / S754_finite s m e)%f32 = f1.
Proof.
  unfold div, SFdiv, SFdiv_core_binary. cbv zeta.
  rewrite !Z.sub_diag.
  change (Z.min (fexp prec emax 0) 0) with (-24).
  change (0 - -24) with 24.
  assert (E : Z.div_eucl (Z.shiftl (Zpos m) 24) (Zpos m) = (16777216, 0)).
  { rewrite Z.shiftl_mul_pow2 by lia. change (2 ^ 24) with 16777216.
    pose proof (Z.div_mul 16777216 (Zpos m) ltac:(lia)) as Hq.
    pose proof (Z.mod_mul 16777216 (Zpos m) ltac:(lia)) as Hr.
    rewrite (Z.mul_comm 16777216) in Hq, Hr.
    unfold Z.div, Z.modulo in Hq, Hr.
    destruct (Z.div_eucl (Zpos m * 16777216) (Zpos m)) as [q r0].
    cbn [fst snd] in Hq, Hr. subst. reflexivity. }
  cbv iota. rewrite E.
  assert (L : new_location (Zpos m) 0 = loc_Exact).
  { unfold new_location, new_location_even, new_location_odd.
    destruct (Z.even (Zpos m)); reflexivity. }
  rewrite L. destruct s; reflexivity.
Qed.

(** X22: the ends of the height scale.  In height mode, after
    [setPointCloud] with finite samples that are not all at the same
    height and whose Y extent does not overflow, a sample at the lowest
    height is given exactly the colour (0, 0, 1) and a sample at the
    greatest height exactly (1, 0, 0), and the cloud has a sample of
    each kind: the scale always runs from pure blue to pure red. *)
Theorem height_scale_ends (rd : PointCloudRenderer) (ps : list Point3D) :
  Forall finite_sample ps ->
  let rd' := setColorMode (setPointCloud rd ps) COLOR_HEIGHT in
  (maxY rd' =? minY rd')%f32 = false ->
  is_finite (maxY rd' - minY rd')%f32 = true ->
  (forall p : Point3D,
     y p = minY rd' -> color_call rd' p = [glColor3f f0 f0 f1])
  /\ (forall p : Point3D,
        y p = maxY rd' -> color_call rd' p = [glColor3f f1 f0 f0])
  /\ (exists p : Point3D, In p ps /\ y p = minY rd')
  /\ (exists p : Point3D, In p ps /\ y p = maxY rd').
Proof.
  intros Hall. cbv zeta.
  change (maxY (setColorMode (setPointCloud rd ps) COLOR_HEIGHT))
    with (maxY (setPointCloud rd ps)).
  change (minY (setColorMode (setPointCloud rd ps) COLOR_HEIGHT))
    with (minY (setPointCloud rd ps)).
  intros Hne Hfin.
  pose proof (bbox_finite ps Hall) as Hb.
  pose proof (setPointCloud_bounds rd ps) as B.
  destruct (finite_cloud_extents rd ps Hall) as (_ & EY & _).
  cbv zeta in EY.
  destruct (bbox ps) as [[[[[a1 a2] a3] a4] a5] a6] eqn:BB.
  apply bounds_fields in B.
  destruct B as (_ & _ & B3 & B4 & _).
  destruct Hb as (_ & _ & H3 & H4 & _).
  rewrite B3, B4 in *.
  assert (Hd : exists m e, (a4 - a3)%f32 = S754_finite false m e).
  { pose proof (sub_zero_iff_equal a4 a3 H4 H3) as Z. rewrite Hne in Z.
    rewrite eqb_zero in Z. apply nonneg_cases in EY.
    destruct (a4 - a3)%f32 as [s|s| |s m e]; try discriminate Hfin;
      try discriminate Z.
    destruct EY as [EY|EY]; [discriminate EY|]. injection EY as ->.
    exists m, e. reflexivity. }
  destruct Hd as (m & e & Hd).
  split; [|split; [|split]].
  - intros p Hp. unfold color_call. cbn [colorMode setColorMode].
    cbn [minY maxY setColorMode]. rewrite B3, B4.
    change (COLOR_HEIGHT =? COLOR_RGB) with false.
    change (COLOR_HEIGHT =? COLOR_HEIGHT) with true. cbv iota zeta.
    unfold height_t. rewrite Hp, Hd.
    rewrite (sub_self_finite a3 H3). reflexivity.
  - intros p Hp. unfold color_call. cbn [colorMode setColorMode].
    cbn [minY maxY setColorMode]. rewrite B3, B4.
    change (COLOR_HEIGHT =? COLOR_RGB) with false.
    change (COLOR_HEIGHT =? COLOR_HEIGHT) with true. cbv iota zeta.
    unfold height_t. rewrite Hp, Hd, div_self. reflexivity.
  - destruct ps as [|q ps].
    { unfold bbox in BB. injection BB as <- <- <- <- <- <-.
      discriminate Hne. }
    unfold bbox in BB. injection BB as _ _ <- _ _ _.
    assert (Hin : In (seq_min (map y (q :: ps))) (map y (q :: ps))).
    { apply seq_min_attained; [discriminate|]. apply Forall_map.
      eapply Forall_impl; [|exact Hall]. intros p Hp. apply Hp. }
    apply in_map_iff in Hin. destruct Hin as (p & E & Hin).
    exists p. split; assumption.
  - destruct ps as [|q ps].
    { unfold bbox in BB. injection BB as <- <- <- <- <- <-.
      discriminate Hne. }
    unfold bbox in BB. injection BB as _ _ _ <- _ _.
    assert (Hin : In (seq_max (map y (q :: ps))) (map y (q :: ps))).
    { apply seq_max_attained; [discriminate|]. apply Forall_map.
      eapply Forall_impl; [|exact Hall]. intros p Hp. apply Hp. }
    apply in_map_iff in Hin. destruct Hin as (p & E & Hin).
    exists p. split; assumption.
Qed.

(** ** Rounding does not cross a representable value

    The sum and the product of binary32 data are the exact result,
    rounded.  The exact result is followed here as an integer number of
    units of [2^-200]. *)

Lemma digits_upper (m : positive) (k : Z) :
  0 <= k -> Zpos m < 2 ^ k -> Zpos (digits2_pos m) <= k.
Proof.
  intros Hk Hm. pose proof (digits2_pos_lower m) as Hl.
  destruct (Z.le_gt_cases (Zpos (digits2_pos m)) k) as [H|H]; [exact H|].
  assert (2 ^ k <= 2 ^ (Zpos (digits2_pos m) - 1))
    by (apply Z.pow_le_mono_r; lia).
  lia.
Qed.

Lemma digits_lower (m : positive) (k : Z) :
  2 ^ k <= Zpos m -> k < Zpos (digits2_pos m).
Proof.
  intros Hm. pose proof (digits2_pos_bound m) as Hu.
  destruct (Z.lt_ge_cases k (Zpos (digits2_pos m))) as [H|H]; [exact H|].
  assert (2 ^ Zpos (digits2_pos m) <= 2 ^ k)
    by (apply Z.pow_le_mono_r; lia).
  lia.
Qed.

(** A binary32 datum, by the size of its mantissa. *)
Lemma bounded_intro (m : positive) (e : Z) :
  -149 <= e <= 104 -> Zpos m < 2 ^ 24 ->
  (-149 < e -> 2 ^ 23 <= Zpos m) ->
  bounded prec emax m e = true.
Proof.
  intros He Hm Hn.
  pose proof (digits_upper m 24 ltac:(lia) Hm) as Hd.
  unfold bounded, canonical_mantissa, fexp, emin, prec, emax.
  apply andb_true_iff. split; [apply Z.eqb_eq | apply Z.leb_le; lia].
  destruct (Z.eq_dec e (-149)) as [->|Hne]; [lia|].
  pose proof (digits_lower m 23 (Hn ltac:(lia))). lia.
Qed.

Lemma units_finite (s : bool) (m : positive) (e : Z) :
  units (S754_finite s m e) = cond_Zopp s (Zpos m * 2 ^ (e + 200)).
Proof. reflexivity. Qed.

(** On binary32 data the comparison of C++ is the comparison of the
    values. *)
Lemma leb_units (a c : float) :
  is_finite a = true -> is_finite c = true ->
  (leb a c = true <-> units a <= units c).
Proof.
  intros Ha Hc.
  destruct a as [sa|sa| |sa ma ea], c as [sc|sc| |sc mc ec];
    try discriminate Ha; try discriminate Hc; cbn [is_finite] in Ha, Hc.
  - cbn. split; [lia | reflexivity].
  - destruct (bounded_exponent _ _ Hc) as [Lc _].
    assert (0 < Zpos mc * 2 ^ (ec + 200))
      by (apply Z.mul_pos_pos; [lia | apply Z.pow_pos_nonneg; lia]).
    rewrite units_finite. cbn [units]. unfold leb, SFleb, SFcompare.
    destruct sc; cbn [cond_Zopp]; split; intros H0; try discriminate H0;
      try reflexivity; lia.
  - destruct (bounded_exponent _ _ Ha) as [La _].
    assert (0 < Zpos ma * 2 ^ (ea + 200))
      by (apply Z.mul_pos_pos; [lia | apply Z.pow_pos_nonneg; lia]).
    rewrite units_finite. cbn [units]. unfold leb, SFleb, SFcompare.
    destruct sa; cbn [cond_Zopp]; split; intros H0; try discriminate H0;
      try reflexivity; lia.
  - destruct (bounded_exponent _ _ Ha) as [La _].
    destruct (bounded_exponent _ _ Hc) as [Lc _].
    unfold leb, SFleb. rewrite (compare_aligned _ _ _ _ _ _ Ha Hc).
    rewrite !units_finite.
    set (mn := Z.min ea ec).
    assert (Hp : 0 < 2 ^ (mn + 200)) by (apply Z.pow_pos_nonneg; lia).
    assert (Ea : Zpos ma * 2 ^ (ea + 200)
                 = Zpos ma * 2 ^ (ea - mn) * 2 ^ (mn + 200)).
    { rewrite <- Z.mul_assoc, <- Z.pow_add_r by lia.
      do 2 f_equal. lia. }
    assert (Ec : Zpos mc * 2 ^ (ec + 200)
                 = Zpos mc * 2 ^ (ec - mn) * 2 ^ (mn + 200)).
    { rewrite <- Z.mul_assoc, <- Z.pow_add_r by lia.
      do 2 f_equal. lia. }
    rewrite Ea, Ec.
    set (A := Zpos ma * 2 ^ (ea - mn)). set (C := Zpos mc * 2 ^ (ec - mn)).
    assert (K : cond_Zopp sa (A * 2 ^ (mn + 200))
                = cond_Zopp sa A * 2 ^ (mn + 200))
      by (destruct sa; cbn; lia).
    assert (K' : cond_Zopp sc (C * 2 ^ (mn + 200))
                 = cond_Zopp sc C * 2 ^ (mn + 200))
      by (destruct sc; cbn; lia).
    rewrite K, K'.
    destruct (Z.compare_spec (cond_Zopp sa A) (cond_Zopp sc C)) as [E|E|E];
      split; intros H; try reflexivity; try discriminate H; try nia.
Qed.

(** Shifting out bits that are all zero leaves an exact location. *)
Lemma shr_1_exact (mrs : shr_record) (t : Z) :
  shr_r mrs = false -> shr_s mrs = false -> 0 <= shr_m mrs ->
  shr_m mrs = t * 2 ->
  shr_r (shr_1 mrs) = false /\ shr_s (shr_1 mrs) = false.
Proof.
  destruct mrs as [m rb sb]. cbn [shr_r shr_s shr_m].
  intros -> -> Hm Ht.
  destruct m as [|p|p]; [split; reflexivity | | lia].
  destruct p as [p|p|]; try lia; split; reflexivity.
Qed.

Lemma iter_shr_1_exact (n : positive) :
  forall (mrs : shr_record) (t : Z),
  shr_r mrs = false -> shr_s mrs = false -> 0 <= shr_m mrs ->
  shr_m mrs = t * 2 ^ Zpos n ->
  shr_r (iter_pos shr_1 n mrs) = false
  /\ shr_s (iter_pos shr_1 n mrs) = false.
Proof.
  induction n as [n IH|n IH|]; intros mrs t Hr Hs Hm Ht; cbn [iter_pos].
  - assert (E : shr_m mrs = (t * 2 ^ Zpos n * 2 ^ Zpos n) * 2).
    { rewrite Ht. replace (Zpos n~1) with (Zpos n + Zpos n + 1) by lia.
      rewrite !Z.pow_add_r, Z.pow_1_r by lia. ring. }
    destruct (shr_1_exact mrs _ Hr Hs Hm E) as [Hr1 Hs1].
    pose proof (shr_1_nonneg mrs Hm) as Hm1.
    assert (E1 : shr_m (shr_1 mrs) = (t * 2 ^ Zpos n) * 2 ^ Zpos n).
    { rewrite shr_1_half by assumption. rewrite E.
      rewrite Z.div_mul by lia. reflexivity. }
    destruct (IH _ _ Hr1 Hs1 Hm1 E1) as [Hr2 Hs2].
    apply (IH _ t Hr2 Hs2).
    + apply iter_shr_1_nonneg, Hm1.
    + rewrite iter_shr_1_div by assumption. rewrite E1.
      apply Z.div_mul. apply Z.pow_nonzero; lia.
  - assert (E : shr_m mrs = (t * 2 ^ Zpos n) * 2 ^ Zpos n).
    { rewrite Ht. replace (Zpos n~0) with (Zpos n + Zpos n) by lia.
      rewrite Z.pow_add_r by lia. ring. }
    destruct (IH _ _ Hr Hs Hm E) as [Hr2 Hs2].
    apply (IH _ t Hr2 Hs2).
    + apply iter_shr_1_nonneg, Hm.
    + rewrite iter_shr_1_div by assumption. rewrite E.
      apply Z.div_mul. apply Z.pow_nonzero; lia.
  - apply (shr_1_exact mrs t); assumption.
Qed.

Lemma shr_fexp_exact (m : positive) (e : Z) :
  let n := fexp prec emax (Zpos (digits2_pos m) + e) - e in
  Zpos m mod 2 ^ n = 0 ->
  loc_of_shr_record (fst (shr_fexp prec emax (Zpos m) e loc_Exact))
  = loc_Exact.
Proof.
  cbv zeta. unfold shr_fexp. cbn [Zdigits2 shr_record_of_loc].
  destruct (fexp prec emax (Zpos (digits2_pos m) + e) - e) as [|q|q];
    cbn [shr fst]; try reflexivity.
  intros Hmod.
  destruct (iter_shr_1_exact q (Build_shr_record (Zpos m) false false)
              (Zpos m / 2 ^ Zpos q)) as [Hr Hs];
    try reflexivity; cbn [shr_m]; try lia.
  - pose proof (Z.div_mod (Zpos m) (2 ^ Zpos q)
                  ltac:(apply Z.pow_nonzero; lia)) as Hd.
    rewrite Hmod in Hd. lia.
  - destruct (iter_pos shr_1 q _) as [m' rb sb].
    cbn [shr_r shr_s] in Hr, Hs. subst. reflexivity.
Qed.

(** The grid of multiples of [2^e1] around an exact quantity
    [mx * 2^ex]: a representable value on one side of the quantity is
    on the same side of what the quantity rounds to. *)
Lemma grid_bracket (mx q q' n ex mf ef : Z) :
  0 < mx -> 0 <= n -> -200 <= ex -> -149 <= ex + n ->
  q = mx / 2 ^ n -> q <= q' <= q + 1 ->
  (mx mod 2 ^ n = 0 -> q' = q) ->
  (-149 < ex + n -> 2 ^ 23 <= q) ->
  0 <= mf < 2 ^ 24 -> -149 <= ef ->
  let X := mx * 2 ^ (ex + 200) in
  let V := mf * 2 ^ (ef + 200) in
  let U := q' * 2 ^ (ex + n + 200) in
  (V <= X -> V <= U) /\ (X <= V -> U <= V).
Proof.
  intros Hmx Hn Hex He1 Hq Hq' Hexact Hnorm Hmf Hef. cbv zeta.
  set (P := 2 ^ (ex + 200)).
  assert (HP : 0 < P) by (apply Z.pow_pos_nonneg; lia).
  set (N := 2 ^ n).
  assert (HN : 0 < N) by (apply Z.pow_pos_nonneg; lia).
  assert (E1 : 2 ^ (ex + n + 200) = N * P).
  { unfold N, P. rewrite <- Z.pow_add_r by lia. f_equal. lia. }
  pose proof (Z.div_mod mx N ltac:(lia)) as Hdm.
  pose proof (Z.mod_pos_bound mx N HN) as Hmod.
  fold N in Hq, Hexact. rewrite <- Hq in Hdm.
  rewrite E1.
  destruct (Z.le_gt_cases (ex + n) ef) as [Hge|Hlt].
  - set (K := 2 ^ (ef - (ex + n))).
    assert (HK : 0 < K) by (apply Z.pow_pos_nonneg; lia).
    assert (EV : 2 ^ (ef + 200) = K * (N * P)).
    { unfold K. rewrite <- E1, <- Z.pow_add_r by lia. f_equal. lia. }
    rewrite EV.
    set (k := mf * K).
    replace (mf * (K * (N * P))) with (k * N * P) by (unfold k; ring).
    replace (q' * (N * P)) with (q' * N * P) by ring.
    split; intros H.
    + assert (H1 : k * N <= mx) by nia.
      assert (H2 : k <= q) by nia.
      assert (H3 : k * N <= q' * N) by nia.
      nia.
    + assert (H1 : mx <= k * N) by nia.
      assert (H2 : q' <= k).
      { destruct (Z.eq_dec (mx mod N) 0) as [Z0|NZ].
        - rewrite (Hexact Z0). nia.
        - assert (q < k) by nia. lia. }
      assert (H3 : q' * N <= k * N) by nia.
      nia.
  - specialize (Hnorm ltac:(lia)).
    assert (EU : 2 ^ 23 * (N * P) = 2 ^ (ex + n + 223)).
    { rewrite <- E1, <- Z.pow_add_r by lia. f_equal. lia. }
    assert (HV : mf * 2 ^ (ef + 200) < 2 ^ (ex + n + 223)).
    { assert (2 ^ (ef + 224) <= 2 ^ (ex + n + 223))
        by (apply Z.pow_le_mono_r; lia).
      assert (2 ^ (ef + 224) = 2 ^ 24 * 2 ^ (ef + 200)).
      { rewrite <- Z.pow_add_r by lia. f_equal. lia. }
      assert (0 < 2 ^ (ef + 200)) by (apply Z.pow_pos_nonneg; lia).
      nia. }
    assert (HU : 2 ^ (ex + n + 223) <= q * N * P).
    { rewrite <- EU.
      replace (2 ^ 23 * (N * P)) with (2 ^ 23 * N * P) by ring.
      apply Z.mul_le_mono_nonneg_r; [lia|].
      apply Z.mul_le_mono_nonneg_r; lia. }
    assert (HX : q * N * P <= mx * P).
    { apply Z.mul_le_mono_nonneg_r; lia. }
    assert (HU' : q * N * P <= q' * (N * P)).
    { replace (q' * (N * P)) with (q' * N * P) by ring.
      apply Z.mul_le_mono_nonneg_r; [lia|].
      apply Z.mul_le_mono_nonneg_r; lia. }
    split; intros H; lia.
Qed.

(** What a positive quantity [mx * 2^ex], given exactly, rounds to: an
    infinity, or a binary32 datum of value [U]; and [U] lies on the same
    side of every representable value as the quantity does. *)
Lemma round_aux_value (s : bool) (mx : positive) (ex : Z) :
  -200 <= ex ->
  ex <= fexp prec emax (Zpos (digits2_pos mx) + ex) ->
  exists U : Z,
    0 <= U
    /\ (binary_round_aux prec emax s (Zpos mx) ex loc_Exact = S754_infinity s
        \/ (is_finite (binary_round_aux prec emax s (Zpos mx) ex loc_Exact)
            = true
            /\ units (binary_round_aux prec emax s (Zpos mx) ex loc_Exact)
               = cond_Zopp s U))
    /\ forall mf ef : Z,
       0 <= mf < 2 ^ 24 -> -149 <= ef ->
       (mf * 2 ^ (ef + 200) <= Zpos mx * 2 ^ (ex + 200) ->
        mf * 2 ^ (ef + 200) <= U)
       /\ (Zpos mx * 2 ^ (ex + 200) <= mf * 2 ^ (ef + 200) ->
           U <= mf * 2 ^ (ef + 200)
           /\ (ef <= 104 ->
               binary_round_aux prec emax s (Zpos mx) ex loc_Exact
               <> S754_infinity s)).
Proof.
  intros Hex Hpre.
  remember (fexp prec emax (Zpos (digits2_pos mx) + ex)) as e1 eqn:Ee1.
  assert (He1 : -149 <= e1)
    by (subst e1; unfold fexp, emin, prec, emax; lia).
  assert (He1' : Zpos (digits2_pos mx) + ex - 24 <= e1)
    by (subst e1; unfold fexp, emin, prec, emax; lia).
  assert (He1'' : -149 < e1 -> e1 = Zpos (digits2_pos mx) + ex - 24)
    by (subst e1; unfold fexp, emin, prec, emax; lia).
  remember (e1 - ex) as n eqn:En.
  assert (Hn : 0 <= n) by lia.
  assert (HN : 0 < 2 ^ n) by (apply Z.pow_pos_nonneg; lia).
  pose proof (digits2_pos_bound mx) as Hub.
  pose proof (digits2_pos_lower mx) as Hlb.
  remember (Zpos mx / 2 ^ n) as q eqn:Eq.
  assert (Hq0 : 0 <= q) by (subst q; apply Z.div_pos; lia).
  assert (Hq24 : q < 2 ^ 24).
  { subst q. apply Z.div_lt_upper_bound; [lia|].
    rewrite <- Z.pow_add_r by lia.
    eapply Z.lt_le_trans; [exact Hub|]. apply Z.pow_le_mono_r; lia. }
  assert (Hq23 : -149 < e1 -> 2 ^ 23 <= q).
  { intros H. subst q. apply Z.div_le_lower_bound; [lia|].
    rewrite <- Z.pow_add_r by lia.
    replace (n + 23) with (Zpos (digits2_pos mx) - 1)
      by (specialize (He1'' H); lia).
    exact Hlb. }
  unfold binary_round_aux.
  destruct (shr_fexp_positive mx ex loc_Exact) as [Hs1 Hm1].
  cbv zeta in Hs1, Hm1.
  pose proof (shr_fexp_exact mx ex) as Hx. cbv zeta in Hx.
  rewrite <- Ee1, <- En in Hs1, Hm1, Hx.
  destruct (shr_fexp prec emax (Zpos mx) ex loc_Exact) as [mrs1 e1'].
  cbn [fst snd] in Hs1, Hm1, Hx.
  assert (Es1 : e1' = e1) by (destruct (Z.ltb_spec 0 n); lia).
  assert (Em1 : shr_m mrs1 = q).
  { rewrite Hm1, Eq. destruct (Z.ltb_spec 0 n) as [H|H]; [reflexivity|].
    replace n with 0 by lia. rewrite Z.pow_0_r, Z.div_1_r. reflexivity. }
  clear Hs1 Hm1. subst e1'.
  pose proof (round_nearest_even_bounds (shr_m mrs1)
                (loc_of_shr_record mrs1)) as Hr.
  assert (Hexact : Zpos mx mod 2 ^ n = 0 ->
                   round_nearest_even (shr_m mrs1) (loc_of_shr_record mrs1)
                   = q).
  { intros H. rewrite (Hx H). cbn [round_nearest_even]. exact Em1. }
  clear Hx.
  remember (round_nearest_even (shr_m mrs1) (loc_of_shr_record mrs1))
    as q' eqn:Eq'.
  rewrite Em1 in Hr. clear Eq' Em1 mrs1.
  exists (q' * 2 ^ (e1 + 200)).
  assert (HP : 0 < 2 ^ (e1 + 200)) by (apply Z.pow_pos_nonneg; lia).
  split; [nia|].
  assert (G : forall mf ef : Z,
            0 <= mf < 2 ^ 24 -> -149 <= ef ->
            (mf * 2 ^ (ef + 200) <= Zpos mx * 2 ^ (ex + 200) ->
             mf * 2 ^ (ef + 200) <= q' * 2 ^ (e1 + 200))
            /\ (Zpos mx * 2 ^ (ex + 200) <= mf * 2 ^ (ef + 200) ->
                q' * 2 ^ (e1 + 200) <= mf * 2 ^ (ef + 200))).
  { intros mf ef Hmf Hef.
    pose proof (grid_bracket (Zpos mx) q q' n ex mf ef) as B.
    cbv zeta in B. replace (ex + n) with e1 in B by lia.
    apply B; try assumption; try lia. }
  assert (Hinf : forall mf ef : Z,
            0 <= mf < 2 ^ 24 -> ef <= 104 ->
            q' * 2 ^ (e1 + 200) <= mf * 2 ^ (ef + 200) ->
            2 ^ 24 * 2 ^ 304 <= q' * 2 ^ (e1 + 200) -> False).
  { intros mf ef Hmf Hef H1 H2.
    destruct (Z.lt_ge_cases (ef + 200) 0) as [Hneg|Hpos].
    - rewrite (Z.pow_neg_r 2 (ef + 200)) in H1 by lia.
      assert (0 < 2 ^ 24 * 2 ^ 304) by (apply Z.mul_pos_pos; lia).
      lia.
    - assert (2 ^ (ef + 200) <= 2 ^ 304) by (apply Z.pow_le_mono_r; lia).
      assert (0 < 2 ^ (ef + 200)) by (apply Z.pow_pos_nonneg; lia).
      nia. }
  destruct q' as [|p|p]; [| |lia].
  - (* rounded to zero *)
    unfold shr_fexp. cbn [Zdigits2 shr_record_of_loc].
    assert (Hz : fexp prec emax (0 + e1) - e1 <= 0)
      by (unfold fexp, emin, prec, emax; lia).
    destruct (fexp prec emax (0 + e1) - e1) as [|k|k]; try lia;
      cbn [shr shr_m].
    + split.
      * right. split; reflexivity || (destruct s; reflexivity).
      * intros mf ef Hmf Hef. destruct (G mf ef Hmf Hef) as [G1 G2].
        split; [exact G1|]. intros H. split; [exact (G2 H)|].
        intros _. discriminate.
    + split.
      * right. split; reflexivity || (destruct s; reflexivity).
      * intros mf ef Hmf Hef. destruct (G mf ef Hmf Hef) as [G1 G2].
        split; [exact G1|]. intros H. split; [exact (G2 H)|].
        intros _. discriminate.
  - destruct (shr_fexp_positive p e1 loc_Exact) as [Hs2 Hm2].
    cbv zeta in Hs2, Hm2.
    destruct (shr_fexp prec emax (Zpos p) e1 loc_Exact) as [mrs2 e2].
    cbn [fst snd] in Hs2, Hm2.
    pose proof (digits2_pos_bound p) as Hpu.
    pose proof (digits2_pos_lower p) as Hpl.
    assert (R : exists m2 : positive,
              shr_m mrs2 = Zpos m2
              /\ Zpos m2 * 2 ^ (e2 + 200) = Zpos p * 2 ^ (e1 + 200)
              /\ -149 <= e2 /\ Zpos m2 < 2 ^ 24
              /\ (-149 < e2 -> 2 ^ 23 <= Zpos m2)
              /\ (104 < e2 -> 2 ^ 24 * 2 ^ 304 <= Zpos p * 2 ^ (e1 + 200))).
    { destruct (Z.ltb_spec 0 (fexp prec emax (Zpos (digits2_pos p) + e1)
                              - e1)) as [Hsh|Hsh].
      - assert (Hd : 25 <= Zpos (digits2_pos p))
          by (revert Hsh; unfold fexp, emin, prec, emax; lia).
        assert (Hp24 : 2 ^ 24 <= Zpos p).
        { eapply Z.le_trans; [|exact Hpl]. apply Z.pow_le_mono_r; lia. }
        assert (Ep : p = 16777216%positive).
        { change (2 ^ 24) with 16777216 in *. lia. }
        subst p. change (Zpos (digits2_pos 16777216)) with 25 in *.
        assert (Ef : fexp prec emax (25 + e1) = e1 + 1)
          by (unfold fexp, emin, prec, emax; lia).
        rewrite Ef in Hs2, Hm2.
        replace (e1 + 1 - e1) with 1 in Hs2, Hm2 by lia.
        change (0 <? 1) with true in Hs2, Hm2. cbv iota in Hs2, Hm2.
        change (16777216 / 2 ^ 1) with 8388608 in Hm2.
        exists 8388608%positive. subst e2.
        split; [exact Hm2|]. split.
        { replace (e1 + 1 + 200) with (1 + (e1 + 200)) by lia.
          rewrite (Z.pow_add_r 2 1 (e1 + 200)) by lia.
          change (2 ^ 1) with 2. lia. }
        split; [lia|]. split; [reflexivity|]. split; [intros _; reflexivity|].
        intros Hov.
        assert (2 ^ 304 <= 2 ^ (e1 + 200)) by (apply Z.pow_le_mono_r; lia).
        change (2 ^ 24) with 16777216. lia.
      - exists p. subst e2.
        split; [exact Hm2|]. split; [reflexivity|]. split; [exact He1|].
        assert (Hd : Zpos (digits2_pos p) <= 24)
          by (revert Hsh; unfold fexp, emin, prec, emax; lia).
        split.
        { eapply Z.lt_le_trans; [exact Hpu|]. apply Z.pow_le_mono_r; lia. }
        split; [intros H; specialize (Hq23 H); lia|].
        intros Hov. specialize (Hq23 ltac:(lia)).
        assert (2 ^ 305 <= 2 ^ (e1 + 200)) by (apply Z.pow_le_mono_r; lia).
        change (2 ^ 305) with (2 * 2 ^ 304) in *.
        change (2 ^ 24) with (2 * 2 ^ 23).
        assert (0 < 2 ^ 304) by lia.
        assert (2 ^ 23 <= Zpos p) by lia.
        nia. }
    destruct R as (m2 & Rm & Rv & Re & Rb & Rn & Ro).
    rewrite Rm. change (emax - prec) with 104.
    destruct (Z.leb_spec e2 104) as [Hfin|Hov].
    + split.
      * right. split.
        { cbn [is_finite]. apply bounded_intro; [lia | exact Rb | exact Rn]. }
        { rewrite units_finite, Rv. reflexivity. }
      * intros mf ef Hmf Hef. destruct (G mf ef Hmf Hef) as [G1 G2].
        split; [exact G1|]. intros H. split; [exact (G2 H)|].
        intros _. discriminate.
    + split; [left; reflexivity|].
      intros mf ef Hmf Hef. destruct (G mf ef Hmf Hef) as [G1 G2].
      split; [exact G1|]. intros H. split; [exact (G2 H)|].
      intros He _. apply (Hinf mf ef Hmf He (G2 H)). apply Ro, Hov.
Qed.

Lemma digits_iter_xO (m d : positive) :
  Zpos (digits2_pos (Pos.iter xO m d)) = Zpos (digits2_pos m) + Zpos d.
Proof.
  induction d as [|d IH] using Pos.peano_ind.
  - cbn. lia.
  - rewrite Pos.iter_succ. cbn [digits2_pos].
    rewrite Pos2Z.inj_succ, IH, Pos2Z.inj_succ. lia.
Qed.

(** The same for [binary_round], which first brings the mantissa to the
    exponent of the result. *)
Lemma round_value (s : bool) (mx : positive) (ex : Z) :
  -200 <= ex ->
  exists U : Z,
    0 <= U
    /\ (binary_round prec emax s mx ex = S754_infinity s
        \/ (is_finite (binary_round prec emax s mx ex) = true
            /\ units (binary_round prec emax s mx ex) = cond_Zopp s U))
    /\ forall mf ef : Z,
       0 <= mf < 2 ^ 24 -> -149 <= ef ->
       (mf * 2 ^ (ef + 200) <= Zpos mx * 2 ^ (ex + 200) ->
        mf * 2 ^ (ef + 200) <= U)
       /\ (Zpos mx * 2 ^ (ex + 200) <= mf * 2 ^ (ef + 200) ->
           U <= mf * 2 ^ (ef + 200)
           /\ (ef <= 104 ->
               binary_round prec emax s mx ex <> S754_infinity s)).
Proof.
  intros Hex. unfold binary_round, shl_align.
  remember (fexp prec emax (Zpos (digits2_pos mx) + ex)) as e1 eqn:Ee1.
  assert (He1 : -149 <= e1)
    by (subst e1; unfold fexp, emin, prec, emax; lia).
  destruct (e1 - ex) as [|d|d] eqn:Ed.
  - apply round_aux_value; [exact Hex | lia].
  - apply round_aux_value; [exact Hex | lia].
  - assert (Ev : Zpos (Pos.iter xO mx d) * 2 ^ (e1 + 200)
                 = Zpos mx * 2 ^ (ex + 200)).
    { rewrite iter_xO_pow. replace (ex + 200) with (Zpos d + (e1 + 200))
        by lia.
      rewrite (Z.pow_add_r 2 (Zpos d) (e1 + 200)) by lia. ring. }
    rewrite <- Ev. apply round_aux_value; [lia|].
    rewrite digits_iter_xO.
    replace (Zpos (digits2_pos mx) + Zpos d + e1)
      with (Zpos (digits2_pos mx) + ex) by lia.
    lia.
Qed.

(** One rounding step seen on the signed values: what a quantity [X]
    rounds to is on the same side of every representable value as [X]
    is, and is finite when a binary32 datum is at least as large. *)
Lemma round_signed (s : bool) (X U : Z) (r : float) :
  0 < X -> 0 <= U ->
  (r = S754_infinity s
   \/ (is_finite r = true /\ units r = cond_Zopp s U)) ->
  (forall mf ef : Z,
     0 <= mf < 2 ^ 24 -> -149 <= ef ->
     (mf * 2 ^ (ef + 200) <= X -> mf * 2 ^ (ef + 200) <= U)
     /\ (X <= mf * 2 ^ (ef + 200) ->
         U <= mf * 2 ^ (ef + 200)
         /\ (ef <= 104 -> r <> S754_infinity s))) ->
  (is_finite r = true ->
   forall V : Z, representable V ->
   (V <= cond_Zopp s X -> V <= units r)
   /\ (cond_Zopp s X <= V -> units r <= V))
  /\ (forall mf ef : Z,
        0 <= mf < 2 ^ 24 -> -149 <= ef <= 104 ->
        X <= mf * 2 ^ (ef + 200) -> is_finite r = true).
Proof.
  intros HX HU Hr Hb. split.
  - intros Hfin V (sv & mf & ef & Hmf & Hef & ->).
    destruct Hr as [Hinf|[_ Hu]]; [rewrite Hinf in Hfin; discriminate Hfin|].
    rewrite Hu.
    destruct (Hb mf ef Hmf Hef) as [B1 B2].
    assert (HW : 0 <= mf * 2 ^ (ef + 200)).
    { apply Z.mul_nonneg_nonneg; [lia|]. apply Z.pow_nonneg. lia. }
    destruct s, sv; cbn [cond_Zopp]; split; intros H; try lia;
      first [ specialize (B1 ltac:(lia)); lia
            | destruct (B2 ltac:(lia)) as [B _]; lia ].
  - intros mf ef Hmf Hef H.
    destruct Hr as [Hinf|[Hfin _]]; [|exact Hfin].
    destruct (Hb mf ef Hmf ltac:(lia)) as [_ B2].
    destruct (B2 H) as [_ B]. exfalso. apply B; [lia | exact Hinf].
Qed.

Lemma representable_units (v : float) :
  is_finite v = true -> representable (units v).
Proof.
  destruct v as [s|s| |s m e]; try discriminate; cbn [is_finite].
  - intros _. exists false, 0, 0. cbn. lia.
  - intros H. destruct (bounded_mantissa _ _ H) as [Hm _].
    destruct (bounded_exponent _ _ H) as [He _].
    exists s, (Zpos m), e. rewrite units_finite.
    change (2 ^ 24) with 16777216. repeat split; lia.
Qed.

Lemma representable_double (v : float) :
  is_finite v = true -> representable (2 * units v).
Proof.
  destruct v as [s|s| |s m e]; try discriminate; cbn [is_finite].
  - intros _. exists false, 0, 0. cbn. lia.
  - intros H. destruct (bounded_mantissa _ _ H) as [Hm _].
    destruct (bounded_exponent _ _ H) as [He _].
    exists s, (Zpos m), (e + 1). rewrite units_finite.
    change (2 ^ 24) with 16777216.
    split; [lia|]. split; [lia|].
    replace (e + 1 + 200) with (1 + (e + 200)) by lia.
    rewrite (Z.pow_add_r 2 1 (e + 200)) by lia. change (2 ^ 1) with 2.
    destruct s; cbn [cond_Zopp]; lia.
Qed.

(** The sum of two binary32 data, when it is finite, is on the same side
    of every representable value as the exact sum. *)
Lemma add_units (a c : float) :
  is_finite a = true -> is_finite c = true ->
  is_finite (a + c)%f32 = true ->
  forall V : Z, representable V ->
  (V <= units a + units c -> V <= units (a + c)%f32)
  /\ (units a + units c <= V -> units (a + c)%f32 <= V).
Proof.
  intros Ha Hc Hs V HV.
  destruct a as [sa|sa| |sa ma ea], c as [sc|sc| |sc mc ec];
    try discriminate Ha; try discriminate Hc.
  - destruct sa, sc; cbn; lia.
  - cbn [add SFadd units]. unfold add, SFadd. lia.
  - cbn [add SFadd units]. unfold add, SFadd. lia.
  - cbn [is_finite] in Ha, Hc.
    destruct (bounded_exponent _ _ Ha) as [La _].
    destruct (bounded_exponent _ _ Hc) as [Lc _].
    unfold add, SFadd in *. cbv zeta in *.
    rewrite !shl_align_value in * by lia.
    rewrite !units_finite.
    set (ez := Z.min ea ec) in *.
    assert (HP : 0 < 2 ^ (ez + 200)) by (apply Z.pow_pos_nonneg; lia).
    assert (Ea : cond_Zopp sa (Zpos ma * 2 ^ (ea + 200))
                 = cond_Zopp sa (Zpos ma * 2 ^ (ea - ez)) * 2 ^ (ez + 200)).
    { replace (ea + 200) with ((ea - ez) + (ez + 200)) by lia.
      rewrite (Z.pow_add_r 2 (ea - ez) (ez + 200)) by lia.
      destruct sa; cbn [cond_Zopp]; ring. }
    assert (Ec : cond_Zopp sc (Zpos mc * 2 ^ (ec + 200))
                 = cond_Zopp sc (Zpos mc * 2 ^ (ec - ez)) * 2 ^ (ez + 200)).
    { replace (ec + 200) with ((ec - ez) + (ez + 200)) by lia.
      rewrite (Z.pow_add_r 2 (ec - ez) (ez + 200)) by lia.
      destruct sc; cbn [cond_Zopp]; ring. }
    rewrite Ea, Ec, <- Z.mul_add_distr_r.
    set (M := cond_Zopp sa (Zpos ma * 2 ^ (ea - ez))
              + cond_Zopp sc (Zpos mc * 2 ^ (ec - ez))) in *.
    clearbody M. clear Ea Ec.
    unfold binary_normalize in *.
    destruct M as [|p|p].
    + cbn [units]. lia.
    + destruct (round_value false p ez ltac:(lia)) as (U & HU & Hr & Hb).
      assert (HX : 0 < Zpos p * 2 ^ (ez + 200)) by lia.
      destruct (round_signed false _ U _ HX HU Hr Hb) as [R _].
      apply (R Hs V HV).
    + destruct (round_value true p ez ltac:(lia)) as (U & HU & Hr & Hb).
      assert (HX : 0 < Zpos p * 2 ^ (ez + 200)) by lia.
      destruct (round_signed true _ U _ HX HU Hr Hb) as [R _].
      specialize (R Hs V HV). cbn [cond_Zopp] in R.
      replace (Zneg p * 2 ^ (ez + 200)) with (- (Zpos p * 2 ^ (ez + 200)))
        by lia.
      exact R.
Qed.

Lemma f0_5_value : f0_5 = S754_finite false 8388608 (-24).
Proof. reflexivity. Qed.

(** Halving a binary32 datum: the result is finite, and on the same side
    of every representable value as the exact half. *)
Lemma half_units (v : float) :
  is_finite v = true ->
  is_finite (v * f0_5)%f32 = true
  /\ forall V : Z, representable V ->
     (2 * V <= units v -> V <= units (v * f0_5)%f32)
     /\ (units v <= 2 * V -> units (v * f0_5)%f32 <= V).
Proof.
  rewrite f0_5_value.
  destruct v as [s|s| |s m e]; try discriminate; cbn [is_finite].
  - intros _. split; [reflexivity|]. intros V _.
    unfold mul, SFmul. cbn [units]. lia.
  - intros Hb. unfold mul, SFmul. rewrite xorb_false_r.
    destruct (bounded_exponent _ _ Hb) as [Le Ln].
    destruct (bounded_mantissa _ _ Hb) as [Um Ue].
    assert (Hpre : e + -24
                   <= fexp prec emax
                        (Zpos (digits2_pos (m * 8388608)) + (e + -24))).
    { destruct (Z.eq_dec e (-149)) as [->|Hne].
      - unfold fexp, emin, prec, emax. lia.
      - specialize (Ln ltac:(lia)).
        assert (H46 : 2 ^ 46 <= Zpos (m * 8388608)).
        { rewrite Pos2Z.inj_mul. change (2 ^ 46) with (8388608 * 8388608).
          lia. }
        pose proof (digits_lower _ _ H46).
        unfold fexp, emin, prec, emax. lia. }
    destruct (round_aux_value s (m * 8388608) (e + -24) ltac:(lia) Hpre)
      as (U & HU & Hr & Hbr).
    assert (HP : 0 < 2 ^ (e + -24 + 200)) by (apply Z.pow_pos_nonneg; lia).
    assert (HX : 0 < Zpos (m * 8388608) * 2 ^ (e + -24 + 200)) by lia.
    assert (E2 : Zpos m * 2 ^ (e + 200)
                 = 2 * (Zpos (m * 8388608) * 2 ^ (e + -24 + 200))).
    { rewrite Pos2Z.inj_mul.
      replace (e + 200) with (24 + (e + -24 + 200)) by lia.
      rewrite (Z.pow_add_r 2 24 (e + -24 + 200)) by lia.
      change (2 ^ 24) with 16777216. lia. }
    destruct (round_signed s _ U _ HX HU Hr Hbr) as [R F].
    assert (Hfin : is_finite
                     (binary_round_aux prec emax s (Zpos (m * 8388608))
                        (e + -24) loc_Exact) = true).
    { apply (F (Zpos m) e); [change (2 ^ 24) with 16777216; lia | lia|].
      lia. }
    split; [exact Hfin|].
    intros V HV. destruct (R Hfin V HV) as [R1 R2].
    rewrite units_finite, E2.
    set (X := Zpos (m * 8388608) * 2 ^ (e + -24 + 200)) in *.
    destruct s; cbn [cond_Zopp] in *; split; intros H;
      first [apply R1 | apply R2]; lia.
Qed.

(** The centre of an interval of binary32 data, taken as
    [(a + c) * 0.5f], lies in the interval unless the sum overflows. *)
Lemma centre_between (a c : float) :
  is_finite a = true -> is_finite c = true -> leb a c = true ->
  is_finite (a + c)%f32 = true ->
  is_finite ((a + c) * f0_5)%f32 = true
  /\ leb a ((a + c) * f0_5)%f32 = true
  /\ leb ((a + c) * f0_5)%f32 c = true.
Proof.
  intros Ha Hc Hle Hs.
  apply (leb_units a c Ha Hc) in Hle.
  destruct (add_units a c Ha Hc Hs _ (representable_double a Ha))
    as [L _].
  destruct (add_units a c Ha Hc Hs _ (representable_double c Hc))
    as [_ U].
  destruct (half_units _ Hs) as [Ht B].
  destruct (B _ (representable_units a Ha)) as [B1 _].
  destruct (B _ (representable_units c Hc)) as [_ B2].
  split; [exact Ht|]. split.
  - apply (leb_units _ _ Ha Ht). apply B1. apply L. lia.
  - apply (leb_units _ _ Ht Hc). apply B2. apply U. lia.
Qed.

Lemma f2_value : f2 = S754_finite false 8388608 (-22).
Proof. reflexivity. Qed.

(** Doubling a binary32 datum is exact unless it overflows. *)
Lemma double_units (v : float) :
  is_finite v = true \/ is_inf v = true ->
  is_inf (v * f2)%f32 = false ->
  is_finite v = true /\ is_finite (v * f2)%f32 = true
  /\ units (v * f2)%f32 = 2 * units v.
Proof.
  rewrite f2_value.
  destruct v as [s|s| |s m e]; cbn [is_finite is_inf];
    intros [Hv|Hv]; try discriminate Hv.
  - intros _. split; [reflexivity|]. split; [reflexivity|].
    unfold mul, SFmul. cbn [units]. lia.
  - unfold mul, SFmul. cbn [is_inf]. discriminate.
  - unfold mul, SFmul. rewrite xorb_false_r. intros Hfin.
    split; [exact Hv|].
    destruct (bounded_exponent _ _ Hv) as [Le Ln].
    destruct (bounded_mantissa _ _ Hv) as [Um Ue].
    assert (Hpre : e + -22
                   <= fexp prec emax
                        (Zpos (digits2_pos (m * 8388608)) + (e + -22))).
    { destruct (Z.eq_dec e (-149)) as [->|Hne].
      - unfold fexp, emin, prec, emax. lia.
      - specialize (Ln ltac:(lia)).
        assert (H46 : 2 ^ 46 <= Zpos (m * 8388608)).
        { rewrite Pos2Z.inj_mul. change (2 ^ 46) with (8388608 * 8388608).
          lia. }
        pose proof (digits_lower _ _ H46).
        unfold fexp, emin, prec, emax. lia. }
    destruct (round_aux_value s (m * 8388608) (e + -22) ltac:(lia) Hpre)
      as (U & HU & Hr & Hbr).
    assert (HP : 0 < 2 ^ (e + -22 + 200)) by (apply Z.pow_pos_nonneg; lia).
    assert (E2 : Zpos (m * 8388608) * 2 ^ (e + -22 + 200)
                 = Zpos m * 2 ^ (e + 1 + 200)).
    { rewrite Pos2Z.inj_mul.
      replace (e + 1 + 200) with (23 + (e + -22 + 200)) by lia.
      rewrite (Z.pow_add_r 2 23 (e + -22 + 200)) by lia.
      change (2 ^ 23) with 8388608. lia. }
    assert (E3 : Zpos m * 2 ^ (e + 1 + 200) = 2 * (Zpos m * 2 ^ (e + 200))).
    { replace (e + 1 + 200) with (1 + (e + 200)) by lia.
      rewrite (Z.pow_add_r 2 1 (e + 200)) by lia.
      change (2 ^ 1) with 2. lia. }
    destruct Hr as [Hinf|[Hf Hu]]; [rewrite Hinf in Hfin; discriminate Hfin|].
    split; [exact Hf|].
    destruct (Hbr (Zpos m) (e + 1)) as [B1 B2];
      [change (2 ^ 24) with 16777216; lia | lia|].
    rewrite E2 in B1, B2.
    specialize (B1 ltac:(lia)). destruct (B2 ltac:(lia)) as [B3 _].
    rewrite Hu, units_finite.
    replace U with (2 * (Zpos m * 2 ^ (e + 200))) by lia.
    destruct s; cbn [cond_Zopp]; lia.
Qed.

(** The difference of two binary32 data is a binary32 datum or an
    infinity. *)
Lemma sub_finite_or_inf (a c : float) :
  is_finite a = true -> is_finite c = true ->
  is_finite (c - a)%f32 = true \/ is_inf (c - a)%f32 = true.
Proof.
  intros Ha Hc.
  destruct a as [sa|sa| |sa ma ea], c as [sc|sc| |sc mc ec];
    try discriminate Ha; try discriminate Hc.
  - left. destruct sa, sc; reflexivity.
  - left. exact Hc.
  - left. exact Ha.
  - cbn [is_finite] in Ha, Hc.
    destruct (bounded_exponent _ _ Ha) as [La _].
    destruct (bounded_exponent _ _ Hc) as [Lc _].
    unfold sub, SFsub. cbv zeta. unfold binary_normalize.
    match goal with
    | |- context [match ?M with Z0 => _ | Zpos _ => _ | Zneg _ => _ end] =>
        destruct M as [|p|p]
    end.
    + left. reflexivity.
    + destruct (round_value false p (Z.min ec ea) ltac:(lia))
        as (U & _ & [Hr|[Hr _]] & _);
        [right; rewrite Hr; reflexivity | left; exact Hr].
    + destruct (round_value true p (Z.min ec ea) ltac:(lia))
        as (U & _ & [Hr|[Hr _]] & _);
        [right; rewrite Hr; reflexivity | left; exact Hr].
Qed.

Lemma add_finite_or_inf (a c : float) :
  is_finite a = true -> is_finite c = true ->
  is_finite (a + c)%f32 = true \/ is_inf (a + c)%f32 = true.
Proof.
  intros Ha Hc.
  destruct a as [sa|sa| |sa ma ea], c as [sc|sc| |sc mc ec];
    try discriminate Ha; try discriminate Hc.
  - left. destruct sa, sc; reflexivity.
  - left. exact Hc.
  - left. exact Ha.
  - cbn [is_finite] in Ha, Hc.
    destruct (bounded_exponent _ _ Ha) as [La _].
    destruct (bounded_exponent _ _ Hc) as [Lc _].
    unfold add, SFadd. cbv zeta. unfold binary_normalize.
    match goal with
    | |- context [match ?M with Z0 => _ | Zpos _ => _ | Zneg _ => _ end] =>
        destruct M as [|p|p]
    end.
    + left. reflexivity.
    + destruct (round_value false p (Z.min ea ec) ltac:(lia))
        as (U & _ & [Hr|[Hr _]] & _);
        [right; rewrite Hr; reflexivity | left; exact Hr].
    + destruct (round_value true p (Z.min ea ec) ltac:(lia))
        as (U & _ & [Hr|[Hr _]] & _);
        [right; rewrite Hr; reflexivity | left; exact Hr].
Qed.

(** The target coordinate that [setPointCloud] computes from an ordered
    pair of finite bounds is an infinity, or lies between the bounds. *)
Lemma centre_in_box (a c : float) :
  is_finite a = true -> is_finite c = true -> leb a c = true ->
  is_inf ((a + c) * f0_5)%f32 = false ->
  is_finite ((a + c) * f0_5)%f32 = true
  /\ leb a ((a + c) * f0_5)%f32 = true
  /\ leb ((a + c) * f0_5)%f32 c = true.
Proof.
  intros Ha Hc Hle Hn.
  destruct (add_finite_or_inf a c Ha Hc) as [Hs|Hs].
  - apply centre_between; assumption.
  - destruct (a + c)%f32 as [s|s| |s m e]; try discriminate Hs.
    rewrite f0_5_value in Hn. discriminate Hn.
Qed.

(** The distance that [setPointCloud] computes from extents that are
    binary32 data or infinities is an infinity, or twice the largest
    extent exactly. *)
Lemma distance_is_double (u v w : float) :
  is_finite u = true \/ is_inf u = true ->
  is_finite v = true \/ is_inf v = true ->
  is_finite w = true \/ is_inf w = true ->
  is_inf (std_max3 u v w * f2)%f32 = false ->
  is_finite (std_max3 u v w) = true
  /\ is_finite (std_max3 u v w * f2)%f32 = true
  /\ units (std_max3 u v w * f2)%f32 = 2 * units (std_max3 u v w).
Proof.
  intros Hu Hv Hw. apply double_units.
  destruct (std_max3_choice u v w) as [->|[->| ->]]; assumption.
Qed.

(** ** The camera that [setPointCloud] leaves *)

Lemma centre_is_number (a c : float) :
  is_finite a = true -> is_finite c = true ->
  is_nan ((a + c) * f0_5)%f32 = false.
Proof.
  intros Ha Hc.
  assert (Hs : is_nan (a + c)%f32 = false).
  { apply add_not_nan; try (apply is_finite_not_nan; assumption).
    destruct a as [sa|sa| |sa ma ea]; try discriminate Ha; reflexivity. }
  apply mul_not_nan; [exact Hs | reflexivity | |].
  - apply andb_false_r.
  - apply andb_false_r.
Qed.

Lemma extent_is_number (a c : float) :
  is_finite a = true -> is_finite c = true -> is_nan (c - a)%f32 = false.
Proof.
  intros Ha Hc.
  apply sub_not_nan; try (apply is_finite_not_nan; assumption).
  destruct c as [sc|sc| |sc mc ec]; try discriminate Hc; reflexivity.
Qed.

(** C3, as amended: for every sample sequence passed to [setPointCloud],
    afterwards the stored bounds are the bounding box of the sequence,
    the camera target is, per axis, the binary32 value of
    [(min + max) * 0.5f], and the camera distance is the binary32 value
    of the largest of the three extents [max - min] times [2.0f]; each
    operation rounds, and overflows to an infinity.  For finite samples
    the box is ordered, no extent is negative, the largest extent is at
    least each of the three, and the distance is not negative; on each
    axis the target is an infinity or a binary32 datum between the
    minimum and the maximum of the box; and the distance is an infinity
    or exactly twice the largest extent.  For a sequence that fills the
    cube [[-5, 5]^3] the target is [(0, 0, 0)] and the distance is
    20. *)
Theorem setPointCloud_recentres (rd : PointCloudRenderer)
    (ps : list Point3D) :
  let rd' := setPointCloud rd ps in
  let sizeX := (maxX rd' - minX rd')%f32 in
  let sizeY := (maxY rd' - minY rd')%f32 in
  let sizeZ := (maxZ rd' - minZ rd')%f32 in
  let largest := std_max3 sizeX sizeY sizeZ in
  bounds rd' = bbox ps
  /\ targetX (camera rd') = ((minX rd' + maxX rd') * f0_5)%f32
  /\ targetY (camera rd') = ((minY rd' + maxY rd') * f0_5)%f32
  /\ targetZ (camera rd') = ((minZ rd' + maxZ rd') * f0_5)%f32
  /\ distance (camera rd') = (largest * f2)%f32
  /\ (largest = sizeX \/ largest = sizeY \/ largest = sizeZ)
  /\ (is_nan sizeX = false -> is_nan sizeY = false -> is_nan sizeZ = false ->
      leb sizeX largest = true /\ leb sizeY largest = true
      /\ leb sizeZ largest = true)
  /\ (Forall finite_sample ps ->
      (leb (minX rd') (maxX rd') = true /\ leb (minY rd') (maxY rd') = true
       /\ leb (minZ rd') (maxZ rd') = true)
      /\ (leb f0 sizeX = true /\ leb f0 sizeY = true /\ leb f0 sizeZ = true)
      /\ (leb sizeX largest = true /\ leb sizeY largest = true
          /\ leb sizeZ largest = true)
      /\ leb f0 (distance (camera rd')) = true
      /\ (is_nan (targetX (camera rd')) = false
          /\ is_nan (targetY (camera rd')) = false
          /\ is_nan (targetZ (camera rd')) = false)
      /\ (is_inf (targetX (camera rd')) = false ->
          is_finite (targetX (camera rd')) = true
          /\ leb (minX rd') (targetX (camera rd')) = true
          /\ leb (targetX (camera rd')) (maxX rd') = true)
      /\ (is_inf (targetY (camera rd')) = false ->
          is_finite (targetY (camera rd')) = true
          /\ leb (minY rd') (targetY (camera rd')) = true
          /\ leb (targetY (camera rd')) (maxY rd') = true)
      /\ (is_inf (targetZ (camera rd')) = false ->
          is_finite (targetZ (camera rd')) = true
          /\ leb (minZ rd') (targetZ (camera rd')) = true
          /\ leb (targetZ (camera rd')) (maxZ rd') = true)
      /\ (is_inf (distance (camera rd')) = false ->
          is_finite largest = true
          /\ is_finite (distance (camera rd')) = true
          /\ units (distance (camera rd')) = 2 * units largest))
  /\ (fills_cube5 ps ->
      targetX (camera rd') = f0 /\ targetY (camera rd') = f0
      /\ targetZ (camera rd') = f0 /\ distance (camera rd') = f20).
Proof.
  cbv zeta.
  destruct (setPointCloud_camera rd ps) as (Tx & Ty & Tz & Td & _).
  cbv zeta in Tx, Ty, Tz, Td.
  split; [apply setPointCloud_bounds|].
  split; [exact Tx|]. split; [exact Ty|]. split; [exact Tz|].
  split; [exact Td|]. split; [apply std_max3_choice|].
  split; [apply std_max3_greatest|].
  split.
  - intros Hall.
    pose proof (finite_extents_nonneg rd ps Hall) as E. cbv zeta in E.
    pose proof (finite_distance_nonneg rd ps Hall) as D.
    pose proof (bbox_finite ps Hall) as Hb.
    pose proof (finite_box_ordered ps Hall) as O.
    pose proof (setPointCloud_bounds rd ps) as B.
    rewrite Tx, Ty, Tz, Td.
    destruct (bbox ps) as [[[[[a1 a2] a3] a4] a5] a6].
    apply bounds_fields in B.
    destruct B as (B1 & B2 & B3 & B4 & B5 & B6).
    rewrite B1, B2, B3, B4, B5, B6 in *.
    destruct Hb as (H1 & H2 & H3 & H4 & H5 & H6).
    destruct O as (O1 & O2 & O3).
    split; [repeat split; assumption|]. split; [exact E|]. split.
    { apply std_max3_greatest; apply extent_is_number; assumption. }
    split; [rewrite <- Td; exact D|].
    split; [split; [|split]; apply centre_is_number; assumption|].
    split; [apply centre_in_box; assumption|].
    split; [apply centre_in_box; assumption|].
    split; [apply centre_in_box; assumption|].
    apply distance_is_double; apply sub_finite_or_inf; assumption.
  - intros Hfill. rewrite Tx, Ty, Tz, Td.
    pose proof (setPointCloud_bounds rd ps) as Hb.
    rewrite (fills_cube5_bbox ps Hfill) in Hb.
    apply bounds_fields in Hb.
    destruct Hb as (-> & -> & -> & -> & -> & ->).
    repeat split; vm_compute; reflexivity.
Qed.

Lemma setPointCloud_recentres_witness :
  let ps := Point3D_at f1 f2 f0 :: cube5_corners in
  let rd' := setPointCloud PointCloudRenderer_new ps in
  (targetX (camera rd') = f0 /\ targetY (camera rd') = f0
   /\ targetZ (camera rd') = f0 /\ distance (camera rd') = f20)
  /\ (Forall finite_sample ps
      /\ is_inf (targetY (camera rd')) = false
      /\ leb (minY rd') (targetY (camera rd')) = true
      /\ leb (targetY (camera rd')) (maxY rd') = true).
Proof.
  cbv zeta.
  destruct (setPointCloud_recentres PointCloudRenderer_new
              (Point3D_at f1 f2 f0 :: cube5_corners))
    as (_ & _ & _ & _ & _ & _ & _ & Hfin & Hcube).
  assert (F : Forall finite_sample (Point3D_at f1 f2 f0 :: cube5_corners))
    by (repeat constructor).
  split.
  - apply Hcube. split.
    + repeat constructor.
    + unfold cube5_corners. cbn [map x y z Point3D_at In].
      repeat split; auto.
  - split; [exact F|]. split; [reflexivity|].
    destruct (Hfin F) as (_ & _ & _ & _ & _ & _ & HY & _).
    destruct (HY eq_refl) as (_ & L & U). split; assumption.
Defined.

(** C3 as stated fails.  Two finite samples with x = 2e38 and x = 3e38
    give the box [[2e38, 3e38]] along x, and [min + max] overflows: the
    target is [+inf], above the maximum of the box and not its centre
    2.5e38.  Two finite samples with x = 0 and x = 3e38 give a largest
    extent of 3e38, a finite number, and the distance is [+inf], not
    twice the extent. *)
Lemma setPointCloud_centre_overflows :
  let lo := of_Z (2 * 10 ^ 38) in
  let hi := of_Z (3 * 10 ^ 38) in
  let ps := [Point3D_at lo f0 f0; Point3D_at hi f0 f0] in
  let qs := [Point3D_at f0 f0 f0; Point3D_at hi f0 f0] in
  let rd := setPointCloud PointCloudRenderer_new ps in
  let rq := setPointCloud PointCloudRenderer_new qs in
  (Forall finite_sample ps
   /\ minX rd = lo /\ maxX rd = hi
   /\ targetX (camera rd) = S754_infinity false
   /\ ltb (maxX rd) (targetX (camera rd)) = true)
  /\ (Forall finite_sample qs
      /\ std_max3 (maxX rq - minX rq)%f32 (maxY rq - minY rq)%f32
           (maxZ rq - minZ rq)%f32 = hi
      /\ is_finite hi = true
      /\ distance (camera rq) = S754_infinity false).
Proof.
  cbv zeta. split.
  - split; [repeat constructor|].
    repeat split; vm_compute; reflexivity.
  - split; [repeat constructor|].
    repeat split; vm_compute; reflexivity.
Qed.

(** ** The further properties at sample data *)

Lemma frame_draws_samples_witness :
  exists calls : list GL.call,
    render cmath_sample (setColorMode box_renderer 7) 1280 720 = Some calls
    /\ drawn_points GL_start calls
       = [((f0, f0, f1, f1), (f0, f0, f0)); ((f0, f0, f1, f1), (f2, f1, f1))].
Proof.
  destruct (render cmath_sample (setColorMode box_renderer 7) 1280 720)
    as [calls|] eqn:E.
  - exists calls. split; [reflexivity|].
    rewrite (frame_draws_samples cmath_sample (setColorMode box_renderer 7)
               1280 720 GL_start calls eq_refl eq_refl E).
    reflexivity.
  - vm_compute in E. discriminate E.
Defined.

Lemma frame_discipline_and_state_witness :
  exists calls : list GL.call,
    render cmath_sample box_renderer 1280 720 = Some calls
    /\ GL.disciplined calls = true
    /\ GL.blend (GL.exec GL_start calls) = false
    /\ GL.point_size (GL.exec GL_start calls) = f2.
Proof.
  destruct (render cmath_sample box_renderer 1280 720) as [calls|] eqn:E.
  - exists calls. split; [reflexivity|].
    destruct (frame_discipline_and_state cmath_sample box_renderer 1280 720
                calls E)
      as (D & _ & _ & S).
    destruct (S GL_start eq_refl) as (_ & _ & _ & _ & G & _ & P & _).
    split; [exact D|]. split.
    + apply G. reflexivity.
    + apply P. discriminate.
  - vm_compute in E. discriminate E.
Defined.

Lemma renderGrid_vertex_count_witness :
  exists grid : list GL.call,
    renderGrid box_renderer = Some grid
    /\ length (GL.vertices GL_start grid) = 64%nat.
Proof.
  destruct (renderGrid box_renderer) as [grid|] eqn:E.
  - exists grid. split; [reflexivity|].
    destruct (renderGrid_vertex_count box_renderer grid GL_start E)
      as [[H _]|(nx & ny & nz & _ & L & V & _)].
    + vm_compute in H. discriminate H.
    + vm_compute in L. injection L as <- <- <-. exact V.
  - vm_compute in E. discriminate E.
Defined.


Lemma flat_cloud_no_grid_no_labels_witness :
  let ps := [Point3D_at f1 f2 f5; Point3D_at f2 f2 f0] in
  flat_cloud ps
  /\ renderGrid (setPointCloud PointCloudRenderer_new ps) = Some []
  /\ Part003.renderAxisLabels (setPointCloud PointCloudRenderer_new ps)
     = Some ([], [], []).
Proof.
  cbv zeta.
  assert (F : flat_cloud [Point3D_at f1 f2 f5; Point3D_at f2 f2 f0]).
  { right. exists f2. split; [reflexivity|]. right. left.
    repeat constructor. }
  split; [exact F|].
  destruct (flat_cloud_no_grid_no_labels PointCloudRenderer_new _ F)
    as (G & _ & _ & L & _).
  split; [exact G | exact L].
Defined.

Lemma label_count_witness :
  Z.of_nat (length (labelled_lines 12 (Part003.skip 12))) = 7
  /\ Z.of_nat (length (labelled_lines 40 (Part002.skip 40))) = 11.
Proof.
  split.
  - destruct (label_count 12) as (_ & H & _); [lia | exact H].
  - destruct (label_count 40) as (_ & _ & H); [lia | exact H].
Defined.

Lemma nan_camera_stays_nan_witness :
  let c := zoom Camera_new S754_nan in
  is_nan (distance c) = true
  /\ is_nan (distance (zooms c [f1; (- f1)%f32; f10])) = true.
Proof.
  cbv zeta. split; [reflexivity|].
  destruct (nan_camera_stays_nan (zoom Camera_new S754_nan)) as [H _].
  apply H. reflexivity.
Defined.

Lemma zoom_snaps_to_minimum_witness :
  distance_in_range (distance Camera_new)
  /\ ((f1 - f10 * f0_1) <=? f0)%f32 = true
  /\ distance (zoom Camera_new f10) = f0_1.
Proof.
  assert (R : distance_in_range (distance Camera_new))
    by (split; reflexivity).
  split; [exact R|]. split; [reflexivity|].
  apply (zoom_snaps_to_minimum Camera_new f10 R). reflexivity.
Defined.

Lemma pan_without_effect_witness :
  same_value (targetX (pan libm_sample Camera_new f5 f5)) f0
  /\ same_value (targetZ (pan libm_sample Camera_new f5 f5)) f0.
Proof.
  destruct (pan_without_effect libm_sample Camera_new) as [H _].
  cbv zeta in H.
  apply (H f5); reflexivity.
Defined.

Lemma main_loop_invariants_witness :
  let inputs :=
    [mouse_input false 100 100 true false f0;
     mouse_input false 130 4000 true true f1;
     reset_click; clear_click] in
  Forall cursor_is_number inputs
  /\ pitch_in_range
       (pitch (camera (renderer (run libm_sample cube5_corners inputs)))).
Proof.
  cbv zeta.
  assert (F : Forall cursor_is_number
                [mouse_input false 100 100 true false f0;
                 mouse_input false 130 4000 true true f1;
                 reset_click; clear_click]).
  { repeat constructor. }
  split; [exact F|].
  apply (main_loop_invariants libm_sample cube5_corners _ F).
Defined.

Lemma reset_camera_reloads_cleared_cloud_witness :
  let st := App_init cube5_corners in
  let st1 := frame libm_sample st clear_click in
  points (renderer st1) = []
  /\ points (renderer (frame libm_sample st1 reset_click)) = cube5_corners.
Proof.
  cbv zeta.
  destruct (reset_camera_reloads_cleared_cloud libm_sample
              (App_init cube5_corners) clear_click reset_click
              eq_refl eq_refl eq_refl eq_refl)
    as (P1 & _ & _ & A1 & P2 & _).
  split; [exact P1|]. rewrite P2, A1. reflexivity.
Defined.

Lemma mouse_tracking_witness :
  let st := App_init cube5_corners in
  renderer (frame libm_sample st (mouse_input false 640 360 true false f0))
  = renderer st.
Proof.
  cbv zeta.
  destruct (mouse_tracking libm_sample (App_init cube5_corners))
    as (_ & H & _).
  apply (H (mouse_input false 640 360 true false f0)); try reflexivity.
  repeat split.
Defined.

Lemma bounds_as_function_of_samples_witness :
  let p := Point3D_at f1 f2 f5 in
  let q := Point3D_at f2 f0 (- f1)%f32 in
  same_box (bounds (setPointCloud PointCloudRenderer_new [p; q]))
    (bounds (setPointCloud PointCloudRenderer_new [q; p])).
Proof.
  cbv zeta.
  destruct (bounds_as_function_of_samples PointCloudRenderer_new
              [Point3D_at f1 f2 f5; Point3D_at f2 f0 (- f1)%f32]
              [Point3D_at f2 f0 (- f1)%f32; Point3D_at f1 f2 f5])
    as [H _].
  apply H. apply perm_swap.
Defined.

Lemma label_and_grid_guards_agree_witness :
  Forall finite_sample cube5_corners
  /\ labels_wanted (setPointCloud PointCloudRenderer_new cube5_corners)
     = grid_shown (setPointCloud PointCloudRenderer_new cube5_corners).
Proof.
  assert (F : Forall finite_sample cube5_corners)
    by (repeat constructor).
  split; [exact F|].
  destruct (label_and_grid_guards_agree PointCloudRenderer_new
              cube5_corners F) as [H _].
  exact H.
Defined.

Lemma finite_cloud_extents_witness :
  Forall finite_sample cube5_corners
  /\ (f0 <=? distance (camera
                         (setPointCloud PointCloudRenderer_new
                            cube5_corners)))%f32 = true.
Proof.
  assert (F : Forall finite_sample cube5_corners)
    by (repeat constructor).
  split; [exact F|].
  destruct (finite_cloud_extents PointCloudRenderer_new cube5_corners F)
    as (_ & _ & _ & H & _).
  exact H.
Defined.

Lemma height_scale_ends_witness :
  let ps := [Point3D_at f0 f0 f0; Point3D_at f0 f5 f0; Point3D_at f0 f10 f0] in
  let rd := setColorMode (setPointCloud PointCloudRenderer_new ps)
              COLOR_HEIGHT in
  Forall finite_sample ps
  /\ color_call rd (Point3D_at f0 f0 f0) = [glColor3f f0 f0 f1]
  /\ color_call rd (Point3D_at f0 f10 f0) = [glColor3f f1 f0 f0].
Proof.
  cbv zeta.
  assert (F : Forall finite_sample
                [Point3D_at f0 f0 f0; Point3D_at f0 f5 f0;
                 Point3D_at f0 f10 f0])
    by (repeat constructor).
  split; [exact F|].
  destruct (height_scale_ends PointCloudRenderer_new _ F eq_refl eq_refl)
    as (L & H & _).
  split; [apply L | apply H]; reflexivity.
Defined.
